(** * smolagent: the agent loop, its action parser and the calculator tools

    A shallow embedding of [smolagent/agent.py],
    [smolagent/calculator_tools.py] and [agentexp/llm.py].

    Conventions of the model.
    - A Python [str] is a Rocq [string] read as the UTF-8 encoding of the
      text.  The program only searches for ASCII delimiters, compares and
      concatenates, and these operations commute with the encoding.
    - A Python [dict] is an association list in insertion order with unique
      keys; assigning an existing key replaces its value in place.
    - Exceptions are values of [exn]; a computation that may raise returns
      an [outcome].
    - [json.loads], [re.search] and the handful of dynamic operations that
      [Agent.run] applies to a decoded value ([in], subscription, [.get],
      hashing, unpacking) are modelled after CPython.  The two limits that
      [json.loads] can reach, the length of an integer and the depth of
      nesting, are parameters of the interpreter.
    - A call into code that is not the agent's (a tool, [eval], an
      operator) returns, raises an [Exception], or raises an exception
      outside [Exception]; only the second is caught by [except Exception].
    - The provider is a state machine of its own state: it reads the
      conversation it is given and does not change it.  A tool is a
      function of its keyword arguments.
    - Diagnostic printing ([verbose]) has no effect on the result and is
      left out. *)

From Stdlib Require Import String Ascii List ZArith NArith Bool Lia.
From Stdlib Require Import DecimalString.
Import ListNotations.

Open Scope list_scope.
Open Scope string_scope.

(** ** Characters and strings *)

(** The double quote and the line feed. *)
Definition dq : ascii := "034".
Definition nl : ascii := "010".

Definition chr (c : ascii) : string := String c "".

(** [quoted s] is [s] between double quotes. *)
Definition quoted (s : string) : string := chr dq ++ s ++ chr dq.

(** [sep.join(xs)] *)
Fixpoint join (sep : string) (xs : list string) : string :=
  match xs with
  | [] => ""
  | [x] => x
  | x :: rest => x ++ sep ++ join sep rest
  end.

Fixpoint starts_with (p s : string) : bool :=
  match p, s with
  | "", _ => true
  | String a p', String b s' => (a =? b)%char && starts_with p' s'
  | _, _ => false
  end.

(** [needle in haystack] on two strings. *)
Fixpoint str_contains (needle haystack : string) : bool :=
  starts_with needle haystack ||
  match haystack with
  | "" => false
  | String _ rest => str_contains needle rest
  end.

(** [str(n)] for a Python [int]. *)
Definition str_of_int (n : Z) : string := NilZero.string_of_int (Z.to_int n).

(** ** Dictionaries *)

Definition dict (V : Type) : Type := list (string * V).

Fixpoint dict_get {V} (k : string) (d : dict V) : option V :=
  match d with
  | [] => None
  | (k', v) :: rest => if (k' =? k) then Some v else dict_get k rest
  end.

Definition dict_mem {V} (k : string) (d : dict V) : bool :=
  match dict_get k d with Some _ => true | None => false end.

(** [d[k] = v] *)
Fixpoint dict_set {V} (k : string) (v : V) (d : dict V) : dict V :=
  match d with
  | [] => [(k, v)]
  | (k', v') :: rest =>
      if (k' =? k) then (k, v) :: rest else (k', v') :: dict_set k v rest
  end.

Definition dict_keys {V} (d : dict V) : list string := map fst d.
Definition dict_values {V} (d : dict V) : list V := map snd d.

(** ** Decoded JSON values

    What [json.loads] returns: [None], [bool], [int], [float], [str],
    [list] and [dict].  A float is kept as the lexeme it was read from
    ([NaN], [Infinity] and [-Infinity] included). *)

#[warnings="-register-all"]
Inductive json : Type :=
| JNull
| JBool (b : bool)
| JInt (n : Z)
| JFloat (lexeme : string)
| JStr (s : string)
| JList (items : list json)
| JObj (members : dict json).

(** ** Exceptions *)

Inductive exn : Type :=
| JSONDecodeError
| TypeError
| KeyError
| AttributeError
| RuntimeError (msg : string)
| OtherException (cls msg : string).

Inductive outcome (A : Type) : Type :=
| Ok (a : A)
| Raise (e : exn).
Arguments Ok {A} a.
Arguments Raise {A} e.

(** ** Calls into code that is not the agent's

    What a call of a tool method or of an operation of the interpreter
    does: it returns a value, it raises an exception whose class is
    [Exception] or derives from it, or it raises an exception outside
    [Exception] ([KeyboardInterrupt], [SystemExit], [GeneratorExit], a
    class derived from [BaseException] only).  The name of the class and
    the message [str(e)] are kept.  A clause [except Exception] catches the
    former and lets the latter pass. *)

Inductive raised (A : Type) : Type :=
| Returns (a : A)
| Raises (cls msg : string)
| Aborts (cls msg : string).
Arguments Returns {A} a.
Arguments Raises {A} cls msg.
Arguments Aborts {A} cls msg.

(** ** Tools ([smolagent/tools.py])

    [execute] receives the keyword arguments.  [Agent.run] uses what it
    returns only through [str(result)], inside the same [try] as the call,
    so the result of [execute] is its rendering: [Returns] when the call
    and the rendering return, and what was raised when one of them
    raises. *)

Definition exec_result : Type := raised string.

Record Tool : Type := {
  name : string;
  description : string;
  execute : dict json -> exec_result
}.

(** ** The interpreter

    What the interpreter words itself, and its limits: [repr] of floats
    and containers; the message of the [TypeError] raised when the operand
    of a keyword unpacking is not a mapping; the longest integer, in
    digits, that is converted from text ([sys.get_int_max_str_digits()],
    0 for no limit) with the message of the [ValueError] for a longer
    one; the number of containers that [json.loads] can open inside the
    outermost one before the recursion limit is reached, with the message
    of the [RecursionError] at an opening brace or bracket. *)
Class Interpreter : Type := {
  py_repr : json -> string;
  kwargs_error : Tool -> json -> string;
  int_max_str_digits : nat;
  digits_error : nat -> string;
  json_nesting : nat;
  recursion_error : ascii -> string
}.

(** ** [json.loads]

    The decoder follows CPython's [json.decoder] and [json.scanner] in
    strict mode.  The scanner works on the remaining input and returns the
    value read together with what is left, finds the input malformed, or
    stops at a limit of the interpreter: an integer with more digits than
    [int(...)] converts, or a container nested deeper than the recursion
    limit allows. *)

Module Json.

Inductive limit : Type :=
| TooManyDigits (digits : nat)
| TooDeep (opening : ascii).

Inductive scan (A : Type) : Type :=
| Scanned (a : A) (rest : string)
| Invalid
| Exhausted
| Beyond (l : limit).
Arguments Scanned {A} a rest.
Arguments Invalid {A}.
Arguments Exhausted {A}.
Arguments Beyond {A} l.

Definition is_ws (c : ascii) : bool :=
  ((c =? " ") || (c =? "009") || (c =? "010") || (c =? "013"))%char.

Fixpoint skip_ws (s : string) : string :=
  match s with
  | String c r => if is_ws c then skip_ws r else s
  | "" => ""
  end.

Definition is_digit (c : ascii) : bool :=
  ((48 <=? N_of_ascii c) && (N_of_ascii c <=? 57))%N.

Definition hex_digit (c : ascii) : option N :=
  let n := N_of_ascii c in
  if ((48 <=? n) && (n <=? 57))%N then Some (n - 48)%N
  else if ((65 <=? n) && (n <=? 70))%N then Some (n - 55)%N
  else if ((97 <=? n) && (n <=? 102))%N then Some (n - 87)%N
  else None.

Definition hex4 (a b c d : ascii) : option N :=
  match hex_digit a, hex_digit b, hex_digit c, hex_digit d with
  | Some x, Some y, Some z, Some w => Some (((x * 16 + y) * 16 + z) * 16 + w)%N
  | _, _, _, _ => None
  end.

(** The UTF-8 encoding of a code point; a lone surrogate takes the
    three-byte form. *)
Definition utf8 (cp : N) : string :=
  let byte n := chr (ascii_of_N n) in
  (if cp <? 128 then byte cp
   else if cp <? 2048 then byte (192 + cp / 64) ++ byte (128 + cp mod 64)
   else if cp <? 65536 then
     byte (224 + cp / 4096) ++ byte (128 + (cp / 64) mod 64)
       ++ byte (128 + cp mod 64)
   else
     byte (240 + cp / 262144) ++ byte (128 + (cp / 4096) mod 64)
       ++ byte (128 + (cp / 64) mod 64) ++ byte (128 + cp mod 64))%N.

Definition is_high_surrogate (u : N) : bool := ((55296 <=? u) && (u <=? 56319))%N.
Definition is_low_surrogate (u : N) : bool := ((56320 <=? u) && (u <=? 57343))%N.
Definition join_surrogates (hi lo : N) : N :=
  (65536 + ((hi - 55296) * 1024 + (lo - 56320)))%N.

(** The [BACKSLASH] table of the decoder. *)
Definition unescape (c : ascii) : option ascii :=
  (if c =? dq then Some dq
   else if c =? "\" then Some "\"
   else if c =? "/" then Some "/"
   else if c =? "b" then Some "008"
   else if c =? "f" then Some "012"
   else if c =? "n" then Some "010"
   else if c =? "r" then Some "013"
   else if c =? "t" then Some "009"
   else None)%char.

Definition prepend (p : string) (r : option (string * string))
  : option (string * string) :=
  match r with
  | Some (s, rest) => Some (p ++ s, rest)
  | None => None
  end.

(** [scanstring]: the input starts just after the opening quote. *)
Fixpoint scanstring (s : string) : option (string * string) :=
  match s with
  | "" => None
  | String c r =>
    if (c =? dq)%char then Some ("", r)
    else if (c =? "\")%char then
      match r with
      | "" => None
      | String e r1 =>
        if (e =? "u")%char then
          match r1 with
          | String h1 (String h2 (String h3 (String h4 r2))) =>
            match hex4 h1 h2 h3 h4 with
            | None => None
            | Some uni =>
              if is_high_surrogate uni then
                match r2 with
                | String b (String u (String k1 (String k2 (String k3 (String k4 r3))))) =>
                  if ((b =? "\") && (u =? "u"))%char then
                    match hex4 k1 k2 k3 k4 with
                    | None => None
                    | Some uni2 =>
                      if is_low_surrogate uni2
                      then prepend (utf8 (join_surrogates uni uni2)) (scanstring r3)
                      else prepend (utf8 uni) (scanstring r2)
                    end
                  else prepend (utf8 uni) (scanstring r2)
                | _ => prepend (utf8 uni) (scanstring r2)
                end
              else prepend (utf8 uni) (scanstring r2)
            end
          | _ => None
          end
        else
          match unescape e with
          | Some x => prepend (chr x) (scanstring r1)
          | None => None
          end
      end
    else if (N_of_ascii c <? 32)%N then None
    else prepend (chr c) (scanstring r)
  end.

Fixpoint take_digits (s : string) : string * string :=
  match s with
  | String c r =>
    if is_digit c then let '(ds, rest) := take_digits r in (String c ds, rest)
    else ("", s)
  | "" => ("", "")
  end.

Fixpoint int_of_digits (acc : Z) (ds : string) : Z :=
  match ds with
  | String c r => int_of_digits (10 * acc + (Z.of_N (N_of_ascii c) - 48))%Z r
  | "" => acc
  end.

(** [NUMBER_RE.match]: an optional minus sign and an integer part (a
    single zero, or a non-zero digit and any digits), then optionally a
    fraction (a dot and one digit or more), then optionally an exponent
    (e or E, an optional sign, one digit or more).  An optional part that
    does not match in full is not consumed. *)
Definition match_number (s : string) : option (json * string) :=
  let '(sign, s1) :=
    match s with
    | String c r => if (c =? "-")%char then ("-", r) else ("", s)
    | "" => ("", s)
    end in
  match s1 with
  | String c r =>
    if is_digit c then
      let '(integer, s2) :=
        if (c =? "0")%char then ("0", r)
        else let '(ds, r') := take_digits r in (String c ds, r') in
      let '(frac, s3) :=
        match s2 with
        | String p r2 =>
          if (p =? ".")%char then
            match take_digits r2 with
            | ("", _) => ("", s2)
            | (ds, r3) => (String p ds, r3)
            end
          else ("", s2)
        | "" => ("", s2)
        end in
      let '(exp, s4) :=
        match s3 with
        | String e r3 =>
          if ((e =? "e") || (e =? "E"))%char then
            let '(sg, r4) :=
              match r3 with
              | String g r' =>
                if ((g =? "-") || (g =? "+"))%char then (chr g, r') else ("", r3)
              | "" => ("", r3)
              end in
            match take_digits r4 with
            | ("", _) => ("", s3)
            | (ds, r5) => (String e (sg ++ ds), r5)
            end
          else ("", s3)
        | "" => ("", s3)
        end in
      match frac, exp with
      | "", "" =>
        let n := int_of_digits 0 integer in
        Some (JInt (if sign =? "-" then (- n)%Z else n), s4)
      | _, _ => Some (JFloat (sign ++ integer ++ frac ++ exp), s4)
      end
    else None
  | "" => None
  end.

(** The number of digits of the integer part that [match_number] reads,
    the sign left out. *)
Definition integer_digits (s : string) : nat :=
  let s1 :=
    match s with
    | String c r => if (c =? "-")%char then r else s
    | "" => s
    end in
  match s1 with
  | String c _ =>
    if (c =? "0")%char then 1 else String.length (fst (take_digits s1))
  | "" => 0
  end.

(** [int(integer)] refuses more than [max_digits] digits, unless
    [max_digits] is 0. *)
Definition too_many_digits (max_digits digits : nat) : bool :=
  negb (Nat.eqb max_digits 0) && Nat.ltb max_digits digits.

(** What follows the prefix [p] of [s]. *)
Fixpoint strip_prefix (p s : string) : option string :=
  match p, s with
  | "", _ => Some s
  | String a p', String b s' => if (a =? b)%char then strip_prefix p' s' else None
  | _, _ => None
  end.

(** A literal such as [null]: the value when the input starts with it. *)
Definition literal (word : string) (v : json) (s : string) : option (json * string) :=
  match strip_prefix word s with
  | Some rest => Some (v, rest)
  | None => None
  end.

Definition first_of {A} (xs : list (option A)) : option A :=
  fold_right (fun x r => match x with Some _ => x | None => r end) None xs.

(** [scan_once], [JSONArray] and [JSONObject].  [array_items] starts at
    the first character of an element; [object_members] at the opening
    quote of a key.  [depth] is the number of containers that can still be
    entered: entering one when none is left is the recursion error. *)
Fixpoint scan_once (max_digits fuel depth : nat) (s : string) : scan json :=
  match fuel with
  | O => Exhausted
  | S fuel =>
    match s with
    | "" => Invalid
    | String c r =>
      if (c =? dq)%char then
        match scanstring r with
        | Some (x, rest) => Scanned (JStr x) rest
        | None => Invalid
        end
      else if (c =? "{")%char then
        match depth with
        | O => Beyond (TooDeep c)
        | S depth =>
          match skip_ws r with
          | String c' r' =>
            if (c' =? "}")%char then Scanned (JObj []) r'
            else object_members max_digits fuel depth (String c' r') []
          | "" => Invalid
          end
        end
      else if (c =? "[")%char then
        match depth with
        | O => Beyond (TooDeep c)
        | S depth =>
          match skip_ws r with
          | String c' r' =>
            if (c' =? "]")%char then Scanned (JList []) r'
            else array_items max_digits fuel depth (String c' r') []
          | "" => Invalid
          end
        end
      else
        match first_of [ literal "null" JNull s;
                         literal "true" (JBool true) s;
                         literal "false" (JBool false) s;
                         match_number s;
                         literal "NaN" (JFloat "NaN") s;
                         literal "Infinity" (JFloat "Infinity") s;
                         literal "-Infinity" (JFloat "-Infinity") s ] with
        | Some (JInt n, rest) =>
          if too_many_digits max_digits (integer_digits s)
          then Beyond (TooManyDigits (integer_digits s))
          else Scanned (JInt n) rest
        | Some (v, rest) => Scanned v rest
        | None => Invalid
        end
    end
  end
with array_items (max_digits fuel depth : nat) (s : string) (acc : list json)
  : scan json :=
  match fuel with
  | O => Exhausted
  | S fuel =>
    match scan_once max_digits fuel depth s with
    | Scanned v r =>
      match skip_ws r with
      | String c r' =>
        if (c =? "]")%char then Scanned (JList (rev (v :: acc))) r'
        else if (c =? ",")%char
        then array_items max_digits fuel depth (skip_ws r') (v :: acc)
        else Invalid
      | "" => Invalid
      end
    | Invalid => Invalid
    | Exhausted => Exhausted
    | Beyond l => Beyond l
    end
  end
with object_members (max_digits fuel depth : nat) (s : string) (acc : dict json)
  : scan json :=
  match fuel with
  | O => Exhausted
  | S fuel =>
    match s with
    | String q r =>
      if (q =? dq)%char then
        match scanstring r with
        | Some (key, r1) =>
          match skip_ws r1 with
          | String c r2 =>
            if (c =? ":")%char then
              match scan_once max_digits fuel depth (skip_ws r2) with
              | Scanned v r3 =>
                match skip_ws r3 with
                | String c' r4 =>
                  if (c' =? "}")%char then Scanned (JObj (dict_set key v acc)) r4
                  else if (c' =? ",")%char
                  then object_members max_digits fuel depth (skip_ws r4)
                         (dict_set key v acc)
                  else Invalid
                | "" => Invalid
                end
              | Invalid => Invalid
              | Exhausted => Exhausted
              | Beyond l => Beyond l
              end
            else Invalid
          | "" => Invalid
          end
        | None => Invalid
        end
      else Invalid
    | "" => Invalid
    end
  end.

(** [JSONDecoder.decode]: leading white space, one value, trailing white
    space, end of input. *)
Definition decode (max_digits fuel depth : nat) (s : string) : scan json :=
  match scan_once max_digits fuel depth (skip_ws s) with
  | Scanned v rest =>
    match skip_ws rest with
    | "" => Scanned v ""
    | _ => Invalid
    end
  | r => r
  end.

End Json.

Definition ValueError (msg : string) : exn := OtherException "ValueError" msg.
Definition RecursionError (msg : string) : exn := OtherException "RecursionError" msg.

(** [json.loads(s)]: the decoded value, [json.JSONDecodeError] for a
    malformed text, [ValueError] for an integer beyond the limit of
    digits, [RecursionError] for nesting beyond the limit of depth. *)
Definition json_loads `{Interpreter} (s : string) : outcome json :=
  match Json.decode int_max_str_digits (2 * String.length s + 2) (S json_nesting) s with
  | Json.Scanned v _ => Ok v
  | Json.Invalid | Json.Exhausted => Raise JSONDecodeError
  | Json.Beyond (Json.TooManyDigits digits) => Raise (ValueError (digits_error digits))
  | Json.Beyond (Json.TooDeep opening) =>
    Raise (RecursionError (recursion_error opening))
  end.

(** ** [re.search(r"\{.*\}", response, re.DOTALL)]

    With [re.DOTALL] the dot matches every character, so a match starting
    at an opening brace extends to the last closing brace after it. *)

(** The longest prefix of [s] that ends with [c]. *)
Fixpoint upto_last (c : ascii) (s : string) : option string :=
  match s with
  | "" => None
  | String a r =>
    match upto_last c r with
    | Some p => Some (String a p)
    | None => if (a =? c)%char then Some (chr a) else None
    end
  end.

(** The leftmost position where the pattern matches wins; the result is
    [json_match.group()]. *)
Fixpoint re_search_braces (s : string) : option string :=
  match s with
  | "" => None
  | String a r =>
    if (a =? "{")%char then
      match upto_last "}" r with
      | Some m => Some (String a m)
      | None => re_search_braces r
      end
    else re_search_braces r
  end.

(** ** [Agent._parse_action] *)

Definition _parse_action `{Interpreter} (response : string) : outcome json :=
  match re_search_braces response with
  | Some json_match => json_loads json_match
  | None => json_loads response
  end.

(** ** Operations of [Agent.run] on a decoded value *)

Definition is_str (s : string) (v : json) : bool :=
  match v with
  | JStr s' => s' =? s
  | _ => false
  end.

(** [key in v]: key lookup in a dict, element search in a list, substring
    search in a str; the other values are not containers. *)
Definition py_in (key : string) (v : json) : outcome bool :=
  match v with
  | JObj d => Ok (dict_mem key d)
  | JList items => Ok (existsb (is_str key) items)
  | JStr s => Ok (str_contains key s)
  | JNull | JBool _ | JInt _ | JFloat _ => Raise TypeError
  end.

(** [v[key]] with a string key. *)
Definition py_getitem (v : json) (key : string) : outcome json :=
  match v with
  | JObj d =>
    match dict_get key d with
    | Some x => Ok x
    | None => Raise KeyError
    end
  | _ => Raise TypeError
  end.

(** [v.get(key, default)] *)
Definition py_get (v : json) (key : string) (default : json) : outcome json :=
  match v with
  | JObj d =>
    Ok match dict_get key d with
       | Some x => x
       | None => default
       end
  | _ => Raise AttributeError
  end.

(** [tool_name in self.tools].  The registry is keyed by tool names, which
    are strings: a list or a dict cannot be hashed, and any other value
    that is not a string equals no key. *)
Definition tools_contains (tools : dict Tool) (tool_name : json) : outcome bool :=
  match tool_name with
  | JStr s => Ok (dict_mem s tools)
  | JList _ | JObj _ => Raise TypeError
  | JNull | JBool _ | JInt _ | JFloat _ => Ok false
  end.

(** [str(v)] *)
Definition py_str `{Interpreter} (v : json) : string :=
  match v with
  | JStr s => s
  | JNull => "None"
  | JBool true => "True"
  | JBool false => "False"
  | JInt n => str_of_int n
  | JFloat _ | JList _ | JObj _ => py_repr v
  end.

(** ** The agent ([smolagent/agent.py]) *)

(** A message of the conversation: [{"role": ..., "content": ...}]. *)
Record message : Type := { role : string; content : string }.

(** [LLMProvider.generate]: the provider may keep state of its own, of
    type [B]; a call returns the text or raises. *)
Record LLMProvider (B : Type) : Type := {
  generate : B -> list message -> outcome string * B
}.
Arguments generate {B} _ _ _.

Record Agent (B : Type) : Type := {
  llm_provider : LLMProvider B;
  tools : dict Tool;
  max_iterations : Z
}.
Arguments llm_provider {B} _.
Arguments tools {B} _.
Arguments max_iterations {B} _.

Definition default_max_iterations : Z := 10.

(** [Agent.__init__]: [{tool.name: tool for tool in tools}]. *)
Definition Agent_init {B} (llm : LLMProvider B) (tool_list : list Tool)
    (max_iter : Z) : Agent B :=
  {| llm_provider := llm;
     tools := fold_left (fun d t => dict_set (name t) t d) tool_list [];
     max_iterations := max_iter |}.

Definition _format_tools_description {B} (self : Agent B) : string :=
  join (chr nl)
       (map (fun tool => "- " ++ name tool ++ ": " ++ description tool)
            (dict_values (tools self))).

Definition prompt_header : string :=
  "You are a helpful AI assistant that can use tools to accomplish tasks."
  ++ chr nl ++ chr nl ++ "Available tools:" ++ chr nl.

Definition prompt_instructions : string :=
  chr nl ++ chr nl
  ++ "To use a tool, respond with a JSON object in this format:" ++ chr nl
  ++ "{" ++ quoted "tool" ++ ": " ++ quoted "tool_name" ++ ", "
  ++ quoted "arguments" ++ ": {" ++ quoted "arg1" ++ ": " ++ quoted "value1"
  ++ ", " ++ quoted "arg2" ++ ": " ++ quoted "value2" ++ "}}" ++ chr nl
  ++ chr nl
  ++ "When you have completed the task, respond with:" ++ chr nl
  ++ "{" ++ quoted "final_answer" ++ ": " ++ quoted "your answer here" ++ "}"
  ++ chr nl ++ chr nl
  ++ "Always think step by step and use tools to verify your work when possible."
  ++ chr nl.

Definition _create_system_prompt {B} (self : Agent B) : string :=
  let tools_desc := _format_tools_description self in
  prompt_header ++ tools_desc ++ prompt_instructions.

(** *** The state of a run

    Besides the conversation and the provider's state, the model records
    the argument of every call to [generate] and the tool and keyword
    arguments of every call to [execute], oldest first. *)
Record run_state (B : Type) : Type := {
  messages : list message;
  backend : B;
  generate_calls : list (list message);
  execute_calls : list (string * dict json)
}.
Arguments messages {B} _.
Arguments backend {B} _.
Arguments generate_calls {B} _.
Arguments execute_calls {B} _.

(** Statements of [run] are computations over the state that return or
    raise. *)
Definition M (B A : Type) : Type := run_state B -> outcome A * run_state B.

Definition ret {B A} (a : A) : M B A := fun st => (Ok a, st).
Definition raise {B A} (e : exn) : M B A := fun st => (Raise e, st).
Definition bind {B A C} (m : M B A) (k : A -> M B C) : M B C :=
  fun st =>
    match m st with
    | (Ok a, st') => k a st'
    | (Raise e, st') => (Raise e, st')
    end.
Definition lift {B A} (o : outcome A) : M B A := fun st => (o, st).

Notation "x <- m ;; k" := (bind m (fun x => k))
  (at level 61, m at next level, right associativity).
Notation "m ;; k" := (bind m (fun _ => k))
  (at level 61, right associativity).

(** [messages.append({"role": role, "content": content})] *)
Definition messages_append {B} (role content : string) : M B unit :=
  fun st =>
    (Ok tt,
     {| messages := messages st ++ [ {| role := role; content := content |} ];
        backend := backend st;
        generate_calls := generate_calls st;
        execute_calls := execute_calls st |}).

(** [self.llm_provider.generate(messages)] *)
Definition call_generate {B} (self : Agent B) : M B string :=
  fun st =>
    let '(response, b) := generate (llm_provider self) (backend st) (messages st) in
    (response,
     {| messages := messages st;
        backend := b;
        generate_calls := generate_calls st ++ [messages st];
        execute_calls := execute_calls st |}).

(** [try: action = self._parse_action(response)] with
    [except json.JSONDecodeError]: [None] when the handler ran.  Any other
    exception of the parser is not caught. *)
Definition try_parse_action `{Interpreter} {B} (response : string)
  : M B (option json) :=
  match _parse_action response with
  | Ok action => ret (Some action)
  | Raise JSONDecodeError => ret None
  | Raise e => raise e
  end.

(** The body of [try]: the call of [self.tools[tool_name].execute] on the
    unpacked [tool_args] and the rendering of its result.  The clause is
    [except Exception]: an exception of another class is not caught and
    leaves the loop.  Unpacking fails, with a [TypeError], when [tool_args]
    is not a dict. *)
Definition try_execute `{Interpreter} {B} (self : Agent B)
    (tool_name tool_args : json) : M B exec_result :=
  fun st =>
    match tool_name with
    | JStr n =>
      match dict_get n (tools self) with
      | Some tool =>
        match tool_args with
        | JObj kwargs =>
          let called :=
            {| messages := messages st;
               backend := backend st;
               generate_calls := generate_calls st;
               execute_calls := execute_calls st ++ [(n, kwargs)] |} in
          match execute tool kwargs with
          | Aborts cls msg => (Raise (OtherException cls msg), called)
          | result => (Ok result, called)
          end
        | _ => (Ok (Raises "TypeError" (kwargs_error tool tool_args)), st)
        end
      | None => (Ok (Raises "KeyError" (py_repr tool_name)), st)
      end
    | _ => (Ok (Raises "KeyError" (py_repr tool_name)), st)
    end.

(** The body of the loop returns [Some v] at [return v] and [None] when
    the loop goes on ([continue], or the end of the body). *)
Definition continue_ {B} : M B (option json) := ret None.
Definition return_ {B} (v : json) : M B (option json) := ret (Some v).

Definition dispatch `{Interpreter} {B} (self : Agent B) (action : json)
  : M B (option json) :=
  has_final <- lift (py_in "final_answer" action) ;;
  if has_final : bool then
    answer <- lift (py_getitem action "final_answer") ;;
    return_ answer
  else
    has_tool <- lift (py_in "tool" action) ;;
    if has_tool : bool then
      tool_name <- lift (py_getitem action "tool") ;;
      tool_args <- lift (py_get action "arguments" (JObj [])) ;;
      known <- lift (tools_contains (tools self) tool_name) ;;
      if negb known then
        messages_append "user" ("Unknown tool: " ++ py_str tool_name) ;;
        continue_
      else
        result <- try_execute self tool_name tool_args ;;
        match result with
        | Returns rendered => messages_append "user" ("Tool result: " ++ rendered)
        | Raises _ msg => messages_append "user" ("Tool error: " ++ msg)
        | Aborts cls msg => raise (OtherException cls msg)
        end ;;
        continue_
    else
      messages_append "user" "Please specify a tool to use or provide a final_answer." ;;
      continue_.

Definition iteration `{Interpreter} {B} (self : Agent B) : M B (option json) :=
  response <- call_generate self ;;
  messages_append "assistant" response ;;
  parsed <- try_parse_action response ;;
  match parsed with
  | None =>
    messages_append "user" "Please respond with a valid JSON object." ;;
    continue_
  | Some action => dispatch self action
  end.

(** [for _ in range(n): body] *)
Fixpoint for_range {B} (n : nat) (body : M B (option json)) : M B (option json) :=
  match n with
  | O => ret None
  | S n' =>
    r <- body ;;
    match r with
    | Some v => ret (Some v)
    | None => for_range n' body
    end
  end.

Definition initial_messages {B} (self : Agent B) (task : string) : list message :=
  [ {| role := "system"; content := _create_system_prompt self |};
    {| role := "user"; content := task |} ].

Definition budget_exceeded (n : Z) : exn :=
  RuntimeError ("Max iterations (" ++ str_of_int n ++ ") exceeded").

(** What follows the loop: [return] the answer the body returned, or
    [raise RuntimeError] when the loop ran out.  [run_loop self n] is [run]
    with [n] iterations left. *)
Definition run_loop `{Interpreter} {B} (self : Agent B) (n : nat) : M B json :=
  r <- for_range n (iteration self) ;;
  match r with
  | Some answer => ret answer
  | None => raise (budget_exceeded (max_iterations self))
  end.

Definition initial_state {B} (self : Agent B) (task : string) (b : B) : run_state B :=
  {| messages := initial_messages self task;
     backend := b;
     generate_calls := [];
     execute_calls := [] |}.

(** [Agent.run(task)], started with the provider in state [b]. *)
Definition run `{Interpreter} {B} (self : Agent B) (task : string) (b : B)
  : outcome json * run_state B :=
  run_loop self (Z.to_nat (max_iterations self)) (initial_state self task b).

(** ** The calculator tools ([smolagent/calculator_tools.py])

    [eval] and the arithmetic of the values it returns belong to the
    interpreter.  They are taken as given: [py_eval expression] is
    [eval(expression, safe_namespace, {})]; like the operators and the
    conversion to text, it returns an object or raises.  A comparison
    returns an object, which need not be a boolean. *)

Class Evaluator : Type := {
  pyobj : Type;
  py_eval : string -> raised pyobj;
  is_float : pyobj -> bool;                      (* isinstance(x, float) *)
  py_sub : pyobj -> pyobj -> raised pyobj;       (* x - y *)
  py_abs : pyobj -> raised pyobj;                (* abs(x) *)
  py_lt : pyobj -> pyobj -> raised pyobj;        (* x < y *)
  py_eq : pyobj -> pyobj -> raised pyobj;        (* x == y *)
  py_bool : bool -> pyobj;                       (* True and False *)
  py_bool_distinct : py_bool true <> py_bool false;
  tolerance : pyobj;                             (* 1e-9 *)
  obj_str : pyobj -> string;                     (* the text of a value *)
  (* str(x) as a call: it returns the text of the value or raises, as it
     does for an int of more digits than the limit *)
  py_format : pyobj -> raised string;
  py_format_text : forall x text, py_format x = Returns text -> text = obj_str x;
  (* a call of [CalculatorTool.execute] whose keyword arguments are not a
     single string [expression]: binding the arguments or [eval] raises,
     in the interpreter's words *)
  calculator_misuse : dict json -> string * string
}.

Definition calculator_name : string := "calculator".

Definition calculator_description : string :=
  "Evaluates a mathematical expression and returns the result. "
  ++ "Supports basic operations (+, -, *, /, **), parentheses, and numbers. "
  ++ "Example: calculator(expression='2 + 2 * 3')".

(** [CalculatorTool.execute]: [eval] inside [try], with the handler of
    [except Exception]. *)
Definition CalculatorTool_execute `{Evaluator} (expression : string) : raised pyobj :=
  match py_eval expression with
  | Returns result => Returns result
  | Raises _ msg => Raises "ValueError" ("Invalid expression: " ++ msg)
  | Aborts cls msg => Aborts cls msg
  end.

(** The calculator as a registered tool: the call, then the rendering of
    the result by [Agent.run]. *)
Definition CalculatorTool `{Evaluator} : Tool :=
  {| name := calculator_name;
     description := calculator_description;
     execute := fun kwargs =>
       match kwargs with
       | [(key, JStr expression)] =>
         if key =? "expression" then
           match CalculatorTool_execute expression with
           | Returns result => py_format result
           | Raises cls msg => Raises cls msg
           | Aborts cls msg => Aborts cls msg
           end
         else Raises (fst (calculator_misuse kwargs)) (snd (calculator_misuse kwargs))
       | _ => Raises (fst (calculator_misuse kwargs)) (snd (calculator_misuse kwargs))
       end |}.

(** [VerifyCalculationTool.execute]: the body of [try], then the handler
    of [except Exception].  The body returns what the comparison
    returns. *)
Definition verify_body `{Evaluator} (expression : string) (expected : pyobj)
  : raised pyobj :=
  match CalculatorTool_execute expression with
  | Raises cls msg => Raises cls msg
  | Aborts cls msg => Aborts cls msg
  | Returns actual =>
    if is_float actual || is_float expected then
      match py_sub actual expected with
      | Raises cls msg => Raises cls msg
      | Aborts cls msg => Aborts cls msg
      | Returns difference =>
        match py_abs difference with
        | Raises cls msg => Raises cls msg
        | Aborts cls msg => Aborts cls msg
        | Returns magnitude => py_lt magnitude tolerance
        end
      end
    else py_eq actual expected
  end.

Definition VerifyCalculationTool_execute `{Evaluator} (expression : string)
    (expected : pyobj) : raised pyobj :=
  match verify_body expression expected with
  | Returns verdict => Returns verdict
  | Raises _ _ => Returns (py_bool false)
  | Aborts cls msg => Aborts cls msg
  end.

(** ** The parser as the specification words it

    Take the substring from the first opening brace to the last closing
    brace and try to decode it; if no such substring parses, try to decode
    the entire text; fail if neither succeeds.  [attempt] is the attempt to
    decode a text as the action schema. *)

Definition spec_parse_action (attempt : string -> option json) (text : string)
  : outcome json :=
  let from_substring :=
    match re_search_braces text with
    | Some candidate => attempt candidate
    | None => None
    end in
  match from_substring with
  | Some action => Ok action
  | None =>
    match attempt text with
    | Some action => Ok action
    | None => Raise JSONDecodeError
    end
  end.

(** The decoded schema of the specification: an object with a string
    [final_answer], or with a string [tool] and, if present, a mapping
    [arguments]. *)
Definition is_action_schema (v : json) : bool :=
  match v with
  | JObj d =>
    match dict_get "final_answer" d with
    | Some (JStr _) => true
    | Some _ => false
    | None =>
      match dict_get "tool" d, dict_get "arguments" d with
      | Some (JStr _), None => true
      | Some (JStr _), Some (JObj _) => true
      | _, _ => false
      end
    end
  | _ => false
  end.

Definition decode_action_schema `{Interpreter} (text : string) : option json :=
  match json_loads text with
  | Ok v => if is_action_schema v then Some v else None
  | Raise _ => None
  end.

(** ** Vocabulary of the statements *)

Definition system (text : string) : message := {| role := "system"; content := text |}.
Definition user (text : string) : message := {| role := "user"; content := text |}.
Definition assistant (text : string) : message := {| role := "assistant"; content := text |}.

Definition corrective : message := user "Please respond with a valid JSON object.".

(** The state after one more call to [generate] that left the provider in
    state [b]: the reply and the messages [added] after it. *)
Definition after_call {B} (st : run_state B) (b : B) (response : string)
    (added : list message) : run_state B :=
  {| messages := messages st ++ assistant response :: added;
     backend := b;
     generate_calls := generate_calls st ++ [messages st];
     execute_calls := execute_calls st |}.

(** The state after one more call to [execute]. *)
Definition after_execute {B} (st : run_state B) (tool_name : string)
    (kwargs : dict json) : run_state B :=
  {| messages := messages st;
     backend := backend st;
     generate_calls := generate_calls st;
     execute_calls := execute_calls st ++ [(tool_name, kwargs)] |}.

(** A text that a JSON string holds as it is: no double quote, no
    backslash, no control character. *)
Fixpoint plain_text (s : string) : bool :=
  match s with
  | "" => true
  | String c r =>
    negb (c =? dq)%char && negb (c =? "\")%char && negb (N_of_ascii c <? 32)%N
    && plain_text r
  end.

(** The decoded values on which [in] raises: [None], booleans and
    numbers. *)
Definition not_a_container (v : json) : bool :=
  match v with
  | JNull | JBool _ | JInt _ | JFloat _ => true
  | JStr _ | JList _ | JObj _ => false
  end.

(** [c] does not occur in [s]. *)
Fixpoint lacks (c : ascii) (s : string) : bool :=
  match s with
  | "" => true
  | String a r => negb (a =? c)%char && lacks c r
  end.

(** The provider answers every call, whatever its state and the
    conversation, with a text that [_parse_action] rejects. *)
Definition always_malformed `{Interpreter} {B} (llm : LLMProvider B) : Prop :=
  forall b msgs, exists response b',
    generate llm b msgs = (Ok response, b')
    /\ _parse_action response = Raise JSONDecodeError.

(** From state [b] the provider answers with a valid final answer. *)
Definition gives_final_answer `{Interpreter} {B} (llm : LLMProvider B)
    (response : string) (answer : json) (b b' : B) : Prop :=
  (forall msgs, generate llm b msgs = (Ok response, b'))
  /\ exists d, _parse_action response = Ok (JObj d)
               /\ dict_get "final_answer" d = Some answer.

(** From state [b], on the conversation [conversation], the provider
    answers the calls of a run with the texts [replies], each rejected by
    [_parse_action], and is then in state [b']: the first call is given
    [conversation], and every later one the conversation of the call
    before with the reply and the corrective message appended. *)
Fixpoint malformed_replies `{Interpreter} {B} (llm : LLMProvider B)
    (conversation : list message) (replies : list string) (b b' : B) : Prop :=
  match replies with
  | [] => b = b'
  | response :: rest =>
    exists b1,
      generate llm b conversation = (Ok response, b1)
      /\ _parse_action response = Raise JSONDecodeError
      /\ malformed_replies llm
           (conversation ++ [assistant response; corrective]) rest b1 b'
  end.

(** The conversation after the replies [replies], each followed by the
    corrective message. *)
Definition corrected_conversation (start : list message) (replies : list string)
  : list message :=
  start ++ flat_map (fun response => [assistant response; corrective]) replies.

(** The keyword arguments of a tool invocation: the [arguments] member
    when it is an object, no argument when it is absent. *)
Definition kwargs_of (d : dict json) : option (dict json) :=
  match dict_get "arguments" d with
  | None => Some []
  | Some (JObj kwargs) => Some kwargs
  | Some _ => None
  end.

(** The corrective messages of a conversation. *)
Definition is_corrective (m : message) : bool :=
  (role m =? "user") && (content m =? "Please respond with a valid JSON object.").

Definition count_corrective (conversation : list message) : nat :=
  List.length (filter is_corrective conversation).

(** What the [k]-th call of a run of malformed replies is given, for
    [k] from 0 to [n - 1]. *)
Definition corrected_calls (start : list message) (replies : list string)
    (n : nat) : list (list message) :=
  map (fun k => corrected_conversation start (firstn k replies)) (seq 0 n).

(** ** Sample instances *)

(** A provider that replays a script, one reply per call. *)
Definition scripted : LLMProvider (list string) :=
  {| generate := fun script _ =>
       match script with
       | reply :: rest => (Ok reply, rest)
       | [] => (Raise (OtherException "IndexError" "pop from empty list"), [])
       end |}.

(** A provider that gives the same reply to every call. *)
Definition constant (reply : string) : LLMProvider unit :=
  {| generate := fun _ _ => (Ok reply, tt) |}.

(** An interpreter with the limits of a default CPython: integers of
    4300 digits, and some thousand containers in each other. *)
Definition sample_interpreter : Interpreter :=
  {| py_repr := fun _ => "<repr>";
     kwargs_error := fun _ _ => "argument after ** must be a mapping";
     int_max_str_digits := 4300;
     digits_error := fun digits =>
       "Exceeds the limit (4300 digits) for integer string conversion: value has "
       ++ str_of_int (Z.of_nat digits)
       ++ " digits; use sys.set_int_max_str_digits() to increase the limit";
     json_nesting := 990;
     recursion_error := fun opening =>
       "maximum recursion depth exceeded while decoding a JSON "
       ++ (if (opening =? "{")%char then "object" else "array")
       ++ " from a unicode string" |}.

(** An expression that raises [BaseException]: the class is found among
    the subclasses of [object] and thrown into a generator. *)
Definition throwing_expression : string :=
  "(_ for _ in ()).throw([c for c in ().__class__.__base__.__subclasses__() "
  ++ "if c.__name__ == 'BaseException'][0])".

(** An evaluator on integers, with 1 and 0 for the booleans, that knows
    one sum, one power, one expression that raises outside [Exception],
    and rejects the rest.  An integer of more than 4300 digits is not
    converted to text. *)
Definition sample_bool (b : bool) : Z := if b then 1%Z else 0%Z.

Definition sample_format (x : Z) : raised string :=
  if Nat.leb (String.length (str_of_int (Z.abs x))) 4300
  then Returns (str_of_int x)
  else Raises "ValueError"
         ("Exceeds the limit (4300 digits) for integer string conversion; "
          ++ "use sys.set_int_max_str_digits() to increase the limit").

Definition sample_bool_distinct : sample_bool true <> sample_bool false :=
  fun same =>
    match same in (_ = y) return (match y with 0%Z => False | _ => True end) with
    | eq_refl => I
    end.

Definition sample_format_text (x : Z) (text : string)
    (same : sample_format x = Returns text) : text = str_of_int x :=
  match Nat.leb (String.length (str_of_int (Z.abs x))) 4300 as short
        return ((if short
                 then Returns (str_of_int x)
                 else Raises "ValueError"
                        ("Exceeds the limit (4300 digits) for integer string conversion; "
                         ++ "use sys.set_int_max_str_digits() to increase the limit"))
                = Returns text -> text = str_of_int x) with
  | true => fun returned =>
      match returned in (_ = r)
            return (match r with Returns t => t = str_of_int x | _ => True end) with
      | eq_refl => eq_refl
      end
  | false => fun raised_ =>
      match raised_ in (_ = r)
            return (match r with Returns t => t = str_of_int x | _ => True end) with
      | eq_refl => I
      end
  end same.

Definition sample_evaluator : Evaluator :=
  {| pyobj := Z;
     py_eval := fun expression =>
       if expression =? "2 + 2" then Returns 4%Z
       else if expression =? "10**5000" then Returns (10 ^ 5000)%Z
       else if expression =? throwing_expression then Aborts "BaseException" ""
       else Raises "SyntaxError" "invalid syntax (<string>, line 1)";
     is_float := fun _ => false;
     py_sub := fun x y => Returns (x - y)%Z;
     py_abs := fun x => Returns (Z.abs x);
     py_lt := fun x y => Returns (sample_bool (x <? y)%Z);
     py_eq := fun x y => Returns (sample_bool (x =? y)%Z);
     py_bool := sample_bool;
     py_bool_distinct := sample_bool_distinct;
     tolerance := 0%Z;
     obj_str := str_of_int;
     py_format := sample_format;
     py_format_text := sample_format_text;
     calculator_misuse := fun _ => ("TypeError", "unexpected arguments") |}.

(** A tool that is only described. *)
Definition described (tool_name text : string) : Tool :=
  {| name := tool_name;
     description := text;
     execute := fun _ => Raises "NotImplementedError" "" |}.

Definition sample_tools : list Tool :=
  [@CalculatorTool sample_evaluator; described "notes" "Keeps notes."].

Definition sample_agent : Agent (list string) :=
  Agent_init scripted sample_tools default_max_iterations.

Definition stubborn_agent : Agent unit :=
  Agent_init (constant "not json") sample_tools 3.

Definition final_answer_reply (text : string) : string :=
  "{" ++ quoted "final_answer" ++ ": " ++ quoted text ++ "}".

Definition tool_reply (tool expression : string) : string :=
  "{" ++ quoted "tool" ++ ": " ++ quoted tool ++ ", " ++ quoted "arguments"
  ++ ": {" ++ quoted "expression" ++ ": " ++ quoted expression ++ "}}".

Definition both_fields_reply : string :=
  "{" ++ quoted "tool" ++ ": " ++ quoted "calculator" ++ ", "
  ++ quoted "final_answer" ++ ": " ++ quoted "done" ++ "}".

Definition number_agent : Agent unit :=
  Agent_init (constant "5") sample_tools default_max_iterations.

Definition sample_task : string := "What is 2 + 2?".

(** [run] and its loop for the sample agent, and the state in which the
    sample agent starts on a script. *)
Definition run_sample (script : list string) : outcome json * run_state (list string) :=
  @run sample_interpreter (list string) sample_agent sample_task script.

Definition loop_sample (n : nat) : M (list string) json :=
  @run_loop sample_interpreter (list string) sample_agent n.

Definition start_sample (script : list string) : run_state (list string) :=
  initial_state sample_agent sample_task script.

Definition run_stubborn : outcome json * run_state unit :=
  @run sample_interpreter unit stubborn_agent sample_task tt.

Definition malformed_sample : list string := ["Let me think."; "{oops"].

Definition both_fields_object : dict json :=
  [("tool", JStr "calculator"); ("final_answer", JStr "done")].

Definition search_object : dict json :=
  [("tool", JStr "search"); ("arguments", JObj [("expression", JStr "2 + 2")])].

Definition broken_sum : dict json := [("expression", JStr "2 +")].

Definition broken_sum_object : dict json :=
  [("tool", JStr "calculator"); ("arguments", JObj broken_sum)].

Definition broken_sum_message : string :=
  "Invalid expression: invalid syntax (<string>, line 1)".

(** ** [MathFunctionTool] ([smolagent/calculator_tools.py])

    The functions of the [math] module are the interpreter's: each takes a
    value and returns a value or raises.  [abs] is the builtin, [py_abs]. *)

Class MathModule `{Evaluator} : Type := {
  math_sqrt : pyobj -> raised pyobj;
  math_sin : pyobj -> raised pyobj;
  math_cos : pyobj -> raised pyobj;
  math_tan : pyobj -> raised pyobj;
  math_log : pyobj -> raised pyobj;
  math_log10 : pyobj -> raised pyobj;
  math_exp : pyobj -> raised pyobj;
  math_floor : pyobj -> raised pyobj;
  math_ceil : pyobj -> raised pyobj;
  math_factorial : pyobj -> raised pyobj;
  math_degrees : pyobj -> raised pyobj;
  math_radians : pyobj -> raised pyobj
}.

Definition math_function_name : string := "math_function".

Definition math_function_description : string :=
  "Applies a mathematical function to a number. "
  ++ "Available functions: sqrt, sin, cos, tan, log, log10, exp, "
  ++ "floor, ceil, factorial, degrees, radians. "
  ++ "Example: math_function(function='sqrt', value=16)".

Definition allowed_functions `{MathModule} : dict (pyobj -> raised pyobj) :=
  [ ("sqrt", math_sqrt);
    ("sin", math_sin);
    ("cos", math_cos);
    ("tan", math_tan);
    ("log", math_log);
    ("log10", math_log10);
    ("exp", math_exp);
    ("floor", math_floor);
    ("ceil", math_ceil);
    ("factorial", math_factorial);
    ("degrees", math_degrees);
    ("radians", math_radians);
    ("abs", py_abs) ].

(** [MathFunctionTool.execute]: the membership test, then the body of
    [try] and the handler of [except Exception], which an exception
    outside [Exception] passes. *)
Definition MathFunctionTool_execute `{MathModule} (function : string)
    (value : pyobj) : raised pyobj :=
  if negb (dict_mem function allowed_functions) then
    let available := join ", " (dict_keys allowed_functions) in
    Raises "ValueError"
      ("Unknown function: " ++ function ++ ". Available: " ++ available)
  else
    match
      match dict_get function allowed_functions with
      | Some func => func value
      | None => Raises "KeyError" ("'" ++ function ++ "'")
      end
    with
    | Returns result => Returns result
    | Raises _ msg =>
      Raises "ValueError"
        ("Error applying " ++ function ++ " to " ++ obj_str value ++ ": " ++ msg)
    | Aborts cls msg => Aborts cls msg
    end.

(** ** [OpenRouterProvider] ([agentexp/llm.py])

    [requests.post] is the transport: it returns a response or raises.  A
    response is what [generate] uses of it, the outcome of
    [raise_for_status()] and the outcome of [json()]. *)

Record Response : Type := {
  raise_for_status : outcome unit;
  response_json : outcome json
}.

Class Requests : Type := {
  post : string -> dict string -> json -> Z -> outcome Response
}.

Record OpenRouterProvider : Type := {
  api_key : string;
  model : string;
  base_url : string
}.

Definition default_model : string := "google/gemini-2.0-flash-exp:free".
Definition default_base_url : string := "https://openrouter.ai/api/v1".

Definition missing_api_key : string :=
  "OpenRouter API key must be provided or set in OPENROUTER_API_KEY "
  ++ "environment variable. Get a free key at https://openrouter.ai/".

(** The truth value of an optional string: [None] and the empty string
    are false. *)
Definition truthy (s : option string) : bool :=
  match s with
  | Some (String _ _) => true
  | Some "" | None => false
  end.

(** [OpenRouterProvider.__init__]; [environ] is [os.environ]. *)
Definition OpenRouterProvider_init (environ : dict string)
    (key : option string) (model_name url : string) : raised OpenRouterProvider :=
  let chosen := if truthy key then key else dict_get "OPENROUTER_API_KEY" environ in
  match chosen with
  | Some (String c k) =>
    Returns {| api_key := String c k; model := model_name; base_url := url |}
  | Some "" | None => Raises "ValueError" missing_api_key
  end.

(** A message as the dict it is in the source. *)
Definition message_json (m : message) : json :=
  JObj [("role", JStr (role m)); ("content", JStr (content m))].

Definition request_headers (self : OpenRouterProvider) : dict string :=
  [ ("Authorization", "Bearer " ++ api_key self);
    ("Content-Type", "application/json") ].

(** The dict display of [generate]: four members, then the members of
    [kwargs], each replacing the value of a key that is already there. *)
Definition request_data (self : OpenRouterProvider) (conversation : list message)
    (temperature max_tokens : json) (kwargs : dict json) : dict json :=
  fold_left (fun d member => dict_set (fst member) (snd member) d) kwargs
    [ ("model", JStr (model self));
      ("messages", JList (map message_json conversation));
      ("temperature", temperature);
      ("max_tokens", max_tokens) ].

Definition default_temperature : json := JFloat "0.7".
Definition default_max_tokens : json := JInt 1000.

Definition and_then {A C} (o : outcome A) (k : A -> outcome C) : outcome C :=
  match o with
  | Ok a => k a
  | Raise e => Raise e
  end.

Definition IndexError (msg : string) : exn := OtherException "IndexError" msg.

(** The first character of a text: the bytes of its first code point. *)
Definition first_char (s : string) : string :=
  match s with
  | "" => ""
  | String c _ =>
    let lead := N_of_ascii c in
    let size := (if lead <? 192 then 1 else if lead <? 224 then 2
                 else if lead <? 240 then 3 else 4)%N in
    substring 0 (N.to_nat size) s
  end.

(** [v[0]] *)
Definition py_getitem_0 (v : json) : outcome json :=
  match v with
  | JList [] => Raise (IndexError "list index out of range")
  | JList (first :: _) => Ok first
  | JStr "" => Raise (IndexError "string index out of range")
  | JStr s => Ok (JStr (first_char s))
  | JObj _ => Raise KeyError
  | JNull | JBool _ | JInt _ | JFloat _ => Raise TypeError
  end.

(** [OpenRouterProvider.generate] *)
Definition OpenRouterProvider_generate `{Requests} (self : OpenRouterProvider)
    (conversation : list message) (temperature max_tokens : json)
    (kwargs : dict json) : outcome json :=
  let headers := request_headers self in
  let data := request_data self conversation temperature max_tokens kwargs in
  and_then (post (base_url self ++ "/chat/completions") headers (JObj data) 30)
    (fun response =>
  and_then (raise_for_status response) (fun _ =>
  and_then (response_json response) (fun result =>
  and_then (py_getitem result "choices") (fun choices =>
  and_then (py_getitem_0 choices) (fun choice =>
  and_then (py_getitem choice "message") (fun reply =>
  py_getitem reply "content")))))).

(** ** Further vocabulary *)

(** A text of white space only, the empty text included. *)
Fixpoint only_whitespace (s : string) : bool :=
  match s with
  | "" => true
  | String c r => Json.is_ws c && only_whitespace r
  end.

Definition ends_with_user (conversation : list message) : Prop :=
  exists before text, conversation = (before ++ [user text])%list.

Definition prefix_of (shorter longer : list message) : Prop :=
  exists rest, longer = (shorter ++ rest)%list.

(** The roles of [k] exchanges: a reply of the assistant, then a user
    message. *)
Definition exchanges (k : nat) : list string :=
  concat (repeat ["assistant"; "user"] k).

(** *** What the decoder reads of a text *)

(** [r] is what is left of [s] after a prefix. *)
Definition suffix (r s : string) : Prop := exists c, s = c ++ r.

(** A character that may follow a value inside a container: white space,
    a comma, a closing bracket or a closing brace. *)
Definition is_delimiter (c : ascii) : bool :=
  (Json.is_ws c || (c =? ",") || (c =? "]") || (c =? "}"))%char.

(** Two texts that start with the same delimiter. *)
Definition same_delimiter (rest rest' : string) : Prop :=
  exists x r r', rest = String x r /\ rest' = String x r' /\ is_delimiter x = true.

(** A text whose first character opens a string, an object or an array:
    the value ends with the matching closing character. *)
Definition self_delimiting (s : string) : bool :=
  match s with
  | String c _ => ((c =? dq) || (c =? "{") || (c =? "["))%char
  | "" => false
  end.

Definition ends_with_brace (s : string) : Prop := exists c, s = c ++ "}".

(** What follows the escape of a high surrogate in a string: the escape
    of a low surrogate, a broken escape, or anything else. *)
Inductive surrogate : Type :=
| Pair (low : N) (rest : string)
| Broken
| Lone.

Definition after_high_surrogate (r2 : string) : surrogate :=
  match r2 with
  | String b (String u (String k1 (String k2 (String k3 (String k4 r3))))) =>
    if ((b =? "\") && (u =? "u"))%char then
      match Json.hex4 k1 k2 k3 k4 with
      | None => Broken
      | Some uni2 => if Json.is_low_surrogate uni2 then Pair uni2 r3 else Lone
      end
    else Lone
  | _ => Lone
  end.

(** The attempt to decode a text as a JSON object. *)
Definition decode_object `{Interpreter} (text : string) : option json :=
  match json_loads text with
  | Ok (JObj members) => Some (JObj members)
  | _ => None
  end.

(** An exception of the decoder that is not the decoding error: an
    integer beyond the limit of digits or nesting beyond the limit of
    depth. *)
Definition decoder_limit `{Interpreter} (e : exn) : Prop :=
  (exists digits, 0 < int_max_str_digits < digits
                  /\ e = ValueError (digits_error digits))
  \/ (exists opening, e = RecursionError (recursion_error opening)).

(** An exception outside [Exception] that a registered tool raises. *)
Definition tool_abort {B} (self : Agent B) (e : exn) : Prop :=
  exists tool_name tool kwargs cls msg,
    dict_get tool_name (tools self) = Some tool
    /\ execute tool kwargs = Aborts cls msg
    /\ e = OtherException cls msg.

(** The provider answers every call with a text. *)
Definition always_replies {B} (llm : LLMProvider B) : Prop :=
  forall b msgs, exists response b', generate llm b msgs = (Ok response, b').

(** ** Further samples *)

(** A provider whose transport is down. *)
Definition unreachable : LLMProvider unit :=
  {| generate := fun _ _ => (Raise (OtherException "ConnectionError" "unreachable"), tt) |}.

Definition unreachable_agent : Agent unit :=
  Agent_init unreachable sample_tools default_max_iterations.

Definition idle_agent : Agent (list string) :=
  Agent_init scripted sample_tools 0.

(** Integer stand-ins for the functions of [math]. *)
Definition sample_unsupported (x : Z) : raised Z := Raises "TypeError" "unsupported".

Definition sample_sqrt (x : Z) : raised Z :=
  if (x <? 0)%Z then Raises "ValueError" "math domain error"
  else Returns (Z.sqrt x).

Definition sample_factorial (x : Z) : raised Z :=
  if (x <? 0)%Z then Raises "ValueError" "factorial() not defined for negative values"
  else Returns (Z.of_nat (fact (Z.to_nat x))).

Definition sample_math : @MathModule sample_evaluator :=
  @Build_MathModule sample_evaluator
    sample_sqrt sample_unsupported sample_unsupported sample_unsupported
    sample_unsupported sample_unsupported sample_unsupported
    (fun x : Z => Returns x) (fun x : Z => Returns x)
    sample_factorial sample_unsupported sample_unsupported.

Definition sample_provider : OpenRouterProvider :=
  {| api_key := "test-key"; model := default_model; base_url := default_base_url |}.

Definition sample_conversation : list message := [user "Hello"].

Definition sample_body (text : string) : json :=
  JObj [("choices",
         JList [JObj [("message", JObj [("role", JStr "assistant");
                                        ("content", JStr text)])]])].

(** A transport that answers every request with the same response. *)
Definition answering (response : Response) : Requests :=
  {| post := fun _ _ _ _ => Ok response |}.

Definition ok_response (body : json) : Response :=
  {| raise_for_status := Ok tt; response_json := Ok body |}.

Definition error_response (body : json) : Response :=
  {| raise_for_status := Raise (OtherException "HTTPError" "401 Client Error");
     response_json := Ok body |}.

Definition sum_kwargs : dict json := [("expression", JStr "2 + 2")].

Definition sum_object : dict json :=
  [("tool", JStr "calculator"); ("arguments", JObj sum_kwargs)].

Definition bad_arguments_reply : string :=
  "{" ++ quoted "tool" ++ ": " ++ quoted "calculator" ++ ", "
  ++ quoted "arguments" ++ ": 3}".

Definition bad_arguments_object : dict json :=
  [("tool", JStr "calculator"); ("arguments", JInt 3)].

Definition unreachable_error : exn := OtherException "ConnectionError" "unreachable".

Definition sample_url : string := "https://openrouter.ai/api/v1/chat/completions".

Definition sample_request (kwargs : dict json) : json :=
  JObj (request_data sample_provider sample_conversation default_temperature
          default_max_tokens kwargs).

Definition sample_generate (transport : Requests) : outcome json :=
  @OpenRouterProvider_generate transport sample_provider sample_conversation
    default_temperature default_max_tokens [].

Definition http_error : exn := OtherException "HTTPError" "401 Client Error".

(** A provider that gives its answer only once it has been corrected. *)
Definition reticent : LLMProvider unit :=
  {| generate := fun _ conversation =>
       (Ok (if existsb is_corrective conversation
            then final_answer_reply "4"
            else "Let me think."), tt) |}.

Definition reticent_agent : Agent unit :=
  Agent_init reticent sample_tools default_max_iterations.

Definition run_reticent : outcome json * run_state unit :=
  @run sample_interpreter unit reticent_agent sample_task tt.

(** An object that is no action of the schema. *)
Definition foo_reply : string := "{" ++ quoted "foo" ++ ": 1}".

Definition foo_object : dict json := [("foo", JInt 1)].

(** The request for the calculator on the expression that raises outside
    [Exception]. *)
Definition throwing_kwargs : dict json := [("expression", JStr throwing_expression)].

Definition throwing_script : list string :=
  [tool_reply "calculator" throwing_expression; final_answer_reply "4"].

(** A number of [n] digits, and [n] lists in each other. *)
Fixpoint ones (n : nat) : string :=
  match n with
  | O => ""
  | S n' => String "1" (ones n')
  end.

Fixpoint nested (n : nat) : string :=
  match n with
  | O => ""
  | S n' => "[" ++ nested n' ++ "]"
  end.

(** * Properties *)

(** ** The decoder

    The scanners consume their input, so the fuel that [json_loads] gives
    them is never used up: [None] always stands for a decoding error. *)

Section Decoder.

Import Json.

Lemma skip_ws_length (s : string) : String.length (skip_ws s) <= String.length s.
Proof.
  induction s as [| c s IH]; cbn; [lia |].
  destruct (is_ws c); cbn; lia.
Qed.

Lemma prepend_some (p : string) (r : option (string * string)) x rest :
  prepend p r = Some (x, rest) -> exists y, r = Some (y, rest).
Proof.
  destruct r as [[y rest'] |]; cbn; [| discriminate].
  intros [= _ <-]. now exists y.
Qed.

Lemma scanstring_shorter (n : nat) :
  forall s x rest,
    String.length s <= n ->
    scanstring s = Some (x, rest) ->
    String.length rest < String.length s.
Proof.
  induction n as [| n IH]; intros s x rest Hn Hs.
  - destruct s; cbn [String.length] in *; [discriminate | lia].
  - destruct s as [| c s]; [discriminate |].
    cbn [scanstring] in Hs. cbn [String.length] in *.
    destruct (c =? dq)%char.
    { injection Hs as _ <-. lia. }
    destruct (c =? "\")%char.
    2:{ destruct (N_of_ascii c <? 32)%N; [discriminate |].
        apply prepend_some in Hs as [y Hs]. apply IH in Hs; lia. }
    destruct s as [| e s]; [discriminate |].
    destruct (e =? "u")%char.
    2:{ destruct (unescape e); [| discriminate].
        apply prepend_some in Hs as [y Hs]. apply IH in Hs; cbn [String.length] in *; lia. }
    destruct s as [| h1 [| h2 [| h3 [| h4 s]]]]; try discriminate.
    destruct (hex4 h1 h2 h3 h4) as [uni |]; [| discriminate].
    assert (Hlone : forall p, prepend p (scanstring s) = Some (x, rest) ->
                              String.length rest < S (S (S (S (S (S (String.length s))))))).
    { intros p Hp. apply prepend_some in Hp as [y Hp].
      apply IH in Hp; cbn [String.length] in *; lia. }
    destruct (is_high_surrogate uni); [| now apply Hlone in Hs].
    destruct s as [| b [| u [| k1 [| k2 [| k3 [| k4 s]]]]]];
      try (now apply Hlone in Hs).
    destruct ((b =? "\") && (u =? "u"))%char; [| now apply Hlone in Hs].
    destruct (hex4 k1 k2 k3 k4) as [uni2 |]; [| discriminate].
    destruct (is_low_surrogate uni2); [| now apply Hlone in Hs].
    apply prepend_some in Hs as [y Hs]. apply IH in Hs; cbn [String.length] in *; lia.
Qed.

Lemma take_digits_length (s : string) :
  String.length (snd (take_digits s)) <= String.length s.
Proof.
  induction s as [| c s IH]; cbn; [lia |].
  destruct (is_digit c); cbn; [| lia].
  destruct (take_digits s); cbn in *; lia.
Qed.

Lemma match_number_shorter (s : string) v rest :
  match_number s = Some (v, rest) -> String.length rest < String.length s.
Proof.
  unfold match_number.
  set (signed := match s with
                 | String c r => if (c =? "-")%char then ("-", r) else ("", s)
                 | "" => ("", s)
                 end).
  assert (Hsigned : String.length (snd signed) <= String.length s).
  { subst signed. destruct s as [| c r]; cbn; [lia |].
    destruct (c =? "-")%char; cbn; lia. }
  destruct signed as [sign s1]. cbn [snd] in Hsigned.
  destruct s1 as [| c r]; [discriminate |].
  destruct (is_digit c); [| discriminate].
  set (whole := if (c =? "0")%char then ("0", r)
                else let '(ds, r') := take_digits r in (String c ds, r')).
  assert (Hwhole : String.length (snd whole) <= String.length r).
  { subst whole. destruct (c =? "0")%char; cbn; [lia |].
    pose proof (take_digits_length r). destruct (take_digits r); cbn in *; lia. }
  destruct whole as [integer s2]. cbn [snd] in Hwhole.
  set (fraction := match s2 with
                   | String p r2 =>
                     if (p =? ".")%char then
                       match take_digits r2 with
                       | ("", _) => ("", s2)
                       | (ds, r3) => (String p ds, r3)
                       end
                     else ("", s2)
                   | "" => ("", s2)
                   end).
  assert (Hfraction : String.length (snd fraction) <= String.length s2).
  { subst fraction. destruct s2 as [| p r2]; cbn; [lia |].
    destruct (p =? ".")%char; cbn; [| lia].
    pose proof (take_digits_length r2).
    destruct (take_digits r2) as [[| d ds] r3]; cbn in *; lia. }
  destruct fraction as [frac s3]. cbn [snd] in Hfraction.
  set (exponent := match s3 with
                   | String e r3 =>
                     if ((e =? "e") || (e =? "E"))%char then
                       let '(sg, r4) :=
                         match r3 with
                         | String g r' =>
                           if ((g =? "-") || (g =? "+"))%char then (chr g, r') else ("", r3)
                         | "" => ("", r3)
                         end in
                       match take_digits r4 with
                       | ("", _) => ("", s3)
                       | (ds, r5) => (String e (sg ++ ds), r5)
                       end
                     else ("", s3)
                   | "" => ("", s3)
                   end).
  assert (Hexponent : String.length (snd exponent) <= String.length s3).
  { subst exponent. destruct s3 as [| e r3]; cbn; [lia |].
    destruct ((e =? "e") || (e =? "E"))%char; cbn; [| lia].
    set (signed_exp := match r3 with
                       | String g r' =>
                         if ((g =? "-") || (g =? "+"))%char then (chr g, r') else ("", r3)
                       | "" => ("", r3)
                       end).
    assert (Hse : String.length (snd signed_exp) <= String.length r3).
    { subst signed_exp. destruct r3 as [| g r']; cbn; [lia |].
      destruct ((g =? "-") || (g =? "+"))%char; cbn; lia. }
    destruct signed_exp as [sg r4]. cbn [snd] in Hse.
    pose proof (take_digits_length r4).
    destruct (take_digits r4) as [[| d ds] r5]; cbn in *; lia. }
  destruct exponent as [exp s4]. cbn [snd] in Hexponent.
  cbn [String.length] in Hsigned.
  destruct frac, exp; intros [= _ <-]; lia.
Qed.

Lemma strip_prefix_length (p s rest : string) :
  strip_prefix p s = Some rest ->
  String.length s = String.length p + String.length rest.
Proof.
  revert s. induction p as [| a p IH]; intros [| b s]; cbn; try discriminate.
  - now intros [= <-].
  - now intros [= <-].
  - destruct (a =? b)%char; [| discriminate]. intros Hs. apply IH in Hs. lia.
Qed.

Lemma literal_shorter (word : string) (v v' : json) (s rest : string) :
  0 < String.length word ->
  literal word v s = Some (v', rest) -> String.length rest < String.length s.
Proof.
  intros Hword. unfold literal.
  destruct (strip_prefix word s) as [rest' |] eqn:Hs; [| discriminate].
  intros [= _ <-]. apply strip_prefix_length in Hs. lia.
Qed.

Lemma scalar_shorter (s : string) v rest :
  first_of [ literal "null" JNull s;
             literal "true" (JBool true) s;
             literal "false" (JBool false) s;
             match_number s;
             literal "NaN" (JFloat "NaN") s;
             literal "Infinity" (JFloat "Infinity") s;
             literal "-Infinity" (JFloat "-Infinity") s ] = Some (v, rest) ->
  String.length rest < String.length s.
Proof.
  cbn [first_of fold_right].
  repeat match goal with
    | |- context [match ?o with Some _ => _ | None => _ end] =>
        let Ho := fresh "Ho" in
        destruct o as [[? ?] |] eqn:Ho;
        [ intros [= <- <-];
          first [ apply match_number_shorter in Ho; exact Ho
                | apply literal_shorter in Ho; [exact Ho | cbn; lia] ]
        | ]
    end.
  discriminate.
Qed.

(** A scanned value leaves strictly less input. *)
Lemma scan_shorter (max_digits fuel : nat) :
  (forall depth s v rest,
      scan_once max_digits fuel depth s = Scanned v rest ->
      String.length rest < String.length s)
  /\ (forall depth s acc v rest,
         array_items max_digits fuel depth s acc = Scanned v rest ->
         String.length rest < String.length s)
  /\ (forall depth s acc v rest,
         object_members max_digits fuel depth s acc = Scanned v rest ->
         String.length rest < String.length s).
Proof.
  induction fuel as [| fuel (IHv & IHa & IHo)]; [repeat split; discriminate |].
  split; [| split].
  - intros depth [| c r] v rest; cbn [scan_once]; [discriminate |].
    destruct (c =? dq)%char.
    { destruct (scanstring r) as [[x rest'] |] eqn:Hs; [| discriminate].
      intros [= _ <-]. apply (scanstring_shorter _ _ _ _ (le_n _)) in Hs. cbn. lia. }
    pose proof (skip_ws_length r) as Hws.
    destruct (c =? "{")%char.
    { destruct depth as [| depth]; [discriminate |].
      destruct (skip_ws r) as [| c' r']; [discriminate |].
      destruct (c' =? "}")%char.
      - intros [= _ <-]. cbn in *. lia.
      - intros Ho. apply IHo in Ho. cbn in *. lia. }
    destruct (c =? "[")%char.
    { destruct depth as [| depth]; [discriminate |].
      destruct (skip_ws r) as [| c' r']; [discriminate |].
      destruct (c' =? "]")%char.
      - intros [= _ <-]. cbn in *. lia.
      - intros Ha. apply IHa in Ha. cbn in *. lia. }
    destruct (first_of _) as [[v' rest'] |] eqn:Hscalar; [| discriminate].
    apply scalar_shorter in Hscalar.
    destruct v'; try (intros [= _ <-]; exact Hscalar).
    destruct (too_many_digits _ _); [discriminate |].
    intros [= _ <-]. exact Hscalar.
  - intros depth s acc v rest. cbn [array_items].
    destruct (scan_once max_digits fuel depth s) as [v' r | | |] eqn:Hv;
      try discriminate.
    apply IHv in Hv. pose proof (skip_ws_length r) as Hws.
    destruct (skip_ws r) as [| c r']; [discriminate |].
    destruct (c =? "]")%char.
    { intros [= _ <-]. cbn in *. lia. }
    destruct (c =? ",")%char; [| discriminate].
    intros Ha. apply IHa in Ha. pose proof (skip_ws_length r'). cbn in *. lia.
  - intros depth [| q r] acc v rest; cbn [object_members]; [discriminate |].
    destruct (q =? dq)%char; [| discriminate].
    destruct (scanstring r) as [[key r1] |] eqn:Hkey; [| discriminate].
    apply (scanstring_shorter _ _ _ _ (le_n _)) in Hkey.
    pose proof (skip_ws_length r1) as Hws1.
    destruct (skip_ws r1) as [| c r2]; [discriminate |].
    destruct (c =? ":")%char; [| discriminate].
    pose proof (skip_ws_length r2) as Hws2.
    destruct (scan_once max_digits fuel depth (skip_ws r2)) as [v' r3 | | |] eqn:Hv;
      try discriminate.
    apply IHv in Hv. pose proof (skip_ws_length r3) as Hws3.
    destruct (skip_ws r3) as [| c' r4]; [discriminate |].
    destruct (c' =? "}")%char.
    { intros [= _ <-]. cbn in *. lia. }
    destruct (c' =? ",")%char; [| discriminate].
    intros Ho. apply IHo in Ho. pose proof (skip_ws_length r4). cbn in *. lia.
Qed.

(** Twice the length of the input, and a little, is enough fuel. *)
Lemma scan_fuel (max_digits fuel : nat) :
  (forall depth s, 2 * String.length s + 1 <= fuel ->
                   scan_once max_digits fuel depth s <> Exhausted)
  /\ (forall depth s acc, 2 * String.length s + 2 <= fuel ->
                          array_items max_digits fuel depth s acc <> Exhausted)
  /\ (forall depth s acc, 2 * String.length s + 2 <= fuel ->
                          object_members max_digits fuel depth s acc <> Exhausted).
Proof.
  induction fuel as [| fuel (IHv & IHa & IHo)]; [repeat split; intros; lia |].
  split; [| split].
  - intros depth [| c r] Hfuel; cbn [scan_once]; [discriminate |].
    cbn [String.length] in Hfuel.
    destruct (c =? dq)%char.
    { destruct (scanstring r) as [[x rest'] |]; discriminate. }
    pose proof (skip_ws_length r) as Hws.
    destruct (c =? "{")%char.
    { destruct depth as [| depth]; [discriminate |].
      destruct (skip_ws r) as [| c' r']; [discriminate |].
      destruct (c' =? "}")%char; [discriminate |].
      apply IHo. cbn in *. lia. }
    destruct (c =? "[")%char.
    { destruct depth as [| depth]; [discriminate |].
      destruct (skip_ws r) as [| c' r']; [discriminate |].
      destruct (c' =? "]")%char; [discriminate |].
      apply IHa. cbn in *. lia. }
    destruct (first_of _) as [[v' rest'] |]; [| discriminate].
    destruct v'; try discriminate.
    destruct (too_many_digits _ _); discriminate.
  - intros depth s acc Hfuel. cbn [array_items].
    destruct (scan_once max_digits fuel depth s) as [v r | | |] eqn:Hv;
      [| discriminate | | discriminate].
    + apply (proj1 (scan_shorter max_digits fuel)) in Hv.
      pose proof (skip_ws_length r) as Hws.
      destruct (skip_ws r) as [| c r']; [discriminate |].
      destruct (c =? "]")%char; [discriminate |].
      destruct (c =? ",")%char; [| discriminate].
      apply IHa. pose proof (skip_ws_length r'). cbn in *. lia.
    + exfalso. revert Hv. apply IHv. lia.
  - intros depth [| q r] acc Hfuel; cbn [object_members]; [discriminate |].
    cbn [String.length] in Hfuel.
    destruct (q =? dq)%char; [| discriminate].
    destruct (scanstring r) as [[key r1] |] eqn:Hkey; [| discriminate].
    apply (scanstring_shorter _ _ _ _ (le_n _)) in Hkey.
    pose proof (skip_ws_length r1) as Hws1.
    destruct (skip_ws r1) as [| c r2]; [discriminate |].
    destruct (c =? ":")%char; [| discriminate].
    pose proof (skip_ws_length r2) as Hws2.
    destruct (scan_once max_digits fuel depth (skip_ws r2)) as [v r3 | | |] eqn:Hv;
      [| discriminate | | discriminate].
    + apply (proj1 (scan_shorter max_digits fuel)) in Hv.
      pose proof (skip_ws_length r3) as Hws3.
      destruct (skip_ws r3) as [| c' r4]; [discriminate |].
      destruct (c' =? "}")%char; [discriminate |].
      destruct (c' =? ",")%char; [| discriminate].
      apply IHo. pose proof (skip_ws_length r4). cbn in *. lia.
    + exfalso. revert Hv. apply IHv. cbn in *. lia.
Qed.

(** [json_loads] never runs out of fuel. *)
Lemma json_loads_fuel (max_digits depth : nat) (s : string) :
  decode max_digits (2 * String.length s + 2) depth s <> Exhausted.
Proof.
  unfold decode.
  destruct (scan_once _ _ _ (skip_ws s)) as [v rest | | |] eqn:Hv.
  - destruct (skip_ws rest); discriminate.
  - discriminate.
  - exfalso. revert Hv. apply (proj1 (scan_fuel _ _)).
    pose proof (skip_ws_length s). lia.
  - discriminate.
Qed.

(** A limit is reached by an integer that is too long, or by a container
    when no depth is left. *)
Lemma too_many_digits_spec (max_digits digits : nat) :
  too_many_digits max_digits digits = true <-> 0 < max_digits < digits.
Proof.
  unfold too_many_digits.
  rewrite andb_true_iff, negb_true_iff, Nat.eqb_neq, Nat.ltb_lt. lia.
Qed.

Lemma scan_digits (max_digits fuel : nat) :
  (forall depth s digits,
      scan_once max_digits fuel depth s = Beyond (TooManyDigits digits) ->
      0 < max_digits < digits)
  /\ (forall depth s acc digits,
         array_items max_digits fuel depth s acc = Beyond (TooManyDigits digits) ->
         0 < max_digits < digits)
  /\ (forall depth s acc digits,
         object_members max_digits fuel depth s acc = Beyond (TooManyDigits digits) ->
         0 < max_digits < digits).
Proof.
  induction fuel as [| fuel (IHv & IHa & IHo)]; [repeat split; discriminate |].
  split; [| split].
  - intros depth [| c r] digits; cbn [scan_once]; [discriminate |].
    destruct (c =? dq)%char.
    { destruct (scanstring r) as [[x rest'] |]; discriminate. }
    destruct (c =? "{")%char.
    { destruct depth as [| depth]; [discriminate |].
      destruct (skip_ws r) as [| c' r']; [discriminate |].
      destruct (c' =? "}")%char; [discriminate | apply IHo]. }
    destruct (c =? "[")%char.
    { destruct depth as [| depth]; [discriminate |].
      destruct (skip_ws r) as [| c' r']; [discriminate |].
      destruct (c' =? "]")%char; [discriminate | apply IHa]. }
    destruct (first_of _) as [[v' rest'] |]; [| discriminate].
    destruct v'; try discriminate.
    destruct (too_many_digits _ _) eqn:Hmany; [| discriminate].
    intros [= <-]. now apply too_many_digits_spec.
  - intros depth s acc digits. cbn [array_items].
    destruct (scan_once max_digits fuel depth s) as [v r | | | l] eqn:Hv;
      try discriminate.
    + destruct (skip_ws r) as [| c r']; [discriminate |].
      destruct (c =? "]")%char; [discriminate |].
      destruct (c =? ",")%char; [apply IHa | discriminate].
    + intros [= ->]. now apply IHv in Hv.
  - intros depth [| q r] acc digits; cbn [object_members]; [discriminate |].
    destruct (q =? dq)%char; [| discriminate].
    destruct (scanstring r) as [[key r1] |]; [| discriminate].
    destruct (skip_ws r1) as [| c r2]; [discriminate |].
    destruct (c =? ":")%char; [| discriminate].
    destruct (scan_once max_digits fuel depth (skip_ws r2)) as [v r3 | | | l] eqn:Hv;
      try discriminate.
    + destruct (skip_ws r3) as [| c' r4]; [discriminate |].
      destruct (c' =? "}")%char; [discriminate |].
      destruct (c' =? ",")%char; [apply IHo | discriminate].
    + intros [= ->]. now apply IHv in Hv.
Qed.

Context `{Interpreter}.

(** What [json.loads] raises: the decoding error, the [ValueError] of an
    integer with more digits than the limit, when there is one, or the
    [RecursionError]. *)
Lemma json_loads_raises (s : string) (e : exn) :
  json_loads s = Raise e ->
  e = JSONDecodeError
  \/ (exists digits, 0 < int_max_str_digits < digits
                     /\ e = ValueError (digits_error digits))
  \/ (exists opening, e = RecursionError (recursion_error opening)).
Proof.
  unfold json_loads, decode.
  destruct (scan_once _ _ _ (skip_ws s)) as [v rest | | | [digits | opening]] eqn:Hv.
  - destruct (skip_ws rest); [discriminate | intros [= <-]; now left].
  - intros [= <-]. now left.
  - intros [= <-]. now left.
  - intros [= <-]. right. left. exists digits. split; [| reflexivity].
    now apply (proj1 (scan_digits _ _)) in Hv.
  - intros [= <-]. right. right. now exists opening.
Qed.

(** The decoding error stands for a malformed text. *)
Lemma json_loads_malformed (s : string) :
  json_loads s = Raise JSONDecodeError
  <-> decode int_max_str_digits (2 * String.length s + 2) (S json_nesting) s = Invalid.
Proof.
  unfold json_loads.
  pose proof (json_loads_fuel int_max_str_digits (S json_nesting) s) as Hfuel.
  destruct (decode _ _ _ s) as [v rest | | | [digits | opening]]; split;
    (congruence || discriminate).
Qed.

End Decoder.

(** ** The action parser *)

Section Parser.

Context `{Interpreter}.

Lemma str_app_assoc (s t u : string) : s ++ t ++ u = (s ++ t) ++ u.
Proof. induction s as [| a s IH]; cbn; [reflexivity | now rewrite IH]. Qed.

Lemma lacks_app (c : ascii) (s t : string) :
  lacks c (s ++ t) = lacks c s && lacks c t.
Proof.
  induction s as [| a s IH]; cbn; [reflexivity |].
  now rewrite IH, andb_assoc.
Qed.

Lemma upto_last_none (c : ascii) (s : string) :
  upto_last c s = None <-> lacks c s = true.
Proof.
  induction s as [| a s IH]; cbn; [tauto |].
  destruct (upto_last c s) as [p |].
  - split; [discriminate |]. intros Hlacks.
    apply andb_true_iff in Hlacks as [_ Hlacks].
    apply IH in Hlacks. discriminate.
  - destruct (a =? c)%char; cbn; [split; discriminate |].
    split; intros _; [now apply IH | reflexivity].
Qed.

(** The longest prefix ending with [c] stops at the last [c]. *)
Lemma upto_last_app (c : ascii) (mid post : string) :
  lacks c post = true ->
  upto_last c (mid ++ String c post) = Some (mid ++ chr c).
Proof.
  intros Hpost. induction mid as [| a mid IH]; cbn.
  - apply upto_last_none in Hpost. rewrite Hpost, Ascii.eqb_refl. reflexivity.
  - now rewrite IH.
Qed.

Lemma upto_last_some (c : ascii) (s p : string) :
  upto_last c s = Some p ->
  exists mid post, s = mid ++ String c post /\ lacks c post = true /\ p = mid ++ chr c.
Proof.
  revert p. induction s as [| a s IH]; cbn; intros p Hp; [discriminate |].
  destruct (upto_last c s) as [q |] eqn:Hq.
  - injection Hp as <-. destruct (IH q eq_refl) as (mid & post & -> & Hpost & ->).
    exists (String a mid), post. auto.
  - destruct (Ascii.eqb_spec a c) as [-> | _]; [| discriminate].
    injection Hp as <-. exists "", s. apply upto_last_none in Hq. auto.
Qed.

(** The match starts at the first opening brace and ends at the last
    closing brace. *)
Lemma re_search_braces_app (pre mid post : string) :
  lacks "{" pre = true ->
  lacks "}" post = true ->
  re_search_braces (pre ++ String "{" (mid ++ String "}" post))
  = Some (String "{" (mid ++ chr "}")).
Proof.
  intros Hpre Hpost. induction pre as [| a pre IH]; cbn.
  - now rewrite upto_last_app.
  - cbn in Hpre. apply andb_true_iff in Hpre as [Ha Hpre].
    apply negb_true_iff in Ha. rewrite Ha. now apply IH.
Qed.

Lemma lacks_occurrence (c : ascii) (s t : string) :
  lacks c (s ++ String c t) = false.
Proof.
  rewrite lacks_app. cbn. rewrite Ascii.eqb_refl. cbn. apply andb_false_r.
Qed.

Lemma re_search_braces_some (text m : string) :
  re_search_braces text = Some m ->
  exists pre mid post,
    text = pre ++ String "{" (mid ++ String "}" post)
    /\ lacks "{" pre = true
    /\ lacks "}" post = true
    /\ m = String "{" (mid ++ chr "}").
Proof.
  induction text as [| a text IH]; cbn; [discriminate |].
  destruct (Ascii.eqb_spec a "{") as [-> | Ha].
  - destruct (upto_last "}" text) as [p |] eqn:Hp.
    + intros [= <-]. apply upto_last_some in Hp as (mid & post & -> & Hpost & ->).
      exists "", mid, post. auto.
    + intros Hm. destruct (IH Hm) as (pre & mid & post & -> & _).
      apply upto_last_none in Hp.
      change (pre ++ String "{" (mid ++ String "}" post))
        with (pre ++ (String "{" mid) ++ String "}" post) in Hp.
      rewrite str_app_assoc, lacks_occurrence in Hp. discriminate.
  - intros Hm. destruct (IH Hm) as (pre & mid & post & -> & Hpre & Hpost & ->).
    exists (String a pre), mid, post. cbn.
    apply Ascii.eqb_neq in Ha. rewrite Ha. auto.
Qed.

End Parser.

(** ** What the decoder reads

    The scanner reads a value up to its last character and looks at
    nothing after it, except that a number or a literal ends where a
    delimiter follows.  So a text that decodes to an object is that object
    between white space. *)

Section Truncation.

Import Json.

Lemma str_length_app (s t : string) :
  String.length (s ++ t) = String.length s + String.length t.
Proof. induction s as [| a s IH]; cbn; [reflexivity | now rewrite IH]. Qed.

Lemma str_app_nil_r (s : string) : s ++ "" = s.
Proof. induction s as [| a s IH]; cbn; [reflexivity | now rewrite IH]. Qed.

Lemma str_app_empty (c rest : string) : c ++ rest = rest -> c = "".
Proof.
  intros Hsame. apply (f_equal String.length) in Hsame.
  rewrite str_length_app in Hsame. destruct c; [reflexivity | cbn in Hsame; lia].
Qed.

Lemma take_digits_delimited (u : string) (x : ascii) (t : string) :
  is_digit x = false ->
  take_digits (u ++ String x t)
  = (fst (take_digits u), snd (take_digits u) ++ String x t).
Proof.
  intros Hx. induction u as [| c u IH]; cbn.
  - now rewrite Hx.
  - destruct (is_digit c); [| reflexivity].
    rewrite IH. now destruct (take_digits u).
Qed.

Lemma delimiter_cases (x : ascii) :
  is_delimiter x = true ->
  x = " "%char \/ x = "009"%char \/ x = "010"%char \/ x = "013"%char
  \/ x = ","%char \/ x = "]"%char \/ x = "}"%char.
Proof.
  unfold is_delimiter, is_ws. rewrite !orb_true_iff, !Ascii.eqb_eq. tauto.
Qed.

Lemma strip_prefix_delimited (w u : string) (x : ascii) (t : string) :
  lacks x w = true ->
  strip_prefix w (u ++ String x t)
  = match strip_prefix w u with
    | Some k => Some (k ++ String x t)
    | None => None
    end.
Proof.
  revert u. induction w as [| a w IH]; intros u Hw; cbn.
  - reflexivity.
  - cbn in Hw. apply andb_true_iff in Hw as [Ha Hw]. apply negb_true_iff in Ha.
    destruct u as [| b u]; cbn.
    + now rewrite Ha.
    + destruct (a =? b)%char; [now apply IH | reflexivity].
Qed.

Lemma literal_delimited (w : string) (v : json) (u : string) (x : ascii) (t : string) :
  lacks x w = true ->
  literal w v (u ++ String x t)
  = match literal w v u with
    | Some (v', k) => Some (v', k ++ String x t)
    | None => None
    end.
Proof.
  intros Hw. unfold literal. rewrite strip_prefix_delimited by exact Hw.
  now destruct (strip_prefix w u).
Qed.


Section Delimited.

Variables (x : ascii) (t : string).
Hypothesis Hx : is_delimiter x = true.

Lemma delimiter_no_digit : is_digit x = false.
Proof. apply delimiter_cases in Hx. intuition (subst; reflexivity). Qed.

Lemma delimiter_no_mark (c : ascii) :
  In c ["-"; "+"; "."; "e"; "E"; "0"]%char -> (x =? c)%char = false.
Proof.
  intros Hc. apply delimiter_cases in Hx. cbn in Hc.
  intuition (subst; reflexivity).
Qed.

Ltac marks :=
  rewrite ?delimiter_no_digit,
    ?(delimiter_no_mark "-"%char), ?(delimiter_no_mark "+"%char),
    ?(delimiter_no_mark "."%char), ?(delimiter_no_mark "e"%char),
    ?(delimiter_no_mark "E"%char), ?(delimiter_no_mark "0"%char)
    by (cbn; tauto).

(** The exponent and what follows. *)
Lemma exponent_delimited (sign integer frac k : string) :
  (let '(exp, s4) :=
     match k ++ String x t with
     | String e r3 =>
       if ((e =? "e") || (e =? "E"))%char then
         let '(sg, r4) :=
           match r3 with
           | String g r' =>
             if ((g =? "-") || (g =? "+"))%char then (chr g, r') else ("", r3)
           | "" => ("", r3)
           end in
         match take_digits r4 with
         | ("", _) => ("", k ++ String x t)
         | (ds, r5) => (String e (sg ++ ds), r5)
         end
       else ("", k ++ String x t)
     | "" => ("", k ++ String x t)
     end in
   match frac, exp with
   | "", "" =>
     let n := int_of_digits 0 integer in
     Some (JInt (if sign =? "-" then (- n)%Z else n), s4)
   | _, _ => Some (JFloat (sign ++ integer ++ frac ++ exp), s4)
   end)
  = match
      (let '(exp, s4) :=
         match k with
         | String e r3 =>
           if ((e =? "e") || (e =? "E"))%char then
             let '(sg, r4) :=
               match r3 with
               | String g r' =>
                 if ((g =? "-") || (g =? "+"))%char then (chr g, r') else ("", r3)
               | "" => ("", r3)
               end in
             match take_digits r4 with
             | ("", _) => ("", k)
             | (ds, r5) => (String e (sg ++ ds), r5)
             end
           else ("", k)
         | "" => ("", k)
         end in
       match frac, exp with
       | "", "" =>
         let n := int_of_digits 0 integer in
         Some (JInt (if sign =? "-" then (- n)%Z else n), s4)
       | _, _ => Some (JFloat (sign ++ integer ++ frac ++ exp), s4)
       end)
    with
    | Some (v, k') => Some (v, k' ++ String x t)
    | None => None
    end.
Proof.
  destruct k as [| e r3]; cbn [append].
  - marks. cbn. destruct frac; reflexivity.
  - destruct ((e =? "e") || (e =? "E"))%char.
    2:{ destruct frac; reflexivity. }
    destruct r3 as [| g r']; cbn [append].
    + marks. cbn. marks. destruct frac; reflexivity.
    + destruct ((g =? "-") || (g =? "+"))%char.
      * rewrite (take_digits_delimited r' x t delimiter_no_digit).
        destruct (take_digits r') as [[| d ds] r5]; cbn [fst snd];
          destruct frac; reflexivity.
      * change (String g (r' ++ String x t)) with (String g r' ++ String x t).
        rewrite (take_digits_delimited (String g r') x t delimiter_no_digit).
        destruct (take_digits (String g r')) as [[| d ds] r5]; cbn [fst snd];
          destruct frac; reflexivity.
Qed.


(** The fraction and what follows. *)
Lemma fraction_delimited (sign integer k : string) :
  (let '(frac, s3) :=
     match (k ++ String x t) with
     | String p r2 =>
       if (p =? ".")%char then
         match take_digits r2 with
         | ("", _) => ("", (k ++ String x t))
         | (ds, r3) => (String p ds, r3)
         end
       else ("", (k ++ String x t))
     | "" => ("", (k ++ String x t))
     end in
   let '(exp, s4) :=
       match s3 with
       | String e r3 =>
         if ((e =? "e") || (e =? "E"))%char then
           let '(sg, r4) :=
             match r3 with
             | String g r' =>
               if ((g =? "-") || (g =? "+"))%char then (chr g, r') else ("", r3)
             | "" => ("", r3)
             end in
           match take_digits r4 with
           | ("", _) => ("", s3)
           | (ds, r5) => (String e (sg ++ ds), r5)
           end
         else ("", s3)
       | "" => ("", s3)
       end in
     match frac, exp with
     | "", "" =>
       let n := int_of_digits 0 integer in
       Some (JInt (if sign =? "-" then (- n)%Z else n), s4)
     | _, _ => Some (JFloat (sign ++ integer ++ frac ++ exp), s4)
     end)
  = match (let '(frac, s3) :=
     match k with
     | String p r2 =>
       if (p =? ".")%char then
         match take_digits r2 with
         | ("", _) => ("", k)
         | (ds, r3) => (String p ds, r3)
         end
       else ("", k)
     | "" => ("", k)
     end in
   let '(exp, s4) :=
       match s3 with
       | String e r3 =>
         if ((e =? "e") || (e =? "E"))%char then
           let '(sg, r4) :=
             match r3 with
             | String g r' =>
               if ((g =? "-") || (g =? "+"))%char then (chr g, r') else ("", r3)
             | "" => ("", r3)
             end in
           match take_digits r4 with
           | ("", _) => ("", s3)
           | (ds, r5) => (String e (sg ++ ds), r5)
           end
         else ("", s3)
       | "" => ("", s3)
       end in
     match frac, exp with
     | "", "" =>
       let n := int_of_digits 0 integer in
       Some (JInt (if sign =? "-" then (- n)%Z else n), s4)
     | _, _ => Some (JFloat (sign ++ integer ++ frac ++ exp), s4)
     end) with
    | Some (v, k') => Some (v, k' ++ String x t)
    | None => None
    end.
Proof.
  destruct k as [| p r2]; cbn [append].
  - marks. reflexivity.
  - destruct (p =? ".")%char.
    2:{ exact (exponent_delimited sign integer "" (String p r2)). }
    rewrite (take_digits_delimited r2 x t delimiter_no_digit).
    destruct (take_digits r2) as [[| d ds] r3]; cbn [fst snd].
    + exact (exponent_delimited sign integer "" (String p r2)).
    + exact (exponent_delimited sign integer (String p (String d ds)) r3).
Qed.

Lemma match_number_delimited (u : string) :
  match_number (u ++ String x t)
  = match match_number u with
    | Some (v, k) => Some (v, k ++ String x t)
    | None => None
    end.
Proof.
  assert (Hdigits : forall sign c r,
            match String c r ++ String x t with
            | String c r =>
              if is_digit c then
                let '(integer, s2) :=
                  if (c =? "0")%char then ("0", r)
                  else let '(ds, r') := take_digits r in (String c ds, r') in
                let '(frac, s3) :=
     match s2 with
     | String p r2 =>
       if (p =? ".")%char then
         match take_digits r2 with
         | ("", _) => ("", s2)
         | (ds, r3) => (String p ds, r3)
         end
       else ("", s2)
     | "" => ("", s2)
     end in
   let '(exp, s4) :=
       match s3 with
       | String e r3 =>
         if ((e =? "e") || (e =? "E"))%char then
           let '(sg, r4) :=
             match r3 with
             | String g r' =>
               if ((g =? "-") || (g =? "+"))%char then (chr g, r') else ("", r3)
             | "" => ("", r3)
             end in
           match take_digits r4 with
           | ("", _) => ("", s3)
           | (ds, r5) => (String e (sg ++ ds), r5)
           end
         else ("", s3)
       | "" => ("", s3)
       end in
     match frac, exp with
     | "", "" =>
       let n := int_of_digits 0 integer in
       Some (JInt (if sign =? "-" then (- n)%Z else n), s4)
     | _, _ => Some (JFloat (sign ++ integer ++ frac ++ exp), s4)
     end
              else None
            | "" => None
            end
            = match
                (if is_digit c then
                   let '(integer, s2) :=
                     if (c =? "0")%char then ("0", r)
                     else let '(ds, r') := take_digits r in (String c ds, r') in
                   let '(frac, s3) :=
     match s2 with
     | String p r2 =>
       if (p =? ".")%char then
         match take_digits r2 with
         | ("", _) => ("", s2)
         | (ds, r3) => (String p ds, r3)
         end
       else ("", s2)
     | "" => ("", s2)
     end in
   let '(exp, s4) :=
       match s3 with
       | String e r3 =>
         if ((e =? "e") || (e =? "E"))%char then
           let '(sg, r4) :=
             match r3 with
             | String g r' =>
               if ((g =? "-") || (g =? "+"))%char then (chr g, r') else ("", r3)
             | "" => ("", r3)
             end in
           match take_digits r4 with
           | ("", _) => ("", s3)
           | (ds, r5) => (String e (sg ++ ds), r5)
           end
         else ("", s3)
       | "" => ("", s3)
       end in
     match frac, exp with
     | "", "" =>
       let n := int_of_digits 0 integer in
       Some (JInt (if sign =? "-" then (- n)%Z else n), s4)
     | _, _ => Some (JFloat (sign ++ integer ++ frac ++ exp), s4)
     end
                 else None)
              with
              | Some (v, k) => Some (v, k ++ String x t)
              | None => None
              end).
  { intros sign c r. cbn [append]. destruct (is_digit c); [| reflexivity].
    destruct (c =? "0")%char.
    - exact (fraction_delimited sign "0" r).
    - rewrite (take_digits_delimited r x t delimiter_no_digit).
      destruct (take_digits r) as [ds k]. cbn [fst snd].
      exact (fraction_delimited sign (String c ds) k). }
  unfold match_number. destruct u as [| c0 u0]; cbn [append].
  - marks. cbn iota. marks. reflexivity.
  - destruct (c0 =? "-")%char.
    + destruct u0 as [| c r]; cbn [append]; [marks; reflexivity |].
      exact (Hdigits "-" c r).
    + exact (Hdigits "" c0 u0).
Qed.

Lemma integer_digits_delimited (u : string) :
  integer_digits (u ++ String x t) = integer_digits u.
Proof.
  assert (Hpart : forall s,
            match s ++ String x t with
            | String c _ =>
              if (c =? "0")%char then 1
              else String.length (fst (take_digits (s ++ String x t)))
            | "" => 0
            end
            = match s with
              | String c _ =>
                if (c =? "0")%char then 1 else String.length (fst (take_digits s))
              | "" => 0
              end).
  { intros s. rewrite (take_digits_delimited s x t delimiter_no_digit).
    destruct s as [| c r]; cbn [append fst]; [| reflexivity].
    marks. reflexivity. }
  unfold integer_digits. destruct u as [| c0 u0]; cbn [append].
  - marks. cbn. marks. reflexivity.
  - destruct (c0 =? "-")%char; [apply Hpart | apply (Hpart (String c0 u0))].
Qed.

End Delimited.

Lemma suffix_refl (s : string) : suffix s s.
Proof. now exists "". Qed.

Lemma suffix_trans (r s t : string) : suffix r s -> suffix s t -> suffix r t.
Proof.
  intros [c ->] [c' ->]. exists (c' ++ c). apply str_app_assoc.
Qed.

Lemma suffix_cons (a : ascii) (r s : string) : suffix r s -> suffix r (String a s).
Proof. intros [c ->]. now exists (String a c). Qed.

Lemma take_digits_suffix (s : string) : suffix (snd (take_digits s)) s.
Proof.
  induction s as [| c s IH]; cbn; [apply suffix_refl |].
  destruct (is_digit c); cbn; [| apply suffix_refl].
  destruct (take_digits s); cbn in *. now apply suffix_cons.
Qed.

Lemma match_number_suffix (s : string) v rest :
  match_number s = Some (v, rest) -> suffix rest s.
Proof.
  unfold match_number.
  set (signed := match s with
                 | String c r => if (c =? "-")%char then ("-", r) else ("", s)
                 | "" => ("", s)
                 end).
  assert (Hsigned : suffix (snd signed) s).
  { subst signed. destruct s as [| c r]; cbn; [apply suffix_refl |].
    destruct (c =? "-")%char; cbn; [apply suffix_cons |]; apply suffix_refl. }
  destruct signed as [sign s1]. cbn [snd] in Hsigned.
  destruct s1 as [| c r]; [discriminate |].
  destruct (is_digit c); [| discriminate].
  set (whole := if (c =? "0")%char then ("0", r)
                else let '(ds, r') := take_digits r in (String c ds, r')).
  assert (Hwhole : suffix (snd whole) r).
  { subst whole. destruct (c =? "0")%char; cbn; [apply suffix_refl |].
    pose proof (take_digits_suffix r). now destruct (take_digits r). }
  destruct whole as [integer s2]. cbn [snd] in Hwhole.
  set (fraction := match s2 with
                   | String p r2 =>
                     if (p =? ".")%char then
                       match take_digits r2 with
                       | ("", _) => ("", s2)
                       | (ds, r3) => (String p ds, r3)
                       end
                     else ("", s2)
                   | "" => ("", s2)
                   end).
  assert (Hfraction : suffix (snd fraction) s2).
  { subst fraction. destruct s2 as [| p r2]; cbn; [apply suffix_refl |].
    destruct (p =? ".")%char; cbn; [| apply suffix_refl].
    pose proof (take_digits_suffix r2).
    destruct (take_digits r2) as [[| d ds] r3]; cbn in *;
      [apply suffix_refl | now apply suffix_cons]. }
  destruct fraction as [frac s3]. cbn [snd] in Hfraction.
  set (exponent := match s3 with
                   | String e r3 =>
                     if ((e =? "e") || (e =? "E"))%char then
                       let '(sg, r4) :=
                         match r3 with
                         | String g r' =>
                           if ((g =? "-") || (g =? "+"))%char then (chr g, r') else ("", r3)
                         | "" => ("", r3)
                         end in
                       match take_digits r4 with
                       | ("", _) => ("", s3)
                       | (ds, r5) => (String e (sg ++ ds), r5)
                       end
                     else ("", s3)
                   | "" => ("", s3)
                   end).
  assert (Hexponent : suffix (snd exponent) s3).
  { subst exponent. destruct s3 as [| e r3]; cbn; [apply suffix_refl |].
    destruct ((e =? "e") || (e =? "E"))%char; cbn; [| apply suffix_refl].
    set (signed_exp := match r3 with
                       | String g r' =>
                         if ((g =? "-") || (g =? "+"))%char then (chr g, r') else ("", r3)
                       | "" => ("", r3)
                       end).
    assert (Hse : suffix (snd signed_exp) r3).
    { subst signed_exp. destruct r3 as [| g r']; cbn; [apply suffix_refl |].
      destruct ((g =? "-") || (g =? "+"))%char; cbn;
        [apply suffix_cons |]; apply suffix_refl. }
    destruct signed_exp as [sg r4]. cbn [snd] in Hse.
    pose proof (take_digits_suffix r4) as Hr4.
    destruct (take_digits r4) as [[| d ds] r5]; cbn in *; [apply suffix_refl |].
    apply suffix_cons. now apply (suffix_trans _ r4). }
  destruct exponent as [exp s4]. cbn [snd] in Hexponent.
  assert (Hall : suffix s4 s).
  { apply (suffix_trans _ s3); [exact Hexponent |].
    apply (suffix_trans _ s2); [exact Hfraction |].
    apply (suffix_trans _ (String c r)); [now apply suffix_cons | exact Hsigned]. }
  destruct frac, exp; intros [= _ <-]; exact Hall.
Qed.

Lemma strip_prefix_app (w s rest : string) :
  strip_prefix w s = Some rest -> s = w ++ rest.
Proof.
  revert s. induction w as [| a w IH]; intros [| b s]; cbn; try discriminate.
  - now intros [= <-].
  - now intros [= <-].
  - destruct (Ascii.eqb_spec a b) as [-> | _]; [| discriminate].
    intros Hs. now rewrite (IH _ Hs).
Qed.

Lemma literal_suffix (w : string) (v v' : json) (s rest : string) :
  literal w v s = Some (v', rest) -> suffix rest s.
Proof.
  unfold literal. destruct (strip_prefix w s) as [rest' |] eqn:Hs; [| discriminate].
  intros [= _ <-]. exists w. now apply strip_prefix_app.
Qed.

Lemma scalar_suffix (s : string) v rest :
  first_of [ literal "null" JNull s;
             literal "true" (JBool true) s;
             literal "false" (JBool false) s;
             match_number s;
             literal "NaN" (JFloat "NaN") s;
             literal "Infinity" (JFloat "Infinity") s;
             literal "-Infinity" (JFloat "-Infinity") s ] = Some (v, rest) ->
  suffix rest s.
Proof.
  cbn [first_of fold_right].
  repeat match goal with
    | |- context [match ?o with Some _ => _ | None => _ end] =>
        let Ho := fresh "Ho" in
        destruct o as [[? ?] |] eqn:Ho;
        [ intros [= <- <-];
          first [ apply match_number_suffix in Ho; exact Ho
                | apply literal_suffix in Ho; exact Ho ]
        | ]
    end.
  discriminate.
Qed.

Lemma scalar_delimited (x : ascii) (t u : string) :
  is_delimiter x = true ->
  first_of [ literal "null" JNull (u ++ String x t);
             literal "true" (JBool true) (u ++ String x t);
             literal "false" (JBool false) (u ++ String x t);
             match_number (u ++ String x t);
             literal "NaN" (JFloat "NaN") (u ++ String x t);
             literal "Infinity" (JFloat "Infinity") (u ++ String x t);
             literal "-Infinity" (JFloat "-Infinity") (u ++ String x t) ]
  = match first_of [ literal "null" JNull u;
                     literal "true" (JBool true) u;
                     literal "false" (JBool false) u;
                     match_number u;
                     literal "NaN" (JFloat "NaN") u;
                     literal "Infinity" (JFloat "Infinity") u;
                     literal "-Infinity" (JFloat "-Infinity") u ] with
    | Some (v, k) => Some (v, k ++ String x t)
    | None => None
    end.
Proof.
  intros Hx.
  assert (Hword : forall w, In w ["null"; "true"; "false"; "NaN"; "Infinity"; "-Infinity"] ->
                            lacks x w = true).
  { intros w Hw. apply delimiter_cases in Hx. cbn in Hw.
    intuition (subst; reflexivity). }
  cbn [first_of fold_right].
  rewrite !literal_delimited by (apply Hword; cbn; tauto).
  rewrite (match_number_delimited x t Hx).
  repeat match goal with
    | |- context [match ?o with Some _ => _ | None => _ end] =>
        is_var o; fail 1
    | |- context [literal ?w ?v u] => destruct (literal w v u) as [[? ?] |]; [reflexivity |]
    | |- context [match_number u] => destruct (match_number u) as [[? ?] |]; [reflexivity |]
    end.
  reflexivity.
Qed.

Lemma prepend_inv (p : string) (r : option (string * string)) x rest :
  prepend p r = Some (x, rest) -> exists y, r = Some (y, rest) /\ x = p ++ y.
Proof.
  destruct r as [[y rest'] |]; cbn; [| discriminate].
  intros [= <- <-]. now exists y.
Qed.

Lemma scanstring_unicode (h1 h2 h3 h4 : ascii) (r2 : string) :
  scanstring (String "\" (String "u" (String h1 (String h2 (String h3 (String h4 r2))))))
  = match hex4 h1 h2 h3 h4 with
    | None => None
    | Some uni =>
      if is_high_surrogate uni then
        match after_high_surrogate r2 with
        | Pair uni2 r3 => prepend (utf8 (join_surrogates uni uni2)) (scanstring r3)
        | Broken => None
        | Lone => prepend (utf8 uni) (scanstring r2)
        end
      else prepend (utf8 uni) (scanstring r2)
    end.
Proof.
  cbn [scanstring]. change ("\" =? dq)%char with false.
  change ("\" =? "\")%char with true. change ("u" =? "u")%char with true.
  cbv iota.
  destruct (hex4 h1 h2 h3 h4) as [uni |]; [| reflexivity].
  destruct (is_high_surrogate uni); [| reflexivity].
  unfold after_high_surrogate.
  destruct r2 as [| b [| u [| k1 [| k2 [| k3 [| k4 r3]]]]]]; try reflexivity.
  destruct ((b =? "\") && (u =? "u"))%char; [| reflexivity].
  destruct (hex4 k1 k2 k3 k4) as [uni2 |]; [| reflexivity].
  destruct (is_low_surrogate uni2); reflexivity.
Qed.

Lemma after_high_pair (r2 : string) (uni2 : N) (r3 : string) :
  after_high_surrogate r2 = Pair uni2 r3 ->
  exists k1 k2 k3 k4,
    r2 = String "\" (String "u" (String k1 (String k2 (String k3 (String k4 r3)))))
    /\ hex4 k1 k2 k3 k4 = Some uni2 /\ is_low_surrogate uni2 = true.
Proof.
  unfold after_high_surrogate.
  destruct r2 as [| b [| u [| k1 [| k2 [| k3 [| k4 r]]]]]]; try discriminate.
  destruct (Ascii.eqb_spec b "\") as [-> | _]; [| discriminate].
  destruct (Ascii.eqb_spec u "u") as [-> | _]; [| discriminate]. cbn.
  destruct (hex4 k1 k2 k3 k4) as [n |] eqn:Hhex; [| discriminate].
  destruct (is_low_surrogate n) eqn:Hlow; [| discriminate].
  intros [= <- <-]. now exists k1, k2, k3, k4.
Qed.

Lemma after_high_six (k1 k2 k3 k4 : ascii) (z : string) :
  after_high_surrogate (String "\" (String "u" (String k1 (String k2 (String k3 (String k4 z))))))
  = match hex4 k1 k2 k3 k4 with
    | None => Broken
    | Some uni2 => if is_low_surrogate uni2 then Pair uni2 z else Lone
    end.
Proof. reflexivity. Qed.

Lemma after_high_head (b : ascii) (z : string) :
  (b =? "\")%char = false -> after_high_surrogate (String b z) = Lone.
Proof.
  intros Hb. unfold after_high_surrogate.
  destruct z as [| u [| k1 [| k2 [| k3 [| k4 r3]]]]]; try reflexivity.
  now rewrite Hb.
Qed.

Lemma after_high_second (b u : ascii) (z : string) :
  (u =? "u")%char = false -> after_high_surrogate (String b (String u z)) = Lone.
Proof.
  intros Hu. unfold after_high_surrogate.
  destruct z as [| k1 [| k2 [| k3 [| k4 r3]]]]; try reflexivity.
  now rewrite Hu, andb_false_r.
Qed.

(** An escape takes its characters from the text before the closing
    quote. *)
Lemma unicode_consumed (t : string) x rest :
  scanstring (String "\" (String "u" t)) = Some (x, rest) ->
  String.length rest + 4 < String.length t.
Proof.
  destruct t as [| h1 [| h2 [| h3 [| h4 r2]]]]; try discriminate.
  rewrite scanstring_unicode.
  destruct (hex4 h1 h2 h3 h4) as [uni |]; [| discriminate].
  assert (Hlone : forall p, prepend p (scanstring r2) = Some (x, rest) ->
                            String.length rest + 4
                            < String.length (String h1 (String h2 (String h3 (String h4 r2))))).
  { intros p Hp. apply prepend_some in Hp as [y Hp].
    apply (scanstring_shorter _ _ _ _ (le_n _)) in Hp. cbn [String.length]. lia. }
  destruct (is_high_surrogate uni); [| apply Hlone].
  destruct (after_high_surrogate r2) as [uni2 r3 | |] eqn:Hcase;
    [| discriminate | apply Hlone].
  apply after_high_pair in Hcase as (k1 & k2 & k3 & k4 & -> & _).
  intros Hp. apply prepend_some in Hp as [y Hp].
  apply (scanstring_shorter _ _ _ _ (le_n _)) in Hp. cbn [String.length]. lia.
Qed.

Lemma escape_consumed (t : string) x rest :
  scanstring (String "\" t) = Some (x, rest) ->
  String.length rest + 1 < String.length t.
Proof.
  destruct t as [| e t1]; [discriminate |].
  destruct (Ascii.eqb_spec e "u") as [-> | He].
  - intros Hs. apply unicode_consumed in Hs. cbn [String.length]. lia.
  - cbn [scanstring]. change ("\" =? dq)%char with false.
    change ("\" =? "\")%char with true. cbv iota.
    apply Ascii.eqb_neq in He. rewrite He.
    destruct (unescape e); [| discriminate].
    intros Hp. apply prepend_some in Hp as [y Hp].
    apply (scanstring_shorter _ _ _ _ (le_n _)) in Hp. cbn [String.length]. lia.
Qed.

(** Whether a low surrogate follows is settled before the closing
    quote. *)
Lemma after_high_stable (c rest rest' : string) y :
  scanstring (c ++ rest) = Some (y, rest) ->
  after_high_surrogate (c ++ rest) = Lone ->
  after_high_surrogate (c ++ rest') = Lone.
Proof.
  intros Hs Hcase.
  destruct c as [| b c].
  { apply (scanstring_shorter _ _ _ _ (le_n _)) in Hs. cbn in Hs. lia. }
  cbn [append] in *.
  destruct (Ascii.eqb_spec b "\") as [-> | Hb].
  2:{ apply after_high_head. now apply Ascii.eqb_neq. }
  pose proof (escape_consumed _ _ _ Hs) as Hlen.
  rewrite str_length_app in Hlen.
  destruct c as [| u c]; [cbn in Hlen; lia |].
  cbn [append] in *.
  destruct (Ascii.eqb_spec u "u") as [-> | Hu].
  2:{ apply after_high_second. now apply Ascii.eqb_neq. }
  pose proof (unicode_consumed _ _ _ Hs) as Hlen6.
  rewrite str_length_app in Hlen6.
  destruct c as [| k1 [| k2 [| k3 [| k4 c]]]]; try (cbn in Hlen6; lia).
  cbn [append] in *. rewrite after_high_six in *.
  destruct (hex4 k1 k2 k3 k4) as [uni2 |]; [| discriminate].
  destruct (is_low_surrogate uni2); [discriminate | reflexivity].
Qed.

(** The string scanner reads up to the closing quote and does not look
    behind it. *)
Lemma scanstring_cut (n : nat) :
  forall s x rest,
    String.length s <= n ->
    scanstring s = Some (x, rest) ->
    exists c, s = c ++ rest
              /\ forall rest', scanstring (c ++ rest') = Some (x, rest').
Proof.
  induction n as [| n IH]; intros s x rest Hn Hs.
  { destruct s; cbn in *; [discriminate | lia]. }
  destruct s as [| a s]; [discriminate |].
  cbn [String.length] in Hn.
  destruct (Ascii.eqb_spec a dq) as [-> | Hquote].
  { cbn in Hs. injection Hs as <- <-. exists (String dq ""). split; reflexivity. }
  apply Ascii.eqb_neq in Hquote.
  destruct (Ascii.eqb_spec a "\") as [-> | Hslash].
  2:{ apply Ascii.eqb_neq in Hslash.
      cbn [scanstring] in Hs. rewrite Hquote, Hslash in Hs.
      destruct (N_of_ascii a <? 32)%N eqn:Hcontrol; [discriminate |].
      apply prepend_inv in Hs as (y & Hs & ->).
      destruct (IH s y rest ltac:(lia) Hs) as (c & -> & Hc).
      exists (String a c). split; [reflexivity |]. intros rest'.
      cbn [append scanstring]. rewrite Hquote, Hslash, Hcontrol, Hc. reflexivity. }
  destruct s as [| e s]; [discriminate |].
  cbn [String.length] in Hn.
  destruct (Ascii.eqb_spec e "u") as [-> | Hu].
  2:{ apply Ascii.eqb_neq in Hu.
      cbn [scanstring] in Hs. change ("\" =? dq)%char with false in Hs.
      change ("\" =? "\")%char with true in Hs. cbv iota in Hs. rewrite Hu in Hs.
      destruct (unescape e) as [plain |] eqn:Hplain; [| discriminate].
      apply prepend_inv in Hs as (y & Hs & ->).
      destruct (IH s y rest ltac:(lia) Hs) as (c & -> & Hc).
      exists (String "\" (String e c)). split; [reflexivity |]. intros rest'.
      cbn [append scanstring]. change ("\" =? dq)%char with false.
      change ("\" =? "\")%char with true. cbv iota.
      rewrite Hu, Hplain, Hc. reflexivity. }
  destruct s as [| h1 [| h2 [| h3 [| h4 r2]]]]; try discriminate.
  cbn [String.length] in Hn.
  rewrite scanstring_unicode in Hs.
  destruct (hex4 h1 h2 h3 h4) as [uni |] eqn:Hhex; [| discriminate].
  assert (Hlone : forall c y,
            r2 = c ++ rest ->
            (forall rest', scanstring (c ++ rest') = Some (y, rest')) ->
            (is_high_surrogate uni = true ->
             forall rest', after_high_surrogate (c ++ rest') = Lone) ->
            exists c', String "\" (String "u" (String h1 (String h2 (String h3 (String h4 r2)))))
                       = c' ++ rest
                       /\ forall rest', scanstring (c' ++ rest') = Some (utf8 uni ++ y, rest')).
  { intros c y -> Hc Hcase.
    exists (String "\" (String "u" (String h1 (String h2 (String h3 (String h4 c)))))).
    split; [reflexivity |]. intros rest'. cbn [append].
    rewrite scanstring_unicode, Hhex.
    destruct (is_high_surrogate uni); [rewrite Hcase by reflexivity |];
      now rewrite Hc. }
  destruct (is_high_surrogate uni) eqn:Hhigh.
  2:{ apply prepend_inv in Hs as (y & Hs & ->).
      destruct (IH r2 y rest ltac:(lia) Hs) as (c & Hr2 & Hc).
      apply (Hlone c y Hr2 Hc). discriminate. }
  destruct (after_high_surrogate r2) as [uni2 r3 | |] eqn:Hcase; [| discriminate |].
  - apply after_high_pair in Hcase as (k1 & k2 & k3 & k4 & -> & Hhex2 & Hlow).
    cbn [String.length] in Hn.
    apply prepend_inv in Hs as (y & Hs & ->).
    destruct (IH r3 y rest ltac:(lia) Hs) as (c & -> & Hc).
    exists (String "\" (String "u" (String h1 (String h2 (String h3 (String h4
              (String "\" (String "u" (String k1 (String k2 (String k3 (String k4 c)))))))))))).
    split; [reflexivity |]. intros rest'. cbn [append].
    rewrite scanstring_unicode, Hhex, Hhigh, after_high_six, Hhex2, Hlow, Hc.
    reflexivity.
  - apply prepend_inv in Hs as (y & Hs & ->).
    destruct (IH r2 y rest ltac:(lia) Hs) as (c & Hr2 & Hc).
    apply (Hlone c y Hr2 Hc). intros _ rest'.
    subst r2. now apply (after_high_stable c rest rest' y).
Qed.

Lemma skip_ws_split (s : string) :
  exists ws, s = ws ++ skip_ws s /\ only_whitespace ws = true.
Proof.
  induction s as [| c s (ws & Hs & Hws)]; cbn; [now exists "" |].
  destruct (is_ws c) eqn:Hc; [| now exists ""].
  exists (String c ws). cbn. rewrite Hc, Hws. split; [now rewrite <- Hs | reflexivity].
Qed.

Lemma skip_ws_app (ws t : string) :
  only_whitespace ws = true -> skip_ws (ws ++ t) = skip_ws t.
Proof.
  induction ws as [| c ws IH]; cbn; [reflexivity |].
  intros Hws. apply andb_true_iff in Hws as [-> Hws]. now apply IH.
Qed.

Lemma skip_ws_head (s : string) (x : ascii) (t : string) :
  skip_ws s = String x t -> is_ws x = false.
Proof.
  induction s as [| c s IH]; cbn; [discriminate |].
  destruct (is_ws c) eqn:Hc; [exact IH |]. now intros [= <- _].
Qed.

Lemma skip_ws_stop (x : ascii) (t : string) :
  is_ws x = false -> skip_ws (String x t) = String x t.
Proof. cbn. now intros ->. Qed.

Lemma skip_ws_empty (s : string) : skip_ws s = "" -> only_whitespace s = true.
Proof.
  induction s as [| c s IH]; cbn; [reflexivity |].
  destruct (is_ws c); [exact IH | discriminate].
Qed.

Lemma same_delimiter_ws (ws : string) (d : ascii) (z z' : string) :
  only_whitespace ws = true ->
  is_delimiter d = true ->
  same_delimiter (ws ++ String d z) (ws ++ String d z').
Proof.
  intros Hws Hd. destruct ws as [| w ws]; cbn [append].
  - now exists d, z, z'.
  - exists w, (ws ++ String d z), (ws ++ String d z').
    repeat split. cbn in Hws. apply andb_true_iff in Hws as [Hw _].
    unfold is_delimiter. now rewrite Hw.
Qed.

Lemma app_head (a : ascii) (s c rest : string) :
  String a s = c ++ rest ->
  String.length rest <= String.length s ->
  exists c', c = String a c' /\ s = c' ++ rest.
Proof.
  destruct c as [| b c]; cbn [append].
  - intros <-. cbn. lia.
  - intros [= <- ->] _. now exists c.
Qed.

Section Cut.

Variable max_digits : nat.

Ltac right_nested := repeat progress (rewrite <- ?str_app_assoc; cbn [append]).

Lemma scan_cut (fuel : nat) :
  (forall depth s v rest,
      scan_once max_digits fuel depth s = Scanned v rest ->
      exists c,
        s = c ++ rest
        /\ (forall r, s = String "{" r -> ends_with_brace c)
        /\ forall fuel' rest',
             self_delimiting s = true \/ same_delimiter rest rest' ->
             scan_once max_digits fuel' depth (c ++ rest') <> Exhausted ->
             scan_once max_digits fuel' depth (c ++ rest') = Scanned v rest')
  /\ (forall depth s acc v rest,
         array_items max_digits fuel depth s acc = Scanned v rest ->
         exists c,
           s = c ++ rest
           /\ forall fuel' rest',
                array_items max_digits fuel' depth (c ++ rest') acc <> Exhausted ->
                array_items max_digits fuel' depth (c ++ rest') acc = Scanned v rest')
  /\ (forall depth s acc v rest,
         object_members max_digits fuel depth s acc = Scanned v rest ->
         exists c,
           s = c ++ rest
           /\ ends_with_brace c
           /\ forall fuel' rest',
                object_members max_digits fuel' depth (c ++ rest') acc <> Exhausted ->
                object_members max_digits fuel' depth (c ++ rest') acc = Scanned v rest').
Proof.
  induction fuel as [| fuel (IHv & IHa & IHo)]; [repeat split; discriminate |].
  split; [| split].
  - (* a value *)
    intros depth [| a r] v rest Hs; cbn [scan_once] in Hs; [discriminate |].
    destruct (a =? dq)%char eqn:Hquote.
    { destruct (scanstring r) as [[x rest0] |] eqn:Hstr; [| discriminate].
      injection Hs as <- <-.
      destruct (scanstring_cut _ r x rest0 (le_n _) Hstr) as (c & -> & Hc).
      exists (String a c). split; [reflexivity |]. split.
      { intros r0 [= -> _]. discriminate. }
      intros [| fuel'] rest' _ Hfuel; [now contradiction Hfuel |].
      cbn [append scan_once]. now rewrite Hquote, Hc. }
    destruct (a =? "{")%char eqn:Hbrace.
    { destruct depth as [| depth]; [discriminate |].
      destruct (skip_ws_split r) as (ws & Hr & Hws).
      destruct (skip_ws r) as [| c' r'] eqn:Hskip; [discriminate |].
      pose proof (skip_ws_head _ _ _ Hskip) as Hc'.
      destruct (c' =? "}")%char eqn:Hclose.
      - injection Hs as <- <-.
        apply Ascii.eqb_eq in Hclose as Hc'eq.
        exists (String a (ws ++ String c' "")). split.
        { cbn [append]. rewrite Hr at 1. f_equal. now rewrite <- str_app_assoc. }
        split.
        { intros _ _. exists (String a ws). now subst c'. }
        intros [| fuel'] rest' _ Hfuel; [now contradiction Hfuel |].
        cbn [append scan_once]. rewrite Hquote, Hbrace, <- str_app_assoc.
        cbn [append]. rewrite (skip_ws_app _ _ Hws), (skip_ws_stop _ _ Hc'), Hclose.
        reflexivity.
      - destruct (IHo depth (String c' r') [] v rest Hs) as (c2 & Hc2 & Hend & Hcut).
        pose proof (proj2 (proj2 (scan_shorter max_digits fuel)) _ _ _ _ _ Hs) as Hlen.
        destruct (app_head _ _ _ _ Hc2 ltac:(cbn in Hlen; lia)) as (c2' & -> & Hr').
        exists (String a (ws ++ String c' c2')). split.
        { cbn [append]. rewrite Hr at 1. f_equal. rewrite Hr', <- str_app_assoc.
          reflexivity. }
        split.
        { intros _ _. destruct Hend as [c0 Hc0].
          exists (String a (ws ++ c0)). cbn [append]. f_equal.
          now rewrite <- str_app_assoc, <- Hc0. }
        intros [| fuel'] rest' _; [intros Hfuel; now contradiction Hfuel |].
        cbn [append scan_once]. rewrite Hquote, Hbrace, <- str_app_assoc.
        cbn [append]. rewrite (skip_ws_app _ _ Hws), (skip_ws_stop _ _ Hc'), Hclose.
        apply (Hcut fuel' rest'). }
    destruct (a =? "[")%char eqn:Hbracket.
    { destruct depth as [| depth]; [discriminate |].
      destruct (skip_ws_split r) as (ws & Hr & Hws).
      destruct (skip_ws r) as [| c' r'] eqn:Hskip; [discriminate |].
      pose proof (skip_ws_head _ _ _ Hskip) as Hc'.
      destruct (c' =? "]")%char eqn:Hclose.
      - injection Hs as <- <-.
        exists (String a (ws ++ String c' "")). split.
        { cbn [append]. rewrite Hr at 1. f_equal. now rewrite <- str_app_assoc. }
        split.
        { intros r0 [= -> _]. discriminate. }
        intros [| fuel'] rest' _ Hfuel; [now contradiction Hfuel |].
        cbn [append scan_once]. rewrite Hquote, Hbrace, Hbracket, <- str_app_assoc.
        cbn [append]. rewrite (skip_ws_app _ _ Hws), (skip_ws_stop _ _ Hc'), Hclose.
        reflexivity.
      - destruct (IHa depth (String c' r') [] v rest Hs) as (c2 & Hc2 & Hcut).
        pose proof (proj1 (proj2 (scan_shorter max_digits fuel)) _ _ _ _ _ Hs) as Hlen.
        destruct (app_head _ _ _ _ Hc2 ltac:(cbn in Hlen; lia)) as (c2' & -> & Hr').
        exists (String a (ws ++ String c' c2')). split.
        { cbn [append]. rewrite Hr at 1. f_equal. rewrite Hr', <- str_app_assoc.
          reflexivity. }
        split.
        { intros r0 [= -> _]. discriminate. }
        intros [| fuel'] rest' _; [intros Hfuel; now contradiction Hfuel |].
        cbn [append scan_once]. rewrite Hquote, Hbrace, Hbracket, <- str_app_assoc.
        cbn [append]. rewrite (skip_ws_app _ _ Hws), (skip_ws_stop _ _ Hc'), Hclose.
        apply (Hcut fuel' rest'). }
    (* a literal or a number *)
    destruct (first_of _) as [[v' rest0] |] eqn:Hscalar; [| discriminate].
    assert (Hsame : v' = v /\ rest0 = rest
                    /\ forall n, v' = JInt n ->
                         too_many_digits max_digits (integer_digits (String a r)) = false).
    { destruct v'; try (injection Hs as <- <-; repeat split; discriminate).
      destruct (too_many_digits _ _); [discriminate |].
      injection Hs as <- <-. repeat split. }
    destruct Hsame as (-> & -> & Hdigits). clear Hs.
    destruct (scalar_suffix _ _ _ Hscalar) as [c Hc].
    pose proof (scalar_shorter _ _ _ Hscalar) as Hlen.
    destruct (app_head _ _ _ _ Hc ltac:(cbn in Hlen; lia)) as (c' & -> & Hr).
    exists (String a c'). split; [exact Hc |]. split.
    { intros r0 [= -> _]. discriminate. }
    intros [| fuel'] rest' Hcond Hfuel; [now contradiction Hfuel |].
    destruct Hcond as [Hfree | (x & r0 & r0' & -> & -> & Hx)].
    { cbn in Hfree. rewrite Hquote, Hbrace, Hbracket in Hfree. discriminate. }
    rewrite Hc, (scalar_delimited x r0 (String a c') Hx) in Hscalar.
    rewrite Hc, (integer_digits_delimited x r0 Hx) in Hdigits.
    cbn [scan_once append]. rewrite Hquote, Hbrace, Hbracket.
    change (String a (c' ++ String x r0')) with (String a c' ++ String x r0').
    rewrite (scalar_delimited x r0' (String a c') Hx),
      (integer_digits_delimited x r0' Hx).
    destruct (first_of _) as [[v2 k] |]; [| discriminate].
    injection Hscalar as -> Hk. apply str_app_empty in Hk as ->. cbn [append].
    destruct v; try reflexivity.
    now rewrite (Hdigits _ eq_refl).
  - (* the elements of an array *)
    intros depth s acc v rest Hs. cbn [array_items] in Hs.
    destruct (scan_once max_digits fuel depth s) as [v1 r1 | | |] eqn:Hv;
      try discriminate.
    destruct (IHv depth s v1 r1 Hv) as (c1 & -> & _ & Hcut1).
    destruct (skip_ws_split r1) as (ws & Hr1 & Hws).
    destruct (skip_ws r1) as [| x r'] eqn:Hskip; [discriminate |].
    pose proof (skip_ws_head _ _ _ Hskip) as Hx. clear Hskip. subst r1.
    assert (Hinner : forall fuel' z,
              is_delimiter x = true ->
              scan_once max_digits fuel' depth (c1 ++ ws ++ String x z) <> Exhausted ->
              scan_once max_digits fuel' depth (c1 ++ ws ++ String x z)
              = Scanned v1 (ws ++ String x z)).
    { intros fuel' z Hdelimiter. apply Hcut1. right.
      now apply same_delimiter_ws. }
    destruct (x =? "]")%char eqn:Hclose.
    + injection Hs as <- <-. apply Ascii.eqb_eq in Hclose as Hxeq.
      exists (c1 ++ ws ++ String x ""). split.
      { now rewrite <- !str_app_assoc. }
      intros [| fuel'] rest' Hfuel; [now contradiction Hfuel |].
      revert Hfuel. cbn [array_items]. rewrite <- !str_app_assoc. cbn [append].
      intros Hfuel. rewrite Hinner.
      * now rewrite (skip_ws_app _ _ Hws), (skip_ws_stop _ _ Hx), Hclose.
      * now subst x.
      * intros Hex. now rewrite Hex in Hfuel.
    + destruct (x =? ",")%char eqn:Hcomma; [| discriminate].
      apply Ascii.eqb_eq in Hcomma as Hxeq.
      destruct (IHa depth _ _ v rest Hs) as (c2 & Hc2 & Hcut2).
      pose proof (proj1 (proj2 (scan_shorter max_digits fuel)) _ _ _ _ _ Hs) as Hlen.
      destruct (skip_ws_split r') as (ws2 & Hr' & Hws2).
      destruct (skip_ws r') as [| y r''] eqn:Hskip2; [cbn in Hlen; lia |].
      pose proof (skip_ws_head _ _ _ Hskip2) as Hy.
      destruct (app_head _ _ _ _ Hc2 ltac:(cbn in Hlen; lia)) as (c2' & -> & Hr'').
      exists (c1 ++ ws ++ String x (ws2 ++ String y c2')). split.
      { rewrite Hr', Hr'', <- !str_app_assoc. cbn [append].
        now rewrite <- !str_app_assoc. }
      intros [| fuel'] rest' Hfuel; [now contradiction Hfuel |].
      revert Hfuel. cbn [array_items]. rewrite <- !str_app_assoc. cbn [append].
      rewrite <- !str_app_assoc. cbn [append].
      intros Hfuel. rewrite Hinner in Hfuel |- *.
      * rewrite (skip_ws_app _ _ Hws), (skip_ws_stop _ _ Hx), Hclose, Hcomma in *.
        rewrite (skip_ws_app _ _ Hws2), (skip_ws_stop _ _ Hy) in *.
        now apply (Hcut2 fuel' rest').
      * now subst x.
      * intros Hex. now rewrite Hex in Hfuel.
      * now subst x.
      * intros Hex. now rewrite Hex in Hfuel.
  - (* the members of an object *)
    intros depth [| q r] acc v rest Hs; cbn [object_members] in Hs; [discriminate |].
    destruct (q =? dq)%char eqn:Hquote; [| discriminate].
    destruct (scanstring r) as [[key r1] |] eqn:Hkey; [| discriminate].
    destruct (scanstring_cut _ r key r1 (le_n _) Hkey) as (ck & -> & Hck).
    destruct (skip_ws_split r1) as (ws1 & Hr1 & Hws1).
    destruct (skip_ws r1) as [| colon r2] eqn:Hskip1; [discriminate |].
    pose proof (skip_ws_head _ _ _ Hskip1) as Hcolon. clear Hskip1. subst r1.
    destruct (colon =? ":")%char eqn:Hiscolon; [| discriminate].
    destruct (skip_ws_split r2) as (ws2 & Hr2 & Hws2).
    destruct (scan_once max_digits fuel depth (skip_ws r2)) as [v1 r3 | | |] eqn:Hv;
      try discriminate.
    destruct (IHv depth _ v1 r3 Hv) as (c1 & Hc1 & _ & Hcut1).
    pose proof (proj1 (scan_shorter max_digits fuel) _ _ _ _ Hv) as Hlen1.
    destruct (skip_ws r2) as [| y r2'] eqn:Hskip2; [cbn in Hlen1; lia |].
    pose proof (skip_ws_head _ _ _ Hskip2) as Hy. clear Hskip2.
    destruct (app_head _ _ _ _ Hc1 ltac:(cbn in Hlen1; lia)) as (c1' & -> & Hr2').
    subst r2 r2'.
    destruct (skip_ws_split r3) as (ws3 & Hr3 & Hws3).
    destruct (skip_ws r3) as [| x r4] eqn:Hskip3; [discriminate |].
    pose proof (skip_ws_head _ _ _ Hskip3) as Hx. clear Hskip3. subst r3.
    assert (Hinner : forall fuel' z,
              is_delimiter x = true ->
              scan_once max_digits fuel' depth (String y c1' ++ ws3 ++ String x z)
                <> Exhausted ->
              scan_once max_digits fuel' depth (String y c1' ++ ws3 ++ String x z)
              = Scanned v1 (ws3 ++ String x z)).
    { intros fuel' z Hdelimiter. apply Hcut1. right.
      now apply same_delimiter_ws. }
    destruct (x =? "}")%char eqn:Hclose.
    + injection Hs as <- <-. apply Ascii.eqb_eq in Hclose as Hxeq.
      exists (String q (ck ++ ws1 ++ String colon (ws2 ++ String y c1' ++ ws3 ++ String x ""))).
      split.
      { now right_nested. }
      split.
      { exists (String q (ck ++ ws1 ++ String colon (ws2 ++ String y c1' ++ ws3))).
        subst x. now right_nested. }
      intros [| fuel'] rest' Hfuel; [now contradiction Hfuel |].
      revert Hfuel. cbn [object_members append]. rewrite Hquote.
      right_nested. rewrite Hck.
      rewrite (skip_ws_app _ _ Hws1), (skip_ws_stop _ _ Hcolon), Hiscolon.
      rewrite (skip_ws_app _ _ Hws2), (skip_ws_stop _ _ Hy).
      change (String y (c1' ++ ws3 ++ String x rest'))
        with (String y c1' ++ ws3 ++ String x rest').
      intros Hfuel. rewrite Hinner.
      * now rewrite (skip_ws_app _ _ Hws3), (skip_ws_stop _ _ Hx), Hclose.
      * now subst x.
      * intros Hex. now rewrite Hex in Hfuel.
    + destruct (x =? ",")%char eqn:Hcomma; [| discriminate].
      apply Ascii.eqb_eq in Hcomma as Hxeq.
      destruct (IHo depth _ _ v rest Hs) as (c2 & Hc2 & Hend & Hcut2).
      pose proof (proj2 (proj2 (scan_shorter max_digits fuel)) _ _ _ _ _ Hs) as Hlen.
      destruct (skip_ws_split r4) as (ws4 & Hr4 & Hws4).
      destruct (skip_ws r4) as [| y' r5] eqn:Hskip4; [cbn in Hlen; lia |].
      pose proof (skip_ws_head _ _ _ Hskip4) as Hy'.
      destruct (app_head _ _ _ _ Hc2 ltac:(cbn in Hlen; lia)) as (c2' & -> & Hr5).
      exists (String q (ck ++ ws1 ++ String colon
                          (ws2 ++ String y c1' ++ ws3
                           ++ String x (ws4 ++ String y' c2')))).
      split.
      { rewrite Hr4, Hr5. now right_nested. }
      split.
      { destruct Hend as [c0 Hc0].
        exists (String q (ck ++ ws1 ++ String colon
                            (ws2 ++ String y c1' ++ ws3 ++ String x (ws4 ++ c0)))).
        rewrite Hc0. now right_nested. }
      intros [| fuel'] rest' Hfuel; [now contradiction Hfuel |].
      revert Hfuel. cbn [object_members append]. rewrite Hquote.
      right_nested. rewrite Hck.
      rewrite (skip_ws_app _ _ Hws1), (skip_ws_stop _ _ Hcolon), Hiscolon.
      rewrite (skip_ws_app _ _ Hws2), (skip_ws_stop _ _ Hy).
      change (String y (c1' ++ ws3 ++ String x (ws4 ++ String y' (c2' ++ rest'))))
        with (String y c1' ++ ws3 ++ String x (ws4 ++ String y' (c2' ++ rest'))).
      intros Hfuel. rewrite Hinner in Hfuel |- *.
      * rewrite (skip_ws_app _ _ Hws3), (skip_ws_stop _ _ Hx), Hclose, Hcomma in *.
        rewrite (skip_ws_app _ _ Hws4), (skip_ws_stop _ _ Hy') in *.
        now apply (Hcut2 fuel' rest').
      * now subst x.
      * intros Hex. now rewrite Hex in Hfuel.
      * now subst x.
      * intros Hex. now rewrite Hex in Hfuel.
Qed.

End Cut.

Lemma match_number_scalar (s : string) v rest :
  match_number s = Some (v, rest) -> not_a_container v = true.
Proof.
  unfold match_number.
  destruct (match s with
            | String c r => if (c =? "-")%char then ("-", r) else ("", s)
            | "" => ("", s)
            end) as [sign [| c r]]; [discriminate |].
  destruct (is_digit c); [| discriminate].
  destruct (if (c =? "0")%char then ("0", r)
            else let '(ds, r') := take_digits r in (String c ds, r'))
    as [integer s2].
  destruct (match s2 with
            | String p r2 =>
              if (p =? ".")%char then
                match take_digits r2 with
                | ("", _) => ("", s2)
                | (ds, r3) => (String p ds, r3)
                end
              else ("", s2)
            | "" => ("", s2)
            end) as [frac s3].
  destruct (match s3 with
            | String e r3 =>
              if ((e =? "e") || (e =? "E"))%char then
                let '(sg, r4) :=
                  match r3 with
                  | String g r' =>
                    if ((g =? "-") || (g =? "+"))%char then (chr g, r') else ("", r3)
                  | "" => ("", r3)
                  end in
                match take_digits r4 with
                | ("", _) => ("", s3)
                | (ds, r5) => (String e (sg ++ ds), r5)
                end
              else ("", s3)
            | "" => ("", s3)
            end) as [exp s4].
  destruct frac, exp; intros [= <- _]; reflexivity.
Qed.

Lemma scalar_value (s : string) v rest :
  first_of [ literal "null" JNull s;
             literal "true" (JBool true) s;
             literal "false" (JBool false) s;
             match_number s;
             literal "NaN" (JFloat "NaN") s;
             literal "Infinity" (JFloat "Infinity") s;
             literal "-Infinity" (JFloat "-Infinity") s ] = Some (v, rest) ->
  not_a_container v = true.
Proof.
  cbn [first_of fold_right]. unfold literal.
  repeat match goal with
    | |- context [match strip_prefix ?w s with Some _ => _ | None => _ end] =>
        destruct (strip_prefix w s); [intros [= <- _]; reflexivity |]
    | |- context [match match_number s with Some _ => _ | None => _ end] =>
        let Hn := fresh "Hn" in
        destruct (match_number s) as [[? ?] |] eqn:Hn;
        [intros [= <- _]; now apply match_number_scalar in Hn |]
    end.
  discriminate.
Qed.

Lemma array_items_list (max_digits fuel : nat) :
  forall depth s acc v rest,
    array_items max_digits fuel depth s acc = Scanned v rest ->
    exists items, v = JList items.
Proof.
  induction fuel as [| fuel IH]; intros depth s acc v rest; [discriminate |].
  cbn [array_items].
  destruct (scan_once max_digits fuel depth s) as [v1 r1 | | |]; try discriminate.
  destruct (skip_ws r1) as [| x r']; [discriminate |].
  destruct (x =? "]")%char; [intros [= <- _]; eauto |].
  destruct (x =? ",")%char; [apply IH | discriminate].
Qed.

(** Only a text that starts with an opening brace is scanned as an
    object. *)
Lemma scan_object_head (max_digits fuel depth : nat) (s : string) members rest :
  scan_once max_digits fuel depth s = Scanned (JObj members) rest ->
  exists r, s = String "{" r.
Proof.
  destruct fuel as [| fuel]; [discriminate |].
  destruct s as [| a r]; cbn [scan_once]; [discriminate |].
  destruct (a =? dq)%char.
  { destruct (scanstring r) as [[x rest0] |]; discriminate. }
  destruct (Ascii.eqb_spec a "{") as [-> | _]; [eauto |].
  destruct (a =? "[")%char.
  { destruct depth as [| depth]; [discriminate |].
    destruct (skip_ws r) as [| c' r']; [discriminate |].
    destruct (c' =? "]")%char; [discriminate |].
    intros Ha. apply array_items_list in Ha as [items Ha]. discriminate. }
  destruct (first_of _) as [[v rest0] |] eqn:Hscalar; [| discriminate].
  apply scalar_value in Hscalar.
  destruct v; try discriminate.
  destruct (too_many_digits _ _); discriminate.
Qed.

Lemma only_whitespace_lacks (c : ascii) (s : string) :
  is_ws c = false -> only_whitespace s = true -> lacks c s = true.
Proof.
  intros Hc. induction s as [| a s IH]; cbn; [reflexivity |].
  intros Hs. apply andb_true_iff in Hs as [Ha Hs]. rewrite (IH Hs), andb_true_r.
  apply negb_true_iff, Ascii.eqb_neq. intros ->. congruence.
Qed.

Context `{Interpreter}.

(** A text that decodes to an object is the object between white space:
    the match of the pattern is the text without the white space, and it
    decodes to the same object. *)
Lemma json_loads_object (text : string) (members : dict json) :
  json_loads text = Ok (JObj members) ->
  exists json_match,
    re_search_braces text = Some json_match
    /\ json_loads json_match = Ok (JObj members).
Proof.
  unfold json_loads at 1. unfold decode.
  destruct (skip_ws_split text) as (before & Htext & Hbefore).
  destruct (scan_once _ _ _ (skip_ws text)) as [v rest | | | [digits | opening]] eqn:Hv;
    try discriminate.
  destruct (skip_ws rest) eqn:Hrest; [| discriminate].
  intros [= ->]. apply skip_ws_empty in Hrest.
  destruct (scan_object_head _ _ _ _ _ _ Hv) as [r Hhead].
  destruct (proj1 (scan_cut _ _) _ _ _ _ Hv) as (c & Hc & Hend & Hcut).
  destruct (Hend r Hhead) as [c0 Hc0].
  pose proof (proj1 (scan_shorter _ _) _ _ _ _ Hv) as Hlen.
  rewrite Hhead in Hc, Hlen.
  destruct (app_head _ _ _ _ Hc ltac:(cbn in Hlen; lia)) as (c' & Hc' & _).
  assert (Hmid : exists mid, c = String "{" (mid ++ chr "}")).
  { rewrite Hc' in Hc0. destruct c0 as [| b c0]; [discriminate |].
    injection Hc0 as <- ->. now exists c0. }
  destruct Hmid as [mid Hmid].
  exists c. split.
  - rewrite Htext, Hhead, Hc, Hmid. cbn [append]. rewrite <- str_app_assoc.
    cbn [append chr]. apply re_search_braces_app.
    + now apply only_whitespace_lacks.
    + now apply only_whitespace_lacks.
  - unfold json_loads, decode.
    assert (Hskip : skip_ws c = c) by (rewrite Hmid; reflexivity).
    rewrite Hskip.
    pose proof (proj1 (scan_fuel int_max_str_digits (2 * String.length c + 2))
                  (S json_nesting) c ltac:(lia)) as Hfuel.
    specialize (Hcut (2 * String.length c + 2) "").
    rewrite str_app_nil_r in Hcut.
    rewrite Hcut; [reflexivity | | exact Hfuel].
    left. rewrite Hhead. reflexivity.
Qed.

End Truncation.

(** ** The parser and its wording *)

Section Actions.

Context `{Interpreter}.

(** The text that the parser decodes. *)
Lemma parse_action_candidate (text : string) :
  _parse_action text
  = json_loads match re_search_braces text with
               | Some json_match => json_match
               | None => text
               end.
Proof. unfold _parse_action. now destruct (re_search_braces text). Qed.

(** A text with an opening brace and a closing brace after it has a
    match. *)
Lemma re_search_braces_found (pre mid post : string) :
  exists m, re_search_braces (pre ++ String "{" (mid ++ String "}" post)) = Some m.
Proof.
  induction pre as [| a pre IH]; cbn.
  - destruct (upto_last "}" (mid ++ String "}" post)) as [p |] eqn:Hp;
      [eauto |].
    apply upto_last_none in Hp. now rewrite lacks_occurrence in Hp.
  - destruct (a =? "{")%char; [| exact IH].
    destruct (upto_last "}" (pre ++ String "{" (mid ++ String "}" post)))
      as [p |] eqn:Hp; [eauto |].
    apply upto_last_none in Hp.
    change (pre ++ String "{" (mid ++ String "}" post))
      with (pre ++ (String "{" mid) ++ String "}" post) in Hp.
    now rewrite str_app_assoc, lacks_occurrence in Hp.
Qed.

(** The parser agrees with the two attempts of the specification when an
    attempt is the decoding of an object. *)
Lemma parse_action_agrees (text : string) :
  (forall members,
      _parse_action text = Ok (JObj members)
      <-> spec_parse_action decode_object text = Ok (JObj members))
  /\ (_parse_action text = Raise JSONDecodeError ->
      spec_parse_action decode_object text = Raise JSONDecodeError).
Proof.
  assert (Hobject : forall s members,
            decode_object s = Some (JObj members) <-> json_loads s = Ok (JObj members)).
  { intros s members. unfold decode_object.
    destruct (json_loads s) as [[] | e]; split; congruence. }
  assert (Hnone : forall s, decode_object s = None ->
                            forall members, json_loads s <> Ok (JObj members)).
  { intros s Hs members Hloads. apply Hobject in Hloads. congruence. }
  assert (Hshape : forall s v, decode_object s = Some v -> exists members, v = JObj members).
  { intros s v. unfold decode_object.
    destruct (json_loads s) as [[] | e]; try discriminate. intros [= <-]. eauto. }
  unfold _parse_action, spec_parse_action.
  destruct (re_search_braces text) as [m |] eqn:Hm.
  - destruct (decode_object m) as [v |] eqn:Hfirst.
    + destruct (Hshape _ _ Hfirst) as [found ->].
      apply Hobject in Hfirst. rewrite Hfirst. split.
      * intros members. split; congruence.
      * discriminate.
    + assert (Hwhole : decode_object text = None).
      { destruct (decode_object text) as [v |] eqn:Hsecond; [| reflexivity].
        destruct (Hshape _ _ Hsecond) as [found ->].
        apply Hobject, json_loads_object in Hsecond as (m' & Hm' & Hloads).
        rewrite Hm in Hm'. injection Hm' as <-.
        now apply (Hnone _ Hfirst) in Hloads. }
      rewrite Hwhole. split.
      * intros members. split; [| discriminate].
        intros Hloads. now apply (Hnone _ Hfirst) in Hloads.
      * reflexivity.
  - destruct (decode_object text) as [v |] eqn:Hsecond.
    + destruct (Hshape _ _ Hsecond) as [found ->].
      apply Hobject in Hsecond. rewrite Hsecond. split.
      * intros members. split; congruence.
      * discriminate.
    + split.
      * intros members. split; [| discriminate].
        intros Hloads. now apply (Hnone _ Hsecond) in Hloads.
      * reflexivity.
Qed.


(** The decomposition at the first opening and the last closing brace
    determines the candidate. *)
Lemma parse_action_braces (pre mid post : string) :
  lacks "{" pre = true ->
  lacks "}" post = true ->
  _parse_action (pre ++ "{" ++ mid ++ "}" ++ post) = json_loads ("{" ++ mid ++ "}").
Proof.
  intros Hpre Hpost. unfold _parse_action. cbn [append].
  now rewrite re_search_braces_app.
Qed.

(** A plain text is read up to the closing quote, unchanged. *)
Lemma scanstring_plain (text rest : string) :
  plain_text text = true ->
  Json.scanstring (text ++ String dq rest) = Some (text, rest).
Proof.
  induction text as [| c text IH]; cbn [plain_text append]; intros Hplain.
  - reflexivity.
  - apply andb_true_iff in Hplain as [Hplain Htext].
    apply andb_true_iff in Hplain as [Hplain Hcontrol].
    apply andb_true_iff in Hplain as [Hquote Hslash].
    apply negb_true_iff in Hquote, Hslash, Hcontrol.
    cbn [Json.scanstring]. rewrite Hquote, Hslash, Hcontrol, (IH Htext).
    reflexivity.
Qed.

(** The final-answer object for a plain text decodes to that text. *)
Lemma parse_final_answer_reply (text : string) :
  plain_text text = true ->
  _parse_action (final_answer_reply text) = Ok (JObj [("final_answer", JStr text)]).
Proof.
  intros Hplain.
  assert (Hshape : final_answer_reply text
                   = "" ++ "{" ++ (quoted "final_answer" ++ ": " ++ chr dq ++ text
                                   ++ chr dq) ++ "}" ++ "").
  { reflexivity. }
  rewrite Hshape at 1. rewrite parse_action_braces by reflexivity.
  unfold json_loads, Json.decode.
  set (s := "{" ++ _ ++ "}").
  assert (Hfuel : exists k, 2 * String.length s + 2 = S (S (S k))).
  { exists (2 * String.length s - 1). subst s. cbn [append String.length]. lia. }
  destruct Hfuel as [k ->]. subst s. unfold quoted. cbn [append chr].
  rewrite <- str_app_assoc. cbn [append].
  cbn. rewrite (scanstring_plain text "}" Hplain). reflexivity.
Qed.

End Actions.

(** ** The loop *)

Section Loop.

Context `{Interpreter} {B : Type}.
Implicit Types (self : Agent B) (st : run_state B).

Lemma dict_mem_get {V} (k : string) (d : dict V) (v : V) :
  dict_get k d = Some v -> dict_mem k d = true.
Proof. unfold dict_mem. now intros ->. Qed.

Lemma dict_mem_none {V} (k : string) (d : dict V) :
  dict_get k d = None -> dict_mem k d = false.
Proof. unfold dict_mem. now intros ->. Qed.

(** One iteration, once the provider has replied. *)
Lemma iteration_reply self st response b :
  generate (llm_provider self) (backend st) (messages st) = (Ok response, b) ->
  iteration self st =
  match _parse_action response with
  | Ok action => dispatch self action (after_call st b response [])
  | Raise JSONDecodeError => (Ok None, after_call st b response [corrective])
  | Raise e => (Raise e, after_call st b response [])
  end.
Proof.
  intros Hgen. unfold iteration, bind, call_generate, try_parse_action.
  rewrite Hgen. cbn.
  destruct (_parse_action response) as [action | []]; cbn;
    unfold after_call; cbn; rewrite <- ?app_assoc; reflexivity.
Qed.

(** A failing provider ends the iteration with its exception. *)
Lemma iteration_failure self st e b :
  generate (llm_provider self) (backend st) (messages st) = (Raise e, b) ->
  exists st', iteration self st = (Raise e, st').
Proof.
  intros Hgen. unfold iteration, bind, call_generate. rewrite Hgen.
  eexists. reflexivity.
Qed.

Lemma for_range_step (n : nat) (body : M B (option json)) st :
  for_range (S n) body st =
  match body st with
  | (Ok (Some v), st') => (Ok (Some v), st')
  | (Ok None, st') => for_range n body st'
  | (Raise e, st') => (Raise e, st')
  end.
Proof.
  cbn. unfold bind. destruct (body st) as [[[v |] | e] st']; reflexivity.
Qed.

Lemma run_loop_step self (n : nat) st :
  run_loop self (S n) st =
  match iteration self st with
  | (Ok (Some v), st') => (Ok v, st')
  | (Ok None, st') => run_loop self n st'
  | (Raise e, st') => (Raise e, st')
  end.
Proof.
  unfold run_loop at 1. unfold bind. rewrite for_range_step.
  destruct (iteration self st) as [[[v |] | e] st']; reflexivity.
Qed.

Lemma run_loop_exhausted self st :
  run_loop self 0 st = (Raise (budget_exceeded (max_iterations self)), st).
Proof. reflexivity. Qed.

(** The branches of the dispatch on an object. *)
Lemma dispatch_final_answer self st d answer :
  dict_get "final_answer" d = Some answer ->
  dispatch self (JObj d) st = (Ok (Some answer), st).
Proof.
  intros Hfinal. unfold dispatch, bind, lift. cbn.
  rewrite (dict_mem_get _ _ _ Hfinal), Hfinal. reflexivity.
Qed.

Lemma dispatch_unknown_tool self st d tool_name :
  dict_get "final_answer" d = None ->
  dict_get "tool" d = Some (JStr tool_name) ->
  dict_get tool_name (tools self) = None ->
  dispatch self (JObj d) st =
  (Ok None,
   {| messages := messages st ++ [user ("Unknown tool: " ++ tool_name)];
      backend := backend st;
      generate_calls := generate_calls st;
      execute_calls := execute_calls st |}).
Proof.
  intros Hfinal Htool Hunknown. unfold dispatch, bind, lift. cbn.
  rewrite (dict_mem_none _ _ Hfinal), (dict_mem_get _ _ _ Htool), Htool. cbn.
  rewrite (dict_mem_none _ _ Hunknown). reflexivity.
Qed.

Lemma dispatch_known_tool self st d tool_name tool kwargs :
  dict_get "final_answer" d = None ->
  dict_get "tool" d = Some (JStr tool_name) ->
  dict_get tool_name (tools self) = Some tool ->
  kwargs_of d = Some kwargs ->
  dispatch self (JObj d) st =
  let observed text :=
    {| messages := messages st ++ [user text];
       backend := backend st;
       generate_calls := generate_calls st;
       execute_calls := execute_calls st ++ [(tool_name, kwargs)] |} in
  match execute tool kwargs with
  | Returns rendered => (Ok None, observed ("Tool result: " ++ rendered))
  | Raises _ msg => (Ok None, observed ("Tool error: " ++ msg))
  | Aborts cls msg => (Raise (OtherException cls msg), after_execute st tool_name kwargs)
  end.
Proof.
  intros Hfinal Htool Hknown Hargs. unfold dispatch, bind, lift. cbn.
  rewrite (dict_mem_none _ _ Hfinal), (dict_mem_get _ _ _ Htool), Htool. cbn.
  rewrite (dict_mem_get _ _ _ Hknown). cbn.
  unfold try_execute. rewrite Hknown.
  unfold kwargs_of in Hargs.
  destruct (dict_get "arguments" d) as [[] |]; try discriminate;
    injection Hargs as <-; destruct (execute tool _); reflexivity.
Qed.

(** One iteration on a request for a registered tool: the observation,
    or the exception that [except Exception] lets pass. *)
Lemma run_loop_known_tool self st (n : nat) response b d tool_name tool kwargs :
  generate (llm_provider self) (backend st) (messages st) = (Ok response, b) ->
  _parse_action response = Ok (JObj d) ->
  dict_get "final_answer" d = None ->
  dict_get "tool" d = Some (JStr tool_name) ->
  dict_get tool_name (tools self) = Some tool ->
  kwargs_of d = Some kwargs ->
  run_loop self (S n) st =
  match execute tool kwargs with
  | Returns rendered =>
    run_loop self n
      (after_execute (after_call st b response [user ("Tool result: " ++ rendered)])
                     tool_name kwargs)
  | Raises _ msg =>
    run_loop self n
      (after_execute (after_call st b response [user ("Tool error: " ++ msg)])
                     tool_name kwargs)
  | Aborts cls msg =>
    (Raise (OtherException cls msg),
     after_execute (after_call st b response []) tool_name kwargs)
  end.
Proof.
  intros Hgen Hparse Hfinal Htool Hknown Hargs.
  rewrite run_loop_step, (iteration_reply _ _ _ _ Hgen), Hparse.
  rewrite (dispatch_known_tool _ _ _ _ _ _ Hfinal Htool Hknown Hargs).
  destruct (execute tool kwargs); unfold after_execute, after_call; cbn;
    now rewrite <- ?app_assoc.
Qed.

End Loop.

(** ** Malformed replies *)

Section Malformed.

Context `{Interpreter} {B : Type}.
Implicit Types (self : Agent B) (st : run_state B).

Lemma corrected_conversation_cons (start : list message) response replies :
  corrected_conversation start (response :: replies) =
  corrected_conversation (start ++ [assistant response; corrective]) replies.
Proof. unfold corrected_conversation. cbn. now rewrite <- app_assoc. Qed.

Lemma corrected_calls_succ (start : list message) response replies (n : nat) :
  corrected_calls start (response :: replies) (S n) =
  start :: corrected_calls (start ++ [assistant response; corrective]) replies n.
Proof.
  unfold corrected_calls. cbn [seq map firstn].
  f_equal.
  - unfold corrected_conversation. cbn. apply app_nil_r.
  - rewrite <- seq_shift, map_map. apply map_ext. intros k.
    cbn [firstn]. apply corrected_conversation_cons.
Qed.

Lemma count_corrective_replies (replies : list string) :
  count_corrective (flat_map (fun r => [assistant r; corrective]) replies)
  = List.length replies.
Proof.
  unfold count_corrective.
  induction replies as [| r replies IH]; cbn; [reflexivity | now rewrite IH].
Qed.

(** A malformed reply costs one iteration and adds the corrective
    message. *)
Lemma run_loop_malformed_step self st response b (n : nat) :
  generate (llm_provider self) (backend st) (messages st) = (Ok response, b) ->
  _parse_action response = Raise JSONDecodeError ->
  run_loop self (S n) st = run_loop self n (after_call st b response [corrective]).
Proof.
  intros Hgen Hparse.
  rewrite run_loop_step, (iteration_reply _ _ _ _ Hgen), Hparse. reflexivity.
Qed.

Lemma run_loop_always_malformed self :
  always_malformed (llm_provider self) ->
  forall (n : nat) st, exists replies b,
    List.length replies = n
    /\ Forall (fun r => _parse_action r = Raise JSONDecodeError) replies
    /\ run_loop self n st =
       (Raise (budget_exceeded (max_iterations self)),
        {| messages := corrected_conversation (messages st) replies;
           backend := b;
           generate_calls :=
             generate_calls st ++ corrected_calls (messages st) replies n;
           execute_calls := execute_calls st |}).
Proof.
  intros Hbad n. induction n as [| n IH]; intros st.
  - exists [], (backend st). repeat split; [constructor |].
    rewrite run_loop_exhausted. destruct st; unfold corrected_conversation; cbn.
    now rewrite !app_nil_r.
  - destruct (Hbad (backend st) (messages st)) as (response & b1 & Hgen & Hparse).
    destruct (IH (after_call st b1 response [corrective]))
      as (replies & b & Hlen & Hall & Hrun).
    exists (response :: replies), b. repeat split.
    + cbn. now rewrite Hlen.
    + now constructor.
    + rewrite (run_loop_malformed_step _ _ _ _ _ Hgen Hparse), Hrun.
      rewrite corrected_conversation_cons, corrected_calls_succ.
      unfold after_call; cbn [messages generate_calls execute_calls backend].
      now rewrite <- app_assoc.
Qed.

(** Malformed replies to the calls that the run makes: each costs one
    iteration. *)
Lemma run_loop_malformed_replies self (replies : list string) :
  forall st b (n : nat),
    malformed_replies (llm_provider self) (messages st) replies (backend st) b ->
    run_loop self (List.length replies + n) st =
    run_loop self n
      {| messages := corrected_conversation (messages st) replies;
         backend := b;
         generate_calls :=
           generate_calls st
           ++ corrected_calls (messages st) replies (List.length replies);
         execute_calls := execute_calls st |}.
Proof.
  induction replies as [| response replies IH]; intros st b n Hreplies.
  - cbn in Hreplies. subst b. destruct st; unfold corrected_conversation; cbn.
    now rewrite !app_nil_r.
  - destruct Hreplies as (b1 & Hgen & Hparse & Hrest).
    cbn [List.length Nat.add].
    rewrite (run_loop_malformed_step _ _ _ _ _ Hgen Hparse).
    rewrite (IH (after_call st b1 response [corrective]) b n Hrest).
    rewrite corrected_conversation_cons, corrected_calls_succ.
    unfold after_call; cbn [messages generate_calls execute_calls backend].
    now rewrite <- app_assoc.
Qed.

End Malformed.

(** ** The run *)

Section Run.

Context `{Interpreter} {B : Type}.
Implicit Types (self : Agent B) (st : run_state B).

Lemma corrected_calls_length (start : list message) replies (n : nat) :
  List.length (corrected_calls start replies n) = n.
Proof. unfold corrected_calls. now rewrite length_map, length_seq. Qed.

Lemma skipn_corrected self task replies :
  skipn 2 (corrected_conversation (initial_messages self task) replies)
  = flat_map (fun r => [assistant r; corrective]) replies.
Proof. reflexivity. Qed.

Lemma skipn_corrected_app self task replies (more : list message) :
  skipn 2 (corrected_conversation (initial_messages self task) replies ++ more)%list
  = (flat_map (fun r => [assistant r; corrective]) replies ++ more)%list.
Proof. reflexivity. Qed.

Lemma run_loop_final_answer self st (n : nat) response b d answer :
  generate (llm_provider self) (backend st) (messages st) = (Ok response, b) ->
  _parse_action response = Ok (JObj d) ->
  dict_get "final_answer" d = Some answer ->
  run_loop self (S n) st = (Ok answer, after_call st b response []).
Proof.
  intros Hgen Hparse Hfinal.
  rewrite run_loop_step, (iteration_reply _ _ _ _ Hgen), Hparse.
  now rewrite (dispatch_final_answer _ _ _ _ Hfinal).
Qed.

(** A decoded value that is no container makes the first membership test
    of the dispatch raise. *)
Lemma dispatch_not_a_container self st (action : json) :
  not_a_container action = true ->
  dispatch self action st = (Raise TypeError, st).
Proof. destruct action; cbn; intros Hshape; (discriminate || reflexivity). Qed.

(** A decoded list that holds neither key as an element gets the request
    to name a tool or give an answer. *)
Lemma dispatch_list_without_keys self st (items : list json) :
  existsb (is_str "final_answer") items = false ->
  existsb (is_str "tool") items = false ->
  dispatch self (JList items) st =
  (Ok None,
   {| messages := messages st ++
        [user "Please specify a tool to use or provide a final_answer."];
      backend := backend st;
      generate_calls := generate_calls st;
      execute_calls := execute_calls st |}).
Proof.
  intros Hfinal Htool. unfold dispatch, bind, lift. cbn.
  rewrite Hfinal, Htool. reflexivity.
Qed.

(** An error of the provider leaves [run] as it is. *)
Lemma provider_failure_ends_run self st (n : nat) e b :
  generate (llm_provider self) (backend st) (messages st) = (Raise e, b) ->
  exists st', run_loop self (S n) st = (Raise e, st').
Proof.
  intros Hgen. destruct (iteration_failure _ _ _ _ Hgen) as [st' Hiter].
  exists st'. now rewrite run_loop_step, Hiter.
Qed.

(** A [tool] member that cannot be hashed, a list or an object, makes the
    lookup in the registry raise. *)
Lemma unhashable_tool_raises self st (n : nat) response b d tool_field :
  generate (llm_provider self) (backend st) (messages st) = (Ok response, b) ->
  _parse_action response = Ok (JObj d) ->
  dict_get "final_answer" d = None ->
  dict_get "tool" d = Some tool_field ->
  tools_contains (tools self) tool_field = Raise TypeError ->
  run_loop self (S n) st = (Raise TypeError, after_call st b response []).
Proof.
  intros Hgen Hparse Hfinal Htool Hhash.
  rewrite run_loop_step, (iteration_reply _ _ _ _ Hgen), Hparse.
  unfold dispatch, bind, lift. cbn.
  rewrite (dict_mem_none _ _ Hfinal), (dict_mem_get _ _ _ Htool), Htool. cbn.
  now rewrite Hhash.
Qed.


(** C5.  When the budget is positive and the provider answers the first
    call with the final-answer object for a plain text [X], [run] returns
    the string [X] and [generate] has been called once, with the initial
    conversation. *)
Theorem final_answer_on_first_call self task b b' (X : string) :
  plain_text X = true ->
  (0 < max_iterations self)%Z ->
  generate (llm_provider self) b (initial_messages self task)
    = (Ok (final_answer_reply X), b') ->
  run self task b
    = (Ok (JStr X),
       after_call (initial_state self task b) b' (final_answer_reply X) [])
  /\ generate_calls (snd (run self task b)) = [initial_messages self task].
Proof.
  intros Hplain Hbudget Hgen. unfold run.
  destruct (Z.to_nat (max_iterations self)) as [| n] eqn:Hn; [lia |].
  rewrite (run_loop_final_answer self (initial_state self task b) n
             (final_answer_reply X) b' [("final_answer", JStr X)] (JStr X));
    [split; reflexivity | exact Hgen | | reflexivity].
  now apply parse_final_answer_reply.
Qed.


(** C4.  When the decoded object has both a [tool] and a [final_answer]
    member, the iteration returns the value of [final_answer]: [run] ends
    with it, after the reply has been appended, and no tool has been
    executed. *)
Theorem final_answer_takes_precedence self st (n : nat) response b d answer tool_field :
  generate (llm_provider self) (backend st) (messages st) = (Ok response, b) ->
  _parse_action response = Ok (JObj d) ->
  dict_get "tool" d = Some tool_field ->
  dict_get "final_answer" d = Some answer ->
  run_loop self (S n) st = (Ok answer, after_call st b response [])
  /\ execute_calls (snd (run_loop self (S n) st)) = execute_calls st.
Proof.
  intros Hgen Hparse _ Hfinal.
  rewrite (run_loop_final_answer _ _ _ _ _ _ _ Hgen Hparse Hfinal).
  split; reflexivity.
Qed.

(** C7.  When the decoded object has no [final_answer] and its [tool]
    member is not a key of the registry, the iteration appends the user
    message [Unknown tool: ] followed by the name, executes no tool, and
    the loop goes on with the iterations left; a valid final answer at
    the next call is then returned by [run]. *)
Theorem unknown_tool_is_reported self st (n : nat) response b d tool_field :
  generate (llm_provider self) (backend st) (messages st) = (Ok response, b) ->
  _parse_action response = Ok (JObj d) ->
  dict_get "final_answer" d = None ->
  dict_get "tool" d = Some tool_field ->
  tools_contains (tools self) tool_field = Ok false ->
  let st' := after_call st b response [user ("Unknown tool: " ++ py_str tool_field)] in
  run_loop self (S n) st = run_loop self n st'
  /\ forall final answer b',
       gives_final_answer (llm_provider self) final answer b b' ->
       run_loop self (S (S n)) st = (Ok answer, after_call st' b' final []).
Proof.
  intros Hgen Hparse Hfinal Htool Hunknown st'.
  assert (Hstep : forall m, run_loop self (S m) st = run_loop self m st').
  { intros m. rewrite run_loop_step, (iteration_reply _ _ _ _ Hgen), Hparse.
    unfold dispatch, bind, lift. cbn.
    rewrite (dict_mem_none _ _ Hfinal), (dict_mem_get _ _ _ Htool), Htool. cbn.
    rewrite Hunknown. cbn. unfold st', after_call. cbn.
    now rewrite <- app_assoc. }
  split; [apply Hstep |].
  intros final answer b' (Hgen' & d' & Hparse' & Hfinal').
  rewrite Hstep.
  apply (run_loop_final_answer self st' n final b' d' answer);
    [apply Hgen' | exact Hparse' | exact Hfinal'].
Qed.


(** C1 (what the code does).  When the reply decodes to [None], a
    boolean or a number, the membership test on it raises [TypeError],
    and the exception leaves [run]: the run ends in that iteration with
    an exception that is neither the budget error nor an error of the
    provider. *)
Theorem scalar_reply_raises_type_error self st (n : nat) response b action :
  generate (llm_provider self) (backend st) (messages st) = (Ok response, b) ->
  _parse_action response = Ok action ->
  not_a_container action = true ->
  run_loop self (S n) st = (Raise TypeError, after_call st b response []).
Proof.
  intros Hgen Hparse Hshape.
  rewrite run_loop_step, (iteration_reply _ _ _ _ Hgen), Hparse.
  now rewrite dispatch_not_a_container.
Qed.

End Run.

(** ** The system prompt *)

Section SystemPrompt.

Lemma dict_set_fresh {V} (k : string) (v : V) (d : dict V) :
  ~ In k (dict_keys d) -> dict_set k v d = (d ++ [(k, v)])%list.
Proof.
  induction d as [| [k' v'] d IH]; cbn; intros Hfresh; [reflexivity |].
  destruct (String.eqb_spec k' k) as [-> | _]; [tauto |].
  rewrite IH; tauto.
Qed.

(** Tools with distinct names are registered in the order of the list. *)
Lemma registry_of_distinct (tool_list : list Tool) :
  forall d : dict Tool,
    NoDup (map name tool_list) ->
    (forall t, In t tool_list -> ~ In (name t) (dict_keys d)) ->
    fold_left (fun d t => dict_set (name t) t d) tool_list d
    = (d ++ map (fun t => (name t, t)) tool_list)%list.
Proof.
  induction tool_list as [| tool rest IH]; intros d Hdistinct Hfresh; cbn.
  - now rewrite app_nil_r.
  - cbn in Hdistinct. apply NoDup_cons_iff in Hdistinct as [Hhead Hrest].
    rewrite dict_set_fresh by (apply Hfresh; now left).
    rewrite IH; [now rewrite <- app_assoc | exact Hrest |].
    intros t Ht. unfold dict_keys. rewrite map_app, in_app_iff. cbn.
    intros [Hin | [Heq | []]].
    + apply (Hfresh t); [now right | exact Hin].
    + apply Hhead. rewrite Heq. now apply in_map.
Qed.

Lemma registry_values (tool_list : list Tool) :
  NoDup (map name tool_list) ->
  forall B (llm : LLMProvider B) (max_iter : Z),
    dict_values (tools (Agent_init llm tool_list max_iter)) = tool_list.
Proof.
  intros Hdistinct B llm max_iter. cbn.
  rewrite registry_of_distinct by (assumption || (intros ? ? [])).
  unfold dict_values. cbn. rewrite map_map. cbn. apply map_id.
Qed.

(** C9.  For tools with pairwise distinct names, the system prompt is the
    fixed header, one line [- name: description] per tool in the order of
    the list, the lines joined by line feeds, and the fixed instructions,
    which show the tool-invocation object and the final-answer object; it
    is the content of the system message that opens the conversation. *)
Theorem system_prompt_enumerates_tools {B} (llm : LLMProvider B)
    (tool_list : list Tool) (max_iter : Z) (task : string) :
  NoDup (map name tool_list) ->
  let self := Agent_init llm tool_list max_iter in
  _create_system_prompt self
  = prompt_header
    ++ join (chr nl)
         (map (fun tool => "- " ++ name tool ++ ": " ++ description tool) tool_list)
    ++ prompt_instructions
  /\ initial_messages self task = [system (_create_system_prompt self); user task]
  /\ str_contains
       ("{" ++ quoted "tool" ++ ": " ++ quoted "tool_name" ++ ", "
        ++ quoted "arguments" ++ ": {")
       prompt_instructions = true
  /\ str_contains ("{" ++ quoted "final_answer" ++ ": ") prompt_instructions = true.
Proof.
  intros Hdistinct self. repeat split.
  unfold _create_system_prompt, _format_tools_description, self.
  now rewrite registry_values.
Qed.

End SystemPrompt.

(** ** The verification tool *)

Section Calculator.

Context `{Evaluator}.


End Calculator.


(** ** Every iteration *)

Section Iterations.

Context `{Interpreter} {B : Type}.
Implicit Types (self : Agent B) (st : run_state B).
Local Open Scope list_scope.

Lemma parse_action_raises_only (response : string) (e : exn) :
  _parse_action response = Raise e -> e = JSONDecodeError \/ decoder_limit e.
Proof.
  rewrite parse_action_candidate. apply json_loads_raises.
Qed.

(** What the dispatch does to the state, whatever the decoded value. *)
Lemma dispatch_outcomes self (action : json) st :
  match dispatch self action st with
  | (Ok None, st') =>
    backend st' = backend st
    /\ generate_calls st' = generate_calls st
    /\ (exists observation, messages st' = messages st ++ [user observation])
    /\ (exists extra, execute_calls st' = execute_calls st ++ extra
                      /\ List.length extra <= 1)
  | (Ok (Some v), st') =>
    st' = st /\ exists d, action = JObj d /\ dict_get "final_answer" d = Some v
  | (Raise e, st') =>
    backend st' = backend st
    /\ generate_calls st' = generate_calls st
    /\ messages st' = messages st
    /\ (exists extra, execute_calls st' = execute_calls st ++ extra
                      /\ List.length extra <= 1)
    /\ (e = TypeError \/ tool_abort self e)
  end.
Proof.
  assert (Hnone : forall (xs : list (string * dict json)),
             exists extra, xs = xs ++ extra /\ List.length extra <= 1).
  { intros xs. exists []. rewrite app_nil_r. cbn. auto. }
  assert (Hone : forall (xs : list (string * dict json)) x,
             exists extra, xs ++ [x] = xs ++ extra /\ List.length extra <= 1).
  { intros xs x. exists [x]. cbn. auto. }
  unfold dispatch, bind, lift, messages_append, continue_, return_, ret.
  destruct action as [| flag | n | lexeme | s | items | d]; cbn;
    try (repeat split; auto; fail).
  - destruct (str_contains "final_answer" s); cbn; [repeat split; auto |].
    destruct (str_contains "tool" s); cbn; [repeat split; auto |].
    repeat split; eauto.
  - destruct (existsb (is_str "final_answer") items); cbn; [repeat split; auto |].
    destruct (existsb (is_str "tool") items); cbn; [repeat split; auto |].
    repeat split; eauto.
  - unfold dict_mem.
    destruct (dict_get "final_answer" d) as [answer |] eqn:Hfinal; cbn.
    { split; [reflexivity | eauto]. }
    destruct (dict_get "tool" d) as [tool_name |] eqn:Htool; cbn;
      [| repeat split; eauto].
    destruct (tools_contains (tools self) tool_name) as [[|] | e] eqn:Hknown; cbn.
    + unfold try_execute.
      destruct tool_name as [| | | | name | |]; cbn in Hknown; try discriminate.
      destruct (dict_get name (tools self)) as [tool |] eqn:Htable;
        [| cbn; repeat split; eauto].
      destruct (dict_get "arguments" d) as [[| | | | | | kwargs] |]; cbn;
        try (destruct (execute tool _) as [rendered | cls msg | cls msg] eqn:Hcall);
        cbn; repeat split; eauto;
        right; exists name, tool; eauto 6.
    + repeat split; eauto.
    + repeat split; auto. left.
      destruct tool_name; cbn in Hknown; congruence.
Qed.

(** One iteration: one more call to [generate], at most one to
    [execute]; it goes on with two more messages, returns an answer that
    the last reply holds, or raises: what the provider raised, before
    anything is appended, or, after the reply, a [TypeError], an
    exception of the decoder other than the decoding error, or an
    exception outside [Exception] that a tool raised. *)
Lemma iteration_outcomes self st :
  generate_calls (snd (iteration self st)) = generate_calls st ++ [messages st]
  /\ (exists extra,
        execute_calls (snd (iteration self st)) = execute_calls st ++ extra
        /\ List.length extra <= 1)
  /\ match fst (iteration self st) with
     | Ok None =>
       exists response observation,
         messages (snd (iteration self st))
         = messages st ++ [assistant response; user observation]
     | Ok (Some v) =>
       exists response d,
         messages (snd (iteration self st)) = messages st ++ [assistant response]
         /\ _parse_action response = Ok (JObj d)
         /\ dict_get "final_answer" d = Some v
     | Raise e =>
       (exists b, generate (llm_provider self) (backend st) (messages st) = (Raise e, b)
                  /\ messages (snd (iteration self st)) = messages st)
       \/ ((e = TypeError \/ decoder_limit e \/ tool_abort self e)
           /\ exists response,
                messages (snd (iteration self st)) = messages st ++ [assistant response])
     end.
Proof.
  assert (Hnone : forall (xs : list (string * dict json)),
             exists extra, xs = xs ++ extra /\ List.length extra <= 1).
  { intros xs. exists []. rewrite app_nil_r. cbn. auto. }
  destruct (generate (llm_provider self) (backend st) (messages st))
    as [[response | e] b] eqn:Hgen.
  2:{ unfold iteration, bind, call_generate. rewrite Hgen. cbn.
      split; [reflexivity |]. split; [apply Hnone |]. left.
      exists b. split; reflexivity. }
  rewrite (iteration_reply _ _ _ _ Hgen).
  destruct (_parse_action response) as [action | e] eqn:Hparse.
  - pose proof (dispatch_outcomes self action (after_call st b response [])) as Hd.
    destruct (dispatch self action (after_call st b response []))
      as [[[v |] | e] st'].
    + destruct Hd as (-> & d & -> & Hfinal). cbn.
      split; [reflexivity |]. split; [apply Hnone |].
      exists response, d. repeat split; assumption.
    + destruct Hd as (_ & Hcalls & (observation & Hmsgs) & Hexec).
      cbn [fst snd]. split; [exact Hcalls |]. split; [exact Hexec |].
      exists response, observation. rewrite Hmsgs. cbn.
      now rewrite <- app_assoc.
    + destruct Hd as (_ & Hcalls & Hmsgs & Hexec & Hcause).
      cbn [fst snd]. split; [exact Hcalls |]. split; [exact Hexec |]. right.
      split; [tauto |]. exists response. rewrite Hmsgs. reflexivity.
  - destruct (parse_action_raises_only _ _ Hparse) as [-> | Hlimit].
    + cbn. split; [reflexivity |]. split; [apply Hnone |].
      now exists response, (content corrective).
    + assert (Hother : e <> JSONDecodeError).
      { destruct Hlimit as [(digits & _ & ->) | (opening & ->)]; discriminate. }
      destruct e; try congruence; cbn;
        (split; [reflexivity |]); (split; [apply Hnone |]); right;
        (split; [tauto |]); now exists response.
Qed.

End Iterations.

(** ** Every run *)

Section Runs.

Context `{Interpreter} {B : Type}.
Implicit Types (self : Agent B) (st : run_state B).

(** How a run from any state ends: the loop runs out after [n] calls and
    [2 * n] more messages, or an answer is returned, or an exception
    leaves it from inside an iteration: a [TypeError], an exception of the
    decoder, an exception outside [Exception] of a tool, or an exception
    of the provider. *)
Lemma run_loop_outcomes self (n : nat) :
  forall st,
    (fst (run_loop self n st) = Raise (budget_exceeded (max_iterations self))
     /\ List.length (generate_calls (snd (run_loop self n st)))
        = List.length (generate_calls st) + n
     /\ List.length (messages (snd (run_loop self n st)))
        = List.length (messages st) + 2 * n)
    \/ (exists v, fst (run_loop self n st) = Ok v)
    \/ (exists e, fst (run_loop self n st) = Raise e
                  /\ (e = TypeError \/ decoder_limit e \/ tool_abort self e))
    \/ (exists e b conv b',
          fst (run_loop self n st) = Raise e
          /\ generate (llm_provider self) b conv = (Raise e, b')).
Proof.
  induction n as [| n IH]; intros st.
  - left. rewrite run_loop_exhausted. cbn. repeat split; lia.
  - rewrite run_loop_step.
    destruct (iteration_outcomes self st) as (Hcalls & _ & Hcase).
    destruct (iteration self st) as [[[v |] | e] st']; cbn [fst snd] in *.
    + right. left. now exists v.
    + destruct Hcase as (response & observation & Hmsgs).
      destruct (IH st') as [(Hend & Hgen & Hlen) | Hother].
      * left. split; [exact Hend |].
        rewrite Hgen, Hlen, Hcalls, Hmsgs, !length_app. cbn. lia.
      * right. exact Hother.
    + destruct Hcase as [(b & Hgen & _) | (Hcause & _)].
      * right. right. right. now exists e, (backend st), (messages st), b.
      * right. right. left. now exists e.
Qed.

(** A rule for properties of the final state: what holds of a state and
    is kept by an iteration that goes on holds when the run ends. *)
Lemma run_loop_invariant self (P : run_state B -> Prop)
    (Q : outcome json * run_state B -> Prop) :
  (forall st, P st -> Q (Raise (budget_exceeded (max_iterations self)), st)) ->
  (forall st, P st ->
     match iteration self st with
     | (Ok None, st') => P st'
     | (Ok (Some v), st') => Q (Ok v, st')
     | (Raise e, st') => Q (Raise e, st')
     end) ->
  forall (n : nat) st, P st -> Q (run_loop self n st).
Proof.
  intros Hend Hstep n. induction n as [| n IH]; intros st HP.
  - rewrite run_loop_exhausted. now apply Hend.
  - rewrite run_loop_step. specialize (Hstep st HP).
    destruct (iteration self st) as [[[v |] | e] st']; auto.
Qed.

(** X1.  An exception of the provider leaves [run] in the iteration of
    the call, unchanged: nothing is appended to the conversation and no
    further call is made. *)
Theorem provider_error_propagates self st (n : nat) e b :
  generate (llm_provider self) (backend st) (messages st) = (Raise e, b) ->
  run_loop self (S n) st =
  (Raise e,
   {| messages := messages st;
      backend := b;
      generate_calls := (generate_calls st ++ [messages st])%list;
      execute_calls := execute_calls st |}).
Proof.
  intros Hgen. rewrite run_loop_step.
  unfold iteration, bind, call_generate. now rewrite Hgen.
Qed.

(** X2.  When the decoded object asks for a registered tool and the
    tool returns, the rendering of the result is appended as the user
    message [Tool result: ...], the tool has been executed once with the
    keyword arguments of the object (none when [arguments] is absent),
    and the loop goes on. *)
Theorem tool_result_is_reported self st (n : nat) response b d tool_name tool
    kwargs rendered :
  generate (llm_provider self) (backend st) (messages st) = (Ok response, b) ->
  _parse_action response = Ok (JObj d) ->
  dict_get "final_answer" d = None ->
  dict_get "tool" d = Some (JStr tool_name) ->
  dict_get tool_name (tools self) = Some tool ->
  kwargs_of d = Some kwargs ->
  execute tool kwargs = Returns rendered ->
  run_loop self (S n) st =
  run_loop self n
    (after_execute (after_call st b response [user ("Tool result: " ++ rendered)])
                   tool_name kwargs).
Proof.
  intros Hgen Hparse Hfinal Htool Hknown Hargs Hreturn.
  rewrite run_loop_step, (iteration_reply _ _ _ _ Hgen), Hparse.
  rewrite (dispatch_known_tool _ _ _ _ _ _ Hfinal Htool Hknown Hargs), Hreturn.
  unfold after_execute, after_call. cbn. now rewrite <- app_assoc.
Qed.

(** X3.  A decoded object with neither [final_answer] nor [tool] gets
    the request to name a tool or give an answer, and the loop goes on;
    no tool is executed. *)
Theorem object_without_fields_is_prompted self st (n : nat) response b d :
  generate (llm_provider self) (backend st) (messages st) = (Ok response, b) ->
  _parse_action response = Ok (JObj d) ->
  dict_get "final_answer" d = None ->
  dict_get "tool" d = None ->
  run_loop self (S n) st =
  run_loop self n
    (after_call st b response
       [user "Please specify a tool to use or provide a final_answer."]).
Proof.
  intros Hgen Hparse Hfinal Htool.
  rewrite run_loop_step, (iteration_reply _ _ _ _ Hgen), Hparse.
  unfold dispatch, bind, lift. cbn.
  rewrite (dict_mem_none _ _ Hfinal), (dict_mem_none _ _ Htool). cbn.
  unfold after_call. cbn. now rewrite <- app_assoc.
Qed.

(** X4.  When [arguments] is present and is no object, the registered
    tool is not executed: unpacking raises inside [try], the message of
    that error is appended as [Tool error: ...], and the loop goes on. *)
Theorem bad_arguments_are_reported self st (n : nat) response b d tool_name tool
    tool_args :
  generate (llm_provider self) (backend st) (messages st) = (Ok response, b) ->
  _parse_action response = Ok (JObj d) ->
  dict_get "final_answer" d = None ->
  dict_get "tool" d = Some (JStr tool_name) ->
  dict_get tool_name (tools self) = Some tool ->
  dict_get "arguments" d = Some tool_args ->
  kwargs_of d = None ->
  run_loop self (S n) st =
  run_loop self n
    (after_call st b response [user ("Tool error: " ++ kwargs_error tool tool_args)]).
Proof.
  intros Hgen Hparse Hfinal Htool Hknown Hargs Hshape.
  rewrite run_loop_step, (iteration_reply _ _ _ _ Hgen), Hparse.
  unfold dispatch, bind, lift. cbn.
  rewrite (dict_mem_none _ _ Hfinal), (dict_mem_get _ _ _ Htool), Htool. cbn.
  rewrite (dict_mem_get _ _ _ Hknown). cbn.
  unfold try_execute. rewrite Hknown, Hargs.
  unfold kwargs_of in Hshape. rewrite Hargs in Hshape.
  destruct tool_args; try discriminate; cbn;
    unfold after_call; cbn; now rewrite <- app_assoc.
Qed.

(** X5.  With a budget of zero or less, [run] raises the budget error at
    once: the provider is not called and the conversation is the two
    initial messages. *)
Theorem no_budget_no_call self task b :
  (max_iterations self <= 0)%Z ->
  run self task b
  = (Raise (budget_exceeded (max_iterations self)), initial_state self task b).
Proof.
  intros Hbudget. unfold run.
  replace (Z.to_nat (max_iterations self)) with 0%nat by lia.
  apply run_loop_exhausted.
Qed.

Lemma run_loop_call_bound self (n : nat) :
  forall st,
    List.length (generate_calls (snd (run_loop self n st)))
      <= List.length (generate_calls st) + n
    /\ List.length (execute_calls (snd (run_loop self n st)))
         + List.length (generate_calls st)
       <= List.length (execute_calls st)
          + List.length (generate_calls (snd (run_loop self n st))).
Proof.
  induction n as [| n IH]; intros st.
  - rewrite run_loop_exhausted. cbn. lia.
  - rewrite run_loop_step.
    destruct (iteration_outcomes self st) as (Hcalls & (extra & Hexec & Hextra) & _).
    destruct (iteration self st) as [[[v |] | e] st']; cbn [fst snd] in *;
      try (rewrite Hcalls, Hexec, !length_app; cbn; lia).
    destruct (IH st') as [Hgen Hex].
    rewrite Hcalls, Hexec, !length_app in *. cbn in *. lia.
Qed.

(** X6.  Whatever the provider and the tools do, [run] calls [generate]
    at most [max_iterations] times, and executes at most one tool per
    call of [generate]. *)
Theorem calls_are_bounded self task b :
  List.length (generate_calls (snd (run self task b)))
    <= Z.to_nat (max_iterations self)
  /\ List.length (execute_calls (snd (run self task b)))
     <= List.length (generate_calls (snd (run self task b))).
Proof.
  unfold run.
  destruct (run_loop_call_bound self (Z.to_nat (max_iterations self))
              (initial_state self task b)) as [Hgen Hex].
  cbn in *. lia.
Qed.

(** X7.  The conversation only grows: every conversation given to
    [generate] starts with the two initial messages and is a prefix of
    the conversation at the end of the run. *)
Theorem conversation_is_append_only self task b :
  prefix_of (initial_messages self task) (messages (snd (run self task b)))
  /\ Forall (fun conversation =>
               prefix_of (initial_messages self task) conversation
               /\ prefix_of conversation (messages (snd (run self task b))))
            (generate_calls (snd (run self task b))).
Proof.
  unfold run.
  set (start := initial_messages self task).
  apply (run_loop_invariant self
           (fun st => prefix_of start (messages st)
                      /\ Forall (fun c => prefix_of start c
                                          /\ prefix_of c (messages st))
                                (generate_calls st))
           (fun r => prefix_of start (messages (snd r))
                     /\ Forall (fun c => prefix_of start c
                                         /\ prefix_of c (messages (snd r)))
                               (generate_calls (snd r)))).
  - intros st HP. exact HP.
  - intros st [Hstart Hcalls].
    assert (Hgrow : forall added,
              prefix_of start (messages st ++ added)
              /\ Forall (fun c => prefix_of start c
                                  /\ prefix_of c (messages st ++ added))
                        (generate_calls st ++ [messages st])).
    { intros added. split.
      - destruct Hstart as [rest ->]. exists (rest ++ added)%list.
        now rewrite app_assoc.
      - apply Forall_app. split.
        + eapply Forall_impl; [| exact Hcalls]. cbn.
          intros c [Hc [rest ->]]. split; [exact Hc |].
          exists (rest ++ added)%list. now rewrite app_assoc.
        + constructor; [| constructor]. split; [exact Hstart |]. now exists added. }
    destruct (iteration_outcomes self st) as (Hgen & _ & Hcase).
    destruct (iteration self st) as [[[v |] | e] st']; cbn [fst snd] in *;
      rewrite Hgen.
    + destruct Hcase as (response & d & -> & _). apply Hgrow.
    + destruct Hcase as (response & observation & ->). apply Hgrow.
    + destruct Hcase as [(b0 & _ & ->) | (_ & response & ->)].
      * pose proof (Hgrow []) as Hsame. now rewrite app_nil_r in Hsame.
      * apply Hgrow.
  - split; [exists []; now rewrite app_nil_r | constructor].
Qed.

(** X8.  Every conversation given to [generate] ends with a user
    message: the task at the first call, an observation or a corrective
    message afterwards. *)
Theorem calls_end_with_user_message self task b :
  Forall ends_with_user (generate_calls (snd (run self task b))).
Proof.
  unfold run.
  apply (run_loop_invariant self
           (fun st => ends_with_user (messages st)
                      /\ Forall ends_with_user (generate_calls st))
           (fun r => Forall ends_with_user (generate_calls (snd r)))).
  - intros st [_ Hcalls]. exact Hcalls.
  - intros st [Hlast Hcalls].
    assert (Hmore : Forall ends_with_user (generate_calls st ++ [messages st])).
    { apply Forall_app. split; [exact Hcalls | now constructor]. }
    destruct (iteration_outcomes self st) as (Hgen & _ & Hcase).
    destruct (iteration self st) as [[[v |] | e] st']; cbn [fst snd] in *;
      rewrite Hgen; try exact Hmore.
    split; [| exact Hmore].
    destruct Hcase as (response & observation & ->).
    exists (messages st ++ [assistant response])%list, observation.
    now rewrite <- app_assoc.
  - split; [| constructor].
    exists [system (_create_system_prompt self)], task. reflexivity.
Qed.

(** X9.  An answer that [run] returns is the [final_answer] member of
    the object decoded from the last reply, which is the last message of
    the conversation. *)
Theorem returned_answer_is_in_last_reply self task b (answer : json) :
  fst (run self task b) = Ok answer ->
  exists before response d,
    messages (snd (run self task b)) = (before ++ [assistant response])%list
    /\ _parse_action response = Ok (JObj d)
    /\ dict_get "final_answer" d = Some answer.
Proof.
  unfold run.
  apply (run_loop_invariant self (fun _ => True)
           (fun r => fst r = Ok answer ->
                     exists before response d,
                       messages (snd r) = (before ++ [assistant response])%list
                       /\ _parse_action response = Ok (JObj d)
                       /\ dict_get "final_answer" d = Some answer)).
  - intros st _. discriminate.
  - intros st _.
    destruct (iteration_outcomes self st) as (_ & _ & Hcase).
    destruct (iteration self st) as [[[v |] | e] st']; cbn [fst snd] in *;
      [| exact I | discriminate].
    intros [= ->]. destruct Hcase as (response & d & Hmsgs & Hparse & Hfinal).
    now exists (messages st), response, d.
  - exact I.
Qed.

(** X10.  With a provider that answers every call, a run that ends with
    the budget error has called [generate] as many times as the budget
    allows and its conversation holds the two initial messages and two
    messages per call. *)
Theorem budget_error_after_all_calls self task b :
  always_replies (llm_provider self) ->
  fst (run self task b) = Raise (budget_exceeded (max_iterations self)) ->
  List.length (generate_calls (snd (run self task b)))
    = Z.to_nat (max_iterations self)
  /\ List.length (messages (snd (run self task b)))
     = 2 + 2 * Z.to_nat (max_iterations self).
Proof.
  intros Hreplies Hend. unfold run in *.
  destruct (run_loop_outcomes self (Z.to_nat (max_iterations self))
              (initial_state self task b))
    as [(_ & Hgen & Hlen)
       | [[v Hv] | [(e & He & Hcause) | (e & b0 & conv & b1 & _ & Hraise)]]].
  - cbn in *. lia.
  - congruence.
  - rewrite Hend in He. injection He as <-. exfalso.
    destruct Hcause as [Htype | [[(digits & _ & Hvalue) | (opening & Hdepth)]
                                | (tool_name & tool & kwargs & cls & msg & _ & _ & Habort)]];
      discriminate.
  - destruct (Hreplies b0 conv) as (response & b2 & Hreply). congruence.
Qed.


Lemma exchanges_succ (k : nat) :
  (exchanges k ++ ["assistant"; "user"])%list = exchanges (S k).
Proof.
  unfold exchanges. induction k as [| k IH]; [reflexivity |].
  cbn [repeat concat]. rewrite <- app_assoc. now rewrite IH.
Qed.

(** X25.  The roles of the conversation at the end of a run: the system
    message, the task of the user, then replies of the assistant and user
    messages in turn; the last message is a reply of the assistant
    exactly when the run ended inside an iteration after the reply. *)
Theorem roles_alternate self task b :
  exists k,
    map role (messages (snd (run self task b)))
      = "system" :: "user" :: exchanges k
    \/ map role (messages (snd (run self task b)))
       = ("system" :: "user" :: exchanges k ++ ["assistant"])%list.
Proof.
  unfold run.
  apply (run_loop_invariant self
           (fun st => exists k, map role (messages st)
                                = "system" :: "user" :: exchanges k)
           (fun r => exists k,
                map role (messages (snd r)) = "system" :: "user" :: exchanges k
                \/ map role (messages (snd r))
                   = ("system" :: "user" :: exchanges k ++ ["assistant"])%list)).
  - intros st [k Hk]. exists k. now left.
  - intros st [k Hk].
    destruct (iteration_outcomes self st) as (_ & _ & Hcase).
    destruct (iteration self st) as [[[v |] | e] st']; cbn [fst snd] in *.
    + destruct Hcase as (response & d & -> & _). exists k. right.
      rewrite map_app, Hk. reflexivity.
    + destruct Hcase as (response & observation & ->). exists (S k).
      rewrite map_app, Hk. cbn [map role assistant user app].
      now rewrite <- exchanges_succ.
    + destruct Hcase as [(b0 & _ & ->) | (_ & response & ->)]; exists k.
      * now left.
      * right. rewrite map_app, Hk. reflexivity.
  - now exists 0%nat.
Qed.

End Runs.

(** ** The registry *)

Section Registry.

Lemma dict_get_set {V} (k k' : string) (v : V) (d : dict V) :
  dict_get k (dict_set k' v d) = if k' =? k then Some v else dict_get k d.
Proof.
  induction d as [| [k0 v0] d IH]; cbn.
  - reflexivity.
  - destruct (String.eqb_spec k0 k') as [-> | Hk0]; cbn.
    + now destruct (k' =? k).
    + rewrite IH. destruct (String.eqb_spec k0 k) as [-> | _]; [| reflexivity].
      apply String.eqb_neq in Hk0. rewrite String.eqb_sym in Hk0. now rewrite Hk0.
Qed.

Lemma dict_keys_set {V} (k : string) (v : V) (d : dict V) :
  forall k', In k' (dict_keys (dict_set k v d)) <-> k' = k \/ In k' (dict_keys d).
Proof.
  induction d as [| [k0 v0] d IH]; intros k'; cbn.
  - intuition auto.
  - destruct (String.eqb_spec k0 k) as [-> | _]; cbn; [intuition auto |].
    rewrite IH. intuition auto.
Qed.

(** Assignment keeps the keys of a dict distinct. *)
Lemma dict_set_NoDup {V} (k : string) (v : V) (d : dict V) :
  NoDup (dict_keys d) -> NoDup (dict_keys (dict_set k v d)).
Proof.
  induction d as [| [k0 v0] d IH]; cbn; intros Hd.
  - repeat constructor. intros [].
  - apply NoDup_cons_iff in Hd as [Hk0 Hd].
    destruct (String.eqb_spec k0 k) as [-> | Hne]; cbn.
    + now constructor.
    + constructor; [| now apply IH].
      fold (dict_keys (dict_set k v d)). rewrite dict_keys_set.
      intros [-> | Hin]; [now apply Hne | now apply Hk0].
Qed.

Lemma find_last {A} (p : A -> bool) (xs : list A) (x : A) :
  find p (xs ++ [x]) = match find p xs with
                       | Some y => Some y
                       | None => if p x then Some x else None
                       end.
Proof.
  induction xs as [| y xs IH]; cbn; [reflexivity |].
  now destruct (p y).
Qed.

Lemma registry_fold (tool_list : list Tool) (n : string) :
  forall d : dict Tool,
    dict_get n (fold_left (fun d t => dict_set (name t) t d) tool_list d)
    = match find (fun t => name t =? n) (rev tool_list) with
      | Some t => Some t
      | None => dict_get n d
      end.
Proof.
  induction tool_list as [| tool rest IH]; intros d; cbn; [reflexivity |].
  rewrite IH, find_last, dict_get_set.
  destruct (find (fun t => name t =? n) (rev rest)); [reflexivity |].
  now destruct (name tool =? n).
Qed.

Lemma registry_fold_NoDup (tool_list : list Tool) :
  forall d : dict Tool,
    NoDup (dict_keys d) ->
    NoDup (dict_keys (fold_left (fun d t => dict_set (name t) t d) tool_list d)).
Proof.
  induction tool_list as [| tool rest IH]; intros d Hd; cbn; [exact Hd |].
  apply IH. now apply dict_set_NoDup.
Qed.

(** X12.  The registry built by [Agent.__init__] has one entry per tool
    name; looking a name up gives the last tool of the list that has this
    name, and nothing when no tool of the list has it. *)
Theorem registry_keeps_last_tool {B} (llm : LLMProvider B)
    (tool_list : list Tool) (max_iter : Z) (n : string) :
  dict_get n (tools (Agent_init llm tool_list max_iter))
  = find (fun t => name t =? n) (rev tool_list)
  /\ NoDup (dict_keys (tools (Agent_init llm tool_list max_iter)))
  /\ (forall t, dict_get n (tools (Agent_init llm tool_list max_iter)) = Some t ->
                name t = n /\ In t tool_list).
Proof.
  assert (Hget : dict_get n (tools (Agent_init llm tool_list max_iter))
                 = find (fun t => name t =? n) (rev tool_list)).
  { cbn. rewrite registry_fold.
    now destruct (find (fun t => name t =? n) (rev tool_list)). }
  split; [exact Hget |]. split.
  - cbn. apply registry_fold_NoDup. constructor.
  - intros t Ht. rewrite Hget in Ht. apply find_some in Ht as [Hin Hname].
    split; [now apply String.eqb_eq | now apply in_rev].
Qed.

End Registry.

(** ** More of the parser *)

Section ParserEdges.

Context `{Interpreter} {B : Type}.
Implicit Types (self : Agent B) (st : run_state B).

(** X13.  Text before the first opening brace and after the last closing
    brace does not matter: the parser gives what it gives on the part
    between them alone. *)
Theorem prose_around_object_is_ignored (pre mid post : string) :
  lacks "{" pre = true ->
  lacks "}" post = true ->
  _parse_action (pre ++ "{" ++ mid ++ "}" ++ post)
  = _parse_action ("{" ++ mid ++ "}").
Proof.
  intros Hpre Hpost. rewrite (parse_action_braces pre mid post Hpre Hpost).
  symmetry. exact (parse_action_braces "" mid "" eq_refl eq_refl).
Qed.

Lemma only_whitespace_skipped (text : string) :
  only_whitespace text = true ->
  Json.skip_ws text = "" /\ re_search_braces text = None.
Proof.
  induction text as [| c text IH]; cbn; [auto |].
  intros Hws. apply andb_true_iff in Hws as [Hc Htext].
  destruct (IH Htext) as [Hskip Hsearch]. rewrite Hc. split; [exact Hskip |].
  destruct (Ascii.eqb_spec c "{") as [-> | _]; [discriminate | exact Hsearch].
Qed.

Lemma only_whitespace_is_malformed (text : string) :
  only_whitespace text = true -> _parse_action text = Raise JSONDecodeError.
Proof.
  intros Hws. destruct (only_whitespace_skipped text Hws) as [Hskip Hsearch].
  unfold _parse_action, json_loads, Json.decode.
  rewrite Hsearch, Hskip.
  now replace (2 * String.length text + 2) with (S (2 * String.length text + 1)) by lia.
Qed.

(** X14.  A reply that is empty or holds white space only is malformed:
    it costs an iteration and gets the corrective message. *)
Theorem blank_reply_is_malformed self st (n : nat) response b :
  generate (llm_provider self) (backend st) (messages st) = (Ok response, b) ->
  only_whitespace response = true ->
  _parse_action response = Raise JSONDecodeError
  /\ run_loop self (S n) st = run_loop self n (after_call st b response [corrective]).
Proof.
  intros Hgen Hws. pose proof (only_whitespace_is_malformed response Hws) as Hbad.
  split; [exact Hbad |]. now apply run_loop_malformed_step.
Qed.

End ParserEdges.

(** ** More of the calculator tools *)

Section CalculatorTools.

Context `{Interpreter} `{MathModule} {B : Type}.
Implicit Types (self : Agent B) (st : run_state B).


(** X16.  [VerifyCalculationTool.execute] answers [True] only for an
    expression that [eval] evaluates: exactly when the value and the
    expected value compare equal, or, if one of them is a float, when
    subtraction, [abs] and the comparison with the tolerance all return
    and the comparison holds. *)
Theorem verify_true_iff (expression : string) (expected : pyobj) :
  VerifyCalculationTool_execute expression expected = Returns (py_bool true)
  <-> exists actual,
        py_eval expression = Returns actual
        /\ if is_float actual || is_float expected
           then exists difference magnitude,
                  py_sub actual expected = Returns difference
                  /\ py_abs difference = Returns magnitude
                  /\ py_lt magnitude tolerance = Returns (py_bool true)
           else py_eq actual expected = Returns (py_bool true).
Proof.
  pose proof py_bool_distinct as Hdistinct.
  unfold VerifyCalculationTool_execute, verify_body, CalculatorTool_execute.
  destruct (py_eval expression) as [actual | cls msg | cls msg].
  2,3: split; [intros [= Hsame]; congruence | intros (actual & Habs & _); discriminate].
  destruct (is_float actual || is_float expected) eqn:Hfloat.
  - destruct (py_sub actual expected) as [difference | c1 m1 | c1 m1] eqn:Hsub.
    2,3: split; [intros [= Hsame]; congruence |];
      intros (a & [= <-] & Hcase); rewrite Hfloat in Hcase;
      destruct Hcase as (d' & m' & Hd & _); congruence.
    destruct (py_abs difference) as [magnitude | c2 m2 | c2 m2] eqn:Habs.
    2,3: split; [intros [= Hsame]; congruence |];
      intros (a & [= <-] & Hcase); rewrite Hfloat in Hcase;
      destruct Hcase as (d' & m' & Hd & Hm & _); congruence.
    split.
    + intros Hlt. exists actual. split; [reflexivity |]. rewrite Hfloat.
      exists difference, magnitude. repeat split; try assumption.
      destruct (py_lt magnitude tolerance) as [verdict | |]; congruence.
    + intros (a & [= <-] & Hcase). rewrite Hfloat in Hcase.
      destruct Hcase as (d' & m' & Hd & Hm & Hlt).
      assert (d' = difference) by congruence. subst d'.
      assert (m' = magnitude) by congruence. subst m'.
      now rewrite Hlt.
  - split.
    + intros Heq. exists actual. split; [reflexivity |]. rewrite Hfloat.
      destruct (py_eq actual expected) as [verdict | |]; congruence.
    + intros (a & [= <-] & Hcase). rewrite Hfloat in Hcase. now rewrite Hcase.
Qed.

(** X17.  A function name that is not in the table of
    [MathFunctionTool] is refused with a [ValueError] that names it and
    lists the thirteen names of the table; the value is not looked at. *)
Theorem unknown_math_function (function : string) (value : pyobj) :
  dict_mem function allowed_functions = false ->
  MathFunctionTool_execute function value
  = Raises "ValueError"
      ("Unknown function: " ++ function
       ++ ". Available: sqrt, sin, cos, tan, log, log10, exp, floor, ceil, "
       ++ "factorial, degrees, radians, abs").
Proof.
  intros Hunknown. unfold MathFunctionTool_execute. now rewrite Hunknown.
Qed.


(** X19.  The table accepts [abs], which the description of the tool
    does not list, and every other name of the table is in the
    description. *)
Theorem abs_is_accepted_not_described (value : pyobj) :
  MathFunctionTool_execute "abs" value
  = match py_abs value with
    | Returns result => Returns result
    | Raises _ msg =>
      Raises "ValueError"
        ("Error applying abs to " ++ obj_str value ++ ": " ++ msg)
    | Aborts cls msg => Aborts cls msg
    end
  /\ str_contains "abs" math_function_description = false
  /\ forallb (fun n => str_contains n math_function_description)
       (removelast (dict_keys allowed_functions)) = true
  /\ last (dict_keys allowed_functions) "" = "abs".
Proof. repeat split; reflexivity. Qed.

End CalculatorTools.

(** ** The provider *)

Section Provider.

Context `{Requests}.

(** X20.  [OpenRouterProvider.__init__]: a key that is given and not
    empty is taken, whatever the environment holds; otherwise the
    variable of the environment is; the provider is built with a key
    that is not empty, and [ValueError] is raised exactly when neither
    source has one. *)
Theorem provider_key_is_never_empty (environ : dict string) (key : option string)
    (model_name url : string) :
  (forall p, OpenRouterProvider_init environ key model_name url = Returns p ->
             api_key p <> "" /\ model p = model_name /\ base_url p = url
             /\ Some (api_key p)
                = if truthy key then key else dict_get "OPENROUTER_API_KEY" environ)
  /\ (forall cls msg,
        OpenRouterProvider_init environ key model_name url = Raises cls msg ->
        cls = "ValueError" /\ msg = missing_api_key)
  /\ ((exists cls msg,
         OpenRouterProvider_init environ key model_name url = Raises cls msg)
      <-> truthy key = false
          /\ truthy (dict_get "OPENROUTER_API_KEY" environ) = false).
Proof.
  unfold OpenRouterProvider_init.
  destruct key as [[| c k] |]; cbn [truthy];
    try (destruct (dict_get "OPENROUTER_API_KEY" environ) as [[| c' k'] |]);
    cbn [truthy]; (split; [| split]);
    try (intros p [= <-]; cbn; repeat split; discriminate);
    try (intros cls msg [= <- <-]; split; reflexivity);
    try discriminate;
    try (split; [intros _; split; reflexivity | intros _; eauto]);
    try (split; [intros (cls & msg & Habs); discriminate
                | intros [Ha Hb]; discriminate]).
Qed.

(** X21.  [generate] returns no text from a failed exchange: an
    exception of the transport, or of [raise_for_status] on the response,
    leaves [generate] as it is, whatever the body of the response. *)
Theorem generate_propagates_errors (self : OpenRouterProvider)
    (conversation : list message) (temperature max_tokens : json)
    (kwargs : dict json) (e : exn) :
  (post (base_url self ++ "/chat/completions") (request_headers self)
        (JObj (request_data self conversation temperature max_tokens kwargs)) 30
   = Raise e
   \/ exists response,
        post (base_url self ++ "/chat/completions") (request_headers self)
             (JObj (request_data self conversation temperature max_tokens kwargs)) 30
        = Ok response
        /\ raise_for_status response = Raise e) ->
  OpenRouterProvider_generate self conversation temperature max_tokens kwargs
  = Raise e.
Proof.
  unfold OpenRouterProvider_generate.
  intros [-> | (response & -> & Hstatus)]; cbn; [reflexivity |].
  now rewrite Hstatus.
Qed.

(** X22.  On a response that passes [raise_for_status] and whose body
    is an object with a non-empty list [choices], [generate] returns the
    [content] of the [message] of the first choice. *)
Theorem generate_returns_first_choice (self : OpenRouterProvider)
    (conversation : list message) (temperature max_tokens : json)
    (kwargs : dict json) response body choice others reply text :
  post (base_url self ++ "/chat/completions") (request_headers self)
       (JObj (request_data self conversation temperature max_tokens kwargs)) 30
  = Ok response ->
  raise_for_status response = Ok tt ->
  response_json response = Ok (JObj body) ->
  dict_get "choices" body = Some (JList (JObj choice :: others)) ->
  dict_get "message" choice = Some (JObj reply) ->
  dict_get "content" reply = Some text ->
  OpenRouterProvider_generate self conversation temperature max_tokens kwargs
  = Ok text.
Proof.
  intros Hpost Hstatus Hbody Hchoices Hmessage Hcontent.
  unfold OpenRouterProvider_generate.
  rewrite Hpost. cbn. rewrite Hstatus. cbn. rewrite Hbody. cbn.
  rewrite Hchoices. cbn. rewrite Hmessage. cbn. now rewrite Hcontent.
Qed.

Lemma request_fold (kwargs : dict json) (k : string) :
  NoDup (dict_keys kwargs) ->
  forall d : dict json,
    dict_get k (fold_left (fun d member => dict_set (fst member) (snd member) d)
                  kwargs d)
    = match dict_get k kwargs with
      | Some v => Some v
      | None => dict_get k d
      end.
Proof.
  induction kwargs as [| [k0 v0] kwargs IH]; cbn; intros Hkeys d; [reflexivity |].
  apply NoDup_cons_iff in Hkeys as [Hk0 Hkeys].
  rewrite (IH Hkeys), dict_get_set.
  destruct (String.eqb_spec k0 k) as [-> | _]; [| reflexivity].
  destruct (dict_get k kwargs) as [v |] eqn:Hv; [| reflexivity].
  exfalso. apply Hk0. clear -Hv.
  induction kwargs as [| [k1 v1] kwargs IH]; cbn in *; [discriminate |].
  destruct (String.eqb_spec k1 k); [now left | right; now apply IH].
Qed.

(** X23.  The body of the request: an extra keyword argument replaces
    the member of the same name, so a [model] given to [generate]
    overrides the model of the provider; the other members are the model
    of the provider, the conversation, the temperature and the length
    limit; no key occurs twice. *)
Theorem request_data_members (self : OpenRouterProvider)
    (conversation : list message) (temperature max_tokens : json)
    (kwargs : dict json) (k : string) :
  NoDup (dict_keys kwargs) ->
  dict_get k (request_data self conversation temperature max_tokens kwargs)
  = match dict_get k kwargs with
    | Some v => Some v
    | None =>
      dict_get k [ ("model", JStr (model self));
                   ("messages", JList (map message_json conversation));
                   ("temperature", temperature);
                   ("max_tokens", max_tokens) ]
    end
  /\ NoDup (dict_keys (request_data self conversation temperature max_tokens kwargs)).
Proof.
  intros Hkeys. unfold request_data. split; [now apply request_fold |].
  assert (Hfold : forall (xs d : dict json),
             NoDup (dict_keys d) ->
             NoDup (dict_keys
                      (fold_left (fun d member => dict_set (fst member) (snd member) d)
                         xs d))).
  { induction xs as [| x xs IH]; cbn; intros d Hd; [exact Hd |].
    apply IH. now apply dict_set_NoDup. }
  apply Hfold. repeat constructor; cbn; intuition discriminate.
Qed.

(** X24.  A body that passes [raise_for_status] and has no usable
    choice makes [generate] raise: [KeyError] when the object has no
    [choices], [IndexError] when [choices] is an empty list. *)
Theorem generate_without_choice (self : OpenRouterProvider)
    (conversation : list message) (temperature max_tokens : json)
    (kwargs : dict json) response body :
  post (base_url self ++ "/chat/completions") (request_headers self)
       (JObj (request_data self conversation temperature max_tokens kwargs)) 30
  = Ok response ->
  raise_for_status response = Ok tt ->
  response_json response = Ok (JObj body) ->
  (dict_get "choices" body = None ->
   OpenRouterProvider_generate self conversation temperature max_tokens kwargs
   = Raise KeyError)
  /\ (dict_get "choices" body = Some (JList []) ->
      OpenRouterProvider_generate self conversation temperature max_tokens kwargs
      = Raise (IndexError "list index out of range")).
Proof.
  intros Hpost Hstatus Hbody. unfold OpenRouterProvider_generate.
  rewrite Hpost. cbn. rewrite Hstatus. cbn. rewrite Hbody. cbn.
  split; intros ->; reflexivity.
Qed.

End Provider.

(** ** Sample runs *)

#[local] Existing Instance sample_interpreter.

Example decode_samples :
  json_loads " [1, -2.5e3, true, null] "
    = Ok (JList [JInt 1; JFloat "-2.5e3"; JBool true; JNull])
  /\ json_loads ("{" ++ quoted "a" ++ ": 1, " ++ quoted "b" ++ ": [], "
                 ++ quoted "a" ++ ": {}}")
     = Ok (JObj [("a", JObj []); ("b", JList [])])
  /\ json_loads (quoted "tab\there") = Ok (JStr ("tab" ++ String "009" "here"))
  /\ json_loads "01" = Raise JSONDecodeError
  /\ json_loads "[1,]" = Raise JSONDecodeError
  /\ json_loads "{x}" = Raise JSONDecodeError.
Proof. repeat split; reflexivity. Qed.

(** The limits of the sample interpreter: an integer of 4301 digits is
    refused, a float of as many digits is not, and the error that comes
    first in the text wins; 991 lists in each other are decoded, 992 are
    not. *)
Example decoder_limits :
  (exists n, json_loads (ones 4300) = Ok (JInt n))
  /\ json_loads (ones 4301) = Raise (ValueError (digits_error 4301))
  /\ json_loads ("-" ++ ones 4301) = Raise (ValueError (digits_error 4301))
  /\ json_loads (ones 4301 ++ ".5") = Ok (JFloat (ones 4301 ++ ".5"))
  /\ json_loads ("[x, " ++ ones 4301 ++ "]") = Raise JSONDecodeError
  /\ json_loads ("[" ++ ones 4301 ++ ", x]") = Raise (ValueError (digits_error 4301))
  /\ (exists v, json_loads (nested 991) = Ok v)
  /\ json_loads (nested 992) = Raise (RecursionError (recursion_error "[")).
Proof.
  split; [eexists; vm_compute; reflexivity |].
  do 5 (split; [vm_compute; reflexivity |]).
  split; [eexists; vm_compute; reflexivity |].
  vm_compute; reflexivity.
Qed.

(** A reply that holds an integer beyond the limit ends the run with the
    [ValueError] of the decoder: it is no decoding error, so no corrective
    message is sent. *)
Example long_integer_ends_run :
  fst (run_sample ["{" ++ quoted "final_answer" ++ ": " ++ ones 4301 ++ "}";
                   final_answer_reply "4"])
  = Raise (ValueError (digits_error 4301)).
Proof. vm_compute; reflexivity. Qed.

(** The calculator on a power whose value has too many digits for the
    conversion to text: [eval] returns, the rendering raises inside the
    same [try], and the observation is a tool error. *)
Example long_result_is_a_tool_error :
  map content
    (skipn 2 (messages
       (snd (run_sample [tool_reply "calculator" "10**5000"; final_answer_reply "4"]))))
  = [ tool_reply "calculator" "10**5000";
      "Tool error: Exceeds the limit (4300 digits) for integer string conversion; "
      ++ "use sys.set_int_max_str_digits() to increase the limit";
      final_answer_reply "4" ].
Proof. vm_compute; reflexivity. Qed.

(** A JSON string that holds braces: the substring between them is not
    JSON and the parser fails; so does the worded parser, whose second
    attempt finds a string and no object. *)
Example braces_in_a_string :
  _parse_action (quoted "{x}") = Raise JSONDecodeError
  /\ spec_parse_action decode_object (quoted "{x}") = Raise JSONDecodeError
  /\ spec_parse_action decode_action_schema (quoted "{x}") = Raise JSONDecodeError.
Proof. repeat split; reflexivity. Qed.

(** Text around the object is ignored. *)
Example parse_action_in_prose :
  _parse_action ("Sure. " ++ final_answer_reply "4" ++ " Done.")
  = Ok (JObj [("final_answer", JStr "4")]).
Proof. reflexivity. Qed.

(** The calculator is asked for a sum, its result is reported, and the
    final answer ends the run. *)
Example calculator_run :
  fst (run_sample [tool_reply "calculator" "2 + 2"; final_answer_reply "4"])
    = Ok (JStr "4")
  /\ map content
       (skipn 2 (messages
          (snd (run_sample [tool_reply "calculator" "2 + 2"; final_answer_reply "4"]))))
     = [tool_reply "calculator" "2 + 2"; "Tool result: 4"; final_answer_reply "4"]
  /\ execute_calls
       (snd (run_sample [tool_reply "calculator" "2 + 2"; final_answer_reply "4"]))
     = [("calculator", [("expression", JStr "2 + 2")])].
Proof. repeat split; reflexivity. Qed.

(** Decoded values that are no objects: a list without the keys gets a
    corrective message; a string that holds a key raises at the
    subscription. *)
Example other_shapes :
  fst (run_sample ["[1, 2]"; final_answer_reply "4"]) = Ok (JStr "4")
  /\ map content (skipn 2 (messages (snd (run_sample ["[1, 2]"; final_answer_reply "4"]))))
     = ["[1, 2]"; "Please specify a tool to use or provide a final_answer.";
        final_answer_reply "4"]
  /\ fst (run_sample [quoted "my final_answer"]) = Raise TypeError
  /\ fst (run_sample ["[" ++ quoted "tool" ++ "]"]) = Raise TypeError.
Proof. repeat split; reflexivity. Qed.

(** ** The theorems at sample runs *)


(** C1 at a provider that answers [5]. *)
Lemma scalar_reply_raises_type_error_witness :
  generate (llm_provider number_agent)
      (backend (initial_state number_agent sample_task tt))
      (messages (initial_state number_agent sample_task tt))
    = (Ok "5", tt)
  /\ _parse_action "5" = Ok (JInt 5)
  /\ not_a_container (JInt 5) = true
  /\ @run sample_interpreter unit number_agent sample_task tt
     = (Raise TypeError,
        after_call (initial_state number_agent sample_task tt) tt "5" []).
Proof.
  do 3 (split; [reflexivity |]).
  exact (@scalar_reply_raises_type_error sample_interpreter unit number_agent
           (initial_state number_agent sample_task tt) 9 "5" tt (JInt 5)
           eq_refl eq_refl eq_refl).
Defined.

(** C5 at the script of one final answer. *)
Lemma final_answer_on_first_call_witness :
  plain_text "X" = true
  /\ (0 < max_iterations sample_agent)%Z
  /\ generate (llm_provider sample_agent) [final_answer_reply "X"]
       (initial_messages sample_agent sample_task)
     = (Ok (final_answer_reply "X"), [])
  /\ run_sample [final_answer_reply "X"]
     = (Ok (JStr "X"),
        after_call (start_sample [final_answer_reply "X"]) []
          (final_answer_reply "X") [])
  /\ generate_calls (snd (run_sample [final_answer_reply "X"]))
     = [initial_messages sample_agent sample_task].
Proof.
  do 3 (split; [reflexivity |]).
  exact (@final_answer_on_first_call sample_interpreter (list string)
           sample_agent sample_task [final_answer_reply "X"] [] "X"
           eq_refl eq_refl eq_refl).
Defined.


(** The same on the script of two malformed replies and a final
    answer. *)
Example scripted_malformed_run :
  fst (run_sample (malformed_sample ++ [final_answer_reply "4"])%list)
    = Ok (JStr "4")
  /\ messages (snd (run_sample (malformed_sample ++ [final_answer_reply "4"])%list))
     = (corrected_conversation (initial_messages sample_agent sample_task)
          malformed_sample
        ++ [assistant (final_answer_reply "4")])%list.
Proof. split; reflexivity. Qed.

(** C4 at a reply with both members. *)
Lemma final_answer_takes_precedence_witness :
  generate (llm_provider sample_agent)
      (backend (start_sample [both_fields_reply]))
      (messages (start_sample [both_fields_reply]))
    = (Ok both_fields_reply, [])
  /\ _parse_action both_fields_reply = Ok (JObj both_fields_object)
  /\ dict_get "tool" both_fields_object = Some (JStr "calculator")
  /\ dict_get "final_answer" both_fields_object = Some (JStr "done")
  /\ loop_sample 10 (start_sample [both_fields_reply])
     = (Ok (JStr "done"),
        after_call (start_sample [both_fields_reply]) [] both_fields_reply [])
  /\ execute_calls (snd (loop_sample 10 (start_sample [both_fields_reply])))
     = execute_calls (start_sample [both_fields_reply]).
Proof.
  do 4 (split; [reflexivity |]).
  exact (@final_answer_takes_precedence sample_interpreter (list string)
           sample_agent (start_sample [both_fields_reply]) 9 both_fields_reply []
           both_fields_object (JStr "done") (JStr "calculator")
           eq_refl eq_refl eq_refl eq_refl).
Defined.

(** C7 at a request for the tool [search], which is not registered,
    followed by a final answer. *)
Lemma unknown_tool_is_reported_witness :
  generate (llm_provider sample_agent)
      (backend (start_sample [tool_reply "search" "2 + 2"; final_answer_reply "4"]))
      (messages (start_sample [tool_reply "search" "2 + 2"; final_answer_reply "4"]))
    = (Ok (tool_reply "search" "2 + 2"), [final_answer_reply "4"])
  /\ _parse_action (tool_reply "search" "2 + 2") = Ok (JObj search_object)
  /\ dict_get "final_answer" search_object = None
  /\ dict_get "tool" search_object = Some (JStr "search")
  /\ tools_contains (tools sample_agent) (JStr "search") = Ok false
  /\ gives_final_answer (llm_provider sample_agent) (final_answer_reply "4")
       (JStr "4") [final_answer_reply "4"] []
  /\ loop_sample 10 (start_sample [tool_reply "search" "2 + 2"; final_answer_reply "4"])
     = (Ok (JStr "4"),
        after_call
          (after_call
             (start_sample [tool_reply "search" "2 + 2"; final_answer_reply "4"])
             [final_answer_reply "4"] (tool_reply "search" "2 + 2")
             [user "Unknown tool: search"])
          [] (final_answer_reply "4") []).
Proof.
  assert (Hfinal :
            gives_final_answer (llm_provider sample_agent) (final_answer_reply "4")
              (JStr "4") [final_answer_reply "4"] []).
  { split; [reflexivity |]. exists [("final_answer", JStr "4")]. split; reflexivity. }
  do 5 (split; [reflexivity |]). split; [exact Hfinal |].
  exact (proj2
           (@unknown_tool_is_reported sample_interpreter (list string)
              sample_agent
              (start_sample [tool_reply "search" "2 + 2"; final_answer_reply "4"])
              8 (tool_reply "search" "2 + 2") [final_answer_reply "4"]
              search_object (JStr "search")
              eq_refl eq_refl eq_refl eq_refl eq_refl)
           (final_answer_reply "4") (JStr "4") [] Hfinal).
Defined.



(** C9 at the two sample tools. *)
Lemma system_prompt_enumerates_tools_witness :
  NoDup (map name sample_tools)
  /\ _create_system_prompt sample_agent
     = prompt_header
       ++ "- calculator: " ++ calculator_description ++ chr nl
       ++ "- notes: Keeps notes."
       ++ prompt_instructions.
Proof.
  assert (Hdistinct : NoDup (map name sample_tools)).
  { repeat constructor; cbn; intuition discriminate. }
  split; [exact Hdistinct |].
  exact (proj1 (@system_prompt_enumerates_tools (list string) scripted
                  sample_tools default_max_iterations sample_task Hdistinct)).
Defined.




(** The run answers such an object with the request for a tool or a
    final answer. *)
Example any_object_is_prompted :
  map content (skipn 2 (messages (snd (run_sample [foo_reply; final_answer_reply "4"]))))
  = [foo_reply; "Please specify a tool to use or provide a final_answer.";
     final_answer_reply "4"].
Proof. reflexivity. Qed.

(** ** The further theorems at sample runs *)

(** X1 at a provider whose transport is down. *)
Lemma provider_error_propagates_witness :
  generate (llm_provider unreachable_agent)
      (backend (initial_state unreachable_agent sample_task tt))
      (messages (initial_state unreachable_agent sample_task tt))
    = (Raise unreachable_error, tt)
  /\ @run sample_interpreter unit unreachable_agent sample_task tt
     = (Raise unreachable_error,
        {| messages := initial_messages unreachable_agent sample_task;
           backend := tt;
           generate_calls := [initial_messages unreachable_agent sample_task];
           execute_calls := [] |}).
Proof.
  split; [reflexivity |].
  exact (@provider_error_propagates sample_interpreter unit unreachable_agent
           (initial_state unreachable_agent sample_task tt) 9 unreachable_error tt
           eq_refl).
Defined.

(** X2 at the calculator on the expression [2 + 2]. *)
Lemma tool_result_is_reported_witness :
  generate (llm_provider sample_agent)
      (backend (start_sample [tool_reply "calculator" "2 + 2"]))
      (messages (start_sample [tool_reply "calculator" "2 + 2"]))
    = (Ok (tool_reply "calculator" "2 + 2"), [])
  /\ _parse_action (tool_reply "calculator" "2 + 2") = Ok (JObj sum_object)
  /\ dict_get "final_answer" sum_object = None
  /\ dict_get "tool" sum_object = Some (JStr "calculator")
  /\ dict_get "calculator" (tools sample_agent)
     = Some (@CalculatorTool sample_evaluator)
  /\ kwargs_of sum_object = Some sum_kwargs
  /\ execute (@CalculatorTool sample_evaluator) sum_kwargs = Returns "4"
  /\ loop_sample 10 (start_sample [tool_reply "calculator" "2 + 2"])
     = loop_sample 9
         (after_execute
            (after_call (start_sample [tool_reply "calculator" "2 + 2"]) []
               (tool_reply "calculator" "2 + 2") [user ("Tool result: " ++ "4")])
            "calculator" sum_kwargs).
Proof.
  do 7 (split; [reflexivity |]).
  exact (@tool_result_is_reported sample_interpreter (list string)
           sample_agent (start_sample [tool_reply "calculator" "2 + 2"]) 9
           (tool_reply "calculator" "2 + 2") [] sum_object "calculator"
           (@CalculatorTool sample_evaluator) sum_kwargs "4"
           eq_refl eq_refl eq_refl eq_refl eq_refl eq_refl eq_refl).
Defined.

(** X3 at the empty object. *)
Lemma object_without_fields_is_prompted_witness :
  generate (llm_provider sample_agent) (backend (start_sample ["{}"]))
      (messages (start_sample ["{}"]))
    = (Ok "{}", [])
  /\ _parse_action "{}" = Ok (JObj [])
  /\ dict_get "final_answer" (@nil (string * json)) = None
  /\ dict_get "tool" (@nil (string * json)) = None
  /\ loop_sample 10 (start_sample ["{}"])
     = loop_sample 9
         (after_call (start_sample ["{}"]) [] "{}"
            [user "Please specify a tool to use or provide a final_answer."]).
Proof.
  do 4 (split; [reflexivity |]).
  exact (@object_without_fields_is_prompted sample_interpreter (list string)
           sample_agent (start_sample ["{}"]) 9 "{}" [] []
           eq_refl eq_refl eq_refl eq_refl).
Defined.

(** X4 at a request whose [arguments] is the number 3. *)
Lemma bad_arguments_are_reported_witness :
  generate (llm_provider sample_agent)
      (backend (start_sample [bad_arguments_reply]))
      (messages (start_sample [bad_arguments_reply]))
    = (Ok bad_arguments_reply, [])
  /\ _parse_action bad_arguments_reply = Ok (JObj bad_arguments_object)
  /\ dict_get "final_answer" bad_arguments_object = None
  /\ dict_get "tool" bad_arguments_object = Some (JStr "calculator")
  /\ dict_get "calculator" (tools sample_agent)
     = Some (@CalculatorTool sample_evaluator)
  /\ dict_get "arguments" bad_arguments_object = Some (JInt 3)
  /\ kwargs_of bad_arguments_object = None
  /\ loop_sample 10 (start_sample [bad_arguments_reply])
     = loop_sample 9
         (after_call (start_sample [bad_arguments_reply]) [] bad_arguments_reply
            [user "Tool error: argument after ** must be a mapping"]).
Proof.
  do 7 (split; [reflexivity |]).
  exact (@bad_arguments_are_reported sample_interpreter (list string)
           sample_agent (start_sample [bad_arguments_reply]) 9
           bad_arguments_reply [] bad_arguments_object "calculator"
           (@CalculatorTool sample_evaluator) (JInt 3)
           eq_refl eq_refl eq_refl eq_refl eq_refl eq_refl eq_refl).
Defined.

(** X5 at a budget of zero. *)
Lemma no_budget_no_call_witness :
  (max_iterations idle_agent <= 0)%Z
  /\ @run sample_interpreter (list string) idle_agent sample_task
       [final_answer_reply "4"]
     = (Raise (budget_exceeded 0),
        initial_state idle_agent sample_task [final_answer_reply "4"]).
Proof.
  split; [discriminate |].
  exact (@no_budget_no_call sample_interpreter (list string) idle_agent
           sample_task [final_answer_reply "4"] (Z.le_refl 0)).
Defined.

(** X9 at the script of one final answer. *)
Lemma returned_answer_is_in_last_reply_witness :
  fst (run_sample [final_answer_reply "4"]) = Ok (JStr "4")
  /\ exists before response d,
       messages (snd (run_sample [final_answer_reply "4"]))
       = (before ++ [assistant response])%list
       /\ _parse_action response = Ok (JObj d)
       /\ dict_get "final_answer" d = Some (JStr "4").
Proof.
  split; [reflexivity |].
  exact (@returned_answer_is_in_last_reply sample_interpreter (list string)
           sample_agent sample_task [final_answer_reply "4"] (JStr "4") eq_refl).
Defined.

(** X10 at a provider that always answers [not json], with a budget of
    three. *)
Lemma budget_error_after_all_calls_witness :
  always_replies (llm_provider stubborn_agent)
  /\ fst run_stubborn = Raise (budget_exceeded (max_iterations stubborn_agent))
  /\ List.length (generate_calls (snd run_stubborn)) = 3%nat
  /\ List.length (messages (snd run_stubborn)) = 8%nat.
Proof.
  assert (Hreplies : always_replies (llm_provider stubborn_agent)).
  { intros b msgs. now exists "not json", tt. }
  split; [exact Hreplies |]. split; [reflexivity |].
  exact (@budget_error_after_all_calls sample_interpreter unit stubborn_agent
           sample_task tt Hreplies eq_refl).
Defined.


(** X13 at a final answer inside a sentence. *)
Lemma prose_around_object_is_ignored_witness :
  lacks "{" "Sure. " = true
  /\ lacks "}" " Done." = true
  /\ _parse_action ("Sure. " ++ "{" ++ (quoted "final_answer" ++ ": 4") ++ "}"
                    ++ " Done.")
     = _parse_action ("{" ++ (quoted "final_answer" ++ ": 4") ++ "}").
Proof.
  do 2 (split; [reflexivity |]).
  exact (prose_around_object_is_ignored "Sure. " (quoted "final_answer" ++ ": 4")
           " Done." eq_refl eq_refl).
Defined.

(** X14 at a reply of two spaces. *)
Lemma blank_reply_is_malformed_witness :
  generate (llm_provider sample_agent) (backend (start_sample ["  "]))
      (messages (start_sample ["  "]))
    = (Ok "  ", [])
  /\ only_whitespace "  " = true
  /\ _parse_action "  " = Raise JSONDecodeError
  /\ loop_sample 10 (start_sample ["  "])
     = loop_sample 9 (after_call (start_sample ["  "]) [] "  " [corrective]).
Proof.
  do 2 (split; [reflexivity |]).
  exact (@blank_reply_is_malformed sample_interpreter (list string) sample_agent
           (start_sample ["  "]) 9 "  " [] eq_refl eq_refl).
Defined.


(** X17 at the name [cbrt]. *)
Lemma unknown_math_function_witness :
  dict_mem "cbrt" (@allowed_functions sample_evaluator sample_math) = false
  /\ @MathFunctionTool_execute sample_evaluator sample_math "cbrt" 8%Z
     = Raises "ValueError"
         ("Unknown function: " ++ "cbrt"
          ++ ". Available: sqrt, sin, cos, tan, log, log10, exp, floor, ceil, "
          ++ "factorial, degrees, radians, abs").
Proof.
  split; [reflexivity |].
  exact (@unknown_math_function sample_evaluator sample_math "cbrt" 8%Z eq_refl).
Defined.

(** X21 at a response that fails [raise_for_status] although its body
    holds a text. *)
Lemma generate_propagates_errors_witness :
  (@post (answering (error_response (sample_body "text"))) sample_url
     (request_headers sample_provider) (sample_request []) 30
   = Raise http_error
   \/ exists response,
        @post (answering (error_response (sample_body "text"))) sample_url
          (request_headers sample_provider) (sample_request []) 30
        = Ok response
        /\ raise_for_status response = Raise http_error)
  /\ sample_generate (answering (error_response (sample_body "text")))
     = Raise http_error.
Proof.
  assert (Hfails :
            @post (answering (error_response (sample_body "text"))) sample_url
              (request_headers sample_provider) (sample_request []) 30
            = Raise http_error
            \/ exists response,
                 @post (answering (error_response (sample_body "text"))) sample_url
                   (request_headers sample_provider) (sample_request []) 30
                 = Ok response
                 /\ raise_for_status response = Raise http_error).
  { right. exists (error_response (sample_body "text")). split; reflexivity. }
  split; [exact Hfails |].
  exact (@generate_propagates_errors
           (answering (error_response (sample_body "text"))) sample_provider
           sample_conversation default_temperature default_max_tokens []
           http_error Hfails).
Defined.

(** X22 at the body of the test of the provider. *)
Lemma generate_returns_first_choice_witness :
  @post (answering (ok_response (sample_body "Generated response"))) sample_url
    (request_headers sample_provider) (sample_request []) 30
  = Ok (ok_response (sample_body "Generated response"))
  /\ sample_generate (answering (ok_response (sample_body "Generated response")))
     = Ok (JStr "Generated response").
Proof.
  split; [reflexivity |].
  exact (@generate_returns_first_choice
           (answering (ok_response (sample_body "Generated response")))
           sample_provider sample_conversation default_temperature
           default_max_tokens []
           (ok_response (sample_body "Generated response"))
           [("choices",
             JList [JObj [("message",
                           JObj [("role", JStr "assistant");
                                 ("content", JStr "Generated response")])]])]
           [("message", JObj [("role", JStr "assistant");
                              ("content", JStr "Generated response")])]
           []
           [("role", JStr "assistant"); ("content", JStr "Generated response")]
           (JStr "Generated response")
           eq_refl eq_refl eq_refl eq_refl eq_refl eq_refl).
Defined.

(** X23 at a call that names another model. *)
Lemma request_data_members_witness :
  NoDup (dict_keys [("model", JStr "custom-model")])
  /\ dict_get "model"
       (request_data sample_provider sample_conversation default_temperature
          default_max_tokens [("model", JStr "custom-model")])
     = Some (JStr "custom-model").
Proof.
  assert (Hkeys : NoDup (dict_keys [("model", JStr "custom-model")])).
  { repeat constructor. intros []. }
  split; [exact Hkeys |].
  exact (proj1 (request_data_members sample_provider sample_conversation
                  default_temperature default_max_tokens
                  [("model", JStr "custom-model")] "model" Hkeys)).
Defined.

(** X24 at an empty object as the body. *)
Lemma generate_without_choice_witness :
  @post (answering (ok_response (JObj []))) sample_url
    (request_headers sample_provider) (sample_request []) 30
  = Ok (ok_response (JObj []))
  /\ sample_generate (answering (ok_response (JObj []))) = Raise KeyError.
Proof.
  split; [reflexivity |].
  exact (proj1 (@generate_without_choice (answering (ok_response (JObj [])))
                  sample_provider sample_conversation default_temperature
                  default_max_tokens [] (ok_response (JObj [])) []
                  eq_refl eq_refl eq_refl)
           eq_refl).
Defined.
